(** * Customer controller: authentication decisions and session lifecycle

    A shallow embedding of [controllers/customer.js] (profile read,
    registration, login-method query, login, fake OTP getter) together with
    the stores it talks to: the relational tables behind [fetchDB] and the
    four Redis hashes [customers], [tokens], [otp] and [customer_login].

    Every [async.waterfall] becomes a computation in a state-and-error
    monad: an error short-circuits the remaining steps, and what was
    written to a store before the error stays written. *)

From Stdlib Require Import ZArith String Ascii List Bool Lia.
From stdpp Require Import base option gmap strings list pretty.

Local Open Scope string_scope.
Local Open Scope Z_scope.

(** ** JavaScript built-ins used by the controller *)

Module Js.

(** White space removed by [String.prototype.trim] and skipped by
    [parseInt] (the ASCII part of it). *)
Definition is_space (a : ascii) : bool :=
  let n := N_of_ascii a in
  ((9 <=? n) && (n <=? 13))%N || (n =? 32)%N.

Fixpoint trimStart (s : string) : string :=
  match s with
  | String a r => if is_space a then trimStart r else s
  | EmptyString => EmptyString
  end.

Definition trim (s : string) : string :=
  String.rev (trimStart (String.rev (trimStart s))).

(** Value of a character as a digit of the given radix. *)
Definition digit (radix : Z) (a : ascii) : option Z :=
  let n := Z.of_N (N_of_ascii a) in
  let v :=
    if (48 <=? n) && (n <=? 57) then Some (n - 48)
    else if (97 <=? n) && (n <=? 122) then Some (n - 87)
    else if (65 <=? n) && (n <=? 90) then Some (n - 55)
    else None in
  match v with
  | Some d => if d <? radix then Some d else None
  | None => None
  end.

(** Longest prefix of digits; [None] when there is no digit at all. *)
Fixpoint digits (radix : Z) (acc : option Z) (s : string) : option Z :=
  match s with
  | String a r =>
      match digit radix a with
      | Some d => digits radix (Some (default 0 acc * radix + d)) r
      | None => acc
      end
  | EmptyString => acc
  end.

(** [parseInt(s)] without a radix argument; [None] is [NaN]. *)
Definition parseInt (s : string) : option Z :=
  let s := trimStart s in
  let '(neg, s) :=
    match s with
    | String "-"%char r => (true, r)
    | String "+"%char r => (false, r)
    | _ => (false, s)
    end in
  let '(radix, s) :=
    match s with
    | String "0"%char (String "x"%char r) => (16, r)
    | String "0"%char (String "X"%char r) => (16, r)
    | _ => (10, s)
    end in
  (fun v => if neg then - v else v) <$> digits radix None s.

(** Truthiness of an optional string: [undefined] and [''] are falsy. *)
Definition truthy (o : option string) : bool :=
  match o with
  | Some s => negb (String.eqb s "")
  | None => false
  end.

(** [String(Math.abs(n))] for an integral number. *)
Definition abs_string (n : Z) : string := pretty (Z.abs n).

End Js.

(** ** moment.js: instants are epoch milliseconds *)

Module Moment.

Definition add_seconds (t n : Z) : Z := t + n * 1000.
Definition add_minutes (t n : Z) : Z := t + n * 60000.
Definition add_hours (t n : Z) : Z := t + n * 3600000.

(** [a.isBefore(b)] and [a.isAfter(b)] are strict. *)
Definition isBefore (a b : Z) : bool := a <? b.
Definition isAfter (a b : Z) : bool := b <? a.

(** [a.diff(b, 'seconds')] truncates toward zero. *)
Definition diff_seconds (a b : Z) : Z := Z.quot (a - b) 1000.

End Moment.

(** ** Data model *)

Module Customer.
(** A row of the customers table. *)
Record t := mk {
  id : string;
  name : string;
  phone : string;
  hashed_password : string;
  image_url : option string;
  gender : option string;
  birth_date : option string;
  lang : option string
}.
End Customer.

Module Device.
(** A row of the trusted-devices table. *)
Record t := mk { customer_id : string; device_uid : string }.
End Device.

Module Token.
(** Value of the [tokens] hash. *)
Record t := mk { id : string; role : string; expiresAt : Z }.
End Token.

Module Otp.
(** Value of the [otp] hash. *)
Record t := mk { code : Z; expiresAt : Z }.
End Otp.

Module Status.
(** Value of the [customer_login] hash, and the handler's local
    [customerStatus].  [last_login_attempt = None] stands for both
    [undefined] and [null]; a missing [is_blocked] reads as [false]; the
    record is only ever stored after [safe_login_after] was assigned, and
    before that the field is not read. *)
Record t := mk {
  last_login_attempt : option Z;
  safe_login_after : Z;
  is_blocked : bool
}.

(** [customerStatus = {}] *)
Definition empty : t := mk None 0 false.
End Status.

#[global] Instance Token_eq_dec : EqDecision Token.t.
Proof. solve_decision. Defined.
#[global] Instance Otp_eq_dec : EqDecision Otp.t.
Proof. solve_decision. Defined.
#[global] Instance Status_eq_dec : EqDecision Status.t.
Proof. solve_decision. Defined.

(** The relational store. *)
Record Db := mkDb {
  customers_tbl : list Customer.t;
  devices_tbl : list Device.t
}.

(** The Redis hashes. *)
Record Redis := mkRedis {
  customers : gmap string string;
  tokens : gmap string Token.t;
  otp : gmap string Otp.t;
  customer_login : gmap string Status.t
}.

Record World := mkWorld { db : Db; redis : Redis }.

(** ** Errors and faults *)

Inductive Error :=
| ValidationError
| USER_NOT_FOUND
| NUMBER_TAKEN
| USER_BLOCKED (timeLeft : Z)
| WRONG_PASSWORD
| WRONG_OTP
| EXPIRED_OTP
| INVALID_TOKEN
| StoreError (msg : string).

Inductive Hash := Hcustomers | Htokens | Hotp | Hcustomer_login.

#[global] Instance Error_eq_dec : EqDecision Error.
Proof. solve_decision. Defined.

Inductive Query :=
| customers_getOneById
| customers_getOneByPhone
| customers_create
| customers_delete
| devices_create
| devices_getOneByUid.

(** The I/O calls of the controller.  A fault assignment says which of them
    fail in a request, and with which message; a failed call leaves its
    store as it was. *)
Inductive IoOp :=
| HGET (h : Hash)
| HSET (h : Hash)
| HDEL (h : Hash)
| QUERY (q : Query).

Definition Faults := IoOp -> option string.

Definition no_faults : Faults := fun _ => None.

(** ** The waterfall monad *)

Definition Flow (A : Type) : Type := World -> (Error + A) * World.

Definition ret {A} (a : A) : Flow A := fun w => (inr a, w).

Definition throw {A} (e : Error) : Flow A := fun w => (inl e, w).

Definition bind {A B} (m : Flow A) (k : A -> Flow B) : Flow B :=
  fun w =>
    match m w with
    | (inr a, w') => k a w'
    | (inl e, w') => (inl e, w')
    end.

(** The outcome a callback hands to the waterfall. *)
Definition callback {A} (r : Error + A) : Flow A := fun w => (r, w).

(** A step whose error, before it is passed on, triggers a clean-up. *)
Definition on_error {A} (m : Flow A) (cleanup : Flow unit) : Flow A :=
  fun w =>
    match m w with
    | (inl e, w') => (inl e, snd (cleanup w'))
    | (inr a, w') => (inr a, w')
    end.

Notation "'let*' x := m 'in' k" := (bind m (fun x => k))
  (at level 10, x name, m at level 100, k at level 200, only parsing).
Notation "'run' m 'in' k" := (bind m (fun _ => k))
  (at level 10, m at level 100, k at level 200, only parsing).

(** ** The Redis client (hGet, hSet, hDel) *)

(** Modelled from the spec: the Redis wrapper module is not among the
    sources; the spec describes it as named mappings (hashes) from string
    fields to JSON values, with no expiry of its own.  A hash is given by
    its name and by how it sits in [Redis]; JSON.stringify and JSON.parse
    cancel out, so a hash holds the parsed value. *)
Record HashOf (V : Type) := mkHash {
  h_name : Hash;
  h_get : Redis -> gmap string V;
  h_put : gmap string V -> Redis -> Redis
}.
Arguments h_name {V}.
Arguments h_get {V}.
Arguments h_put {V}.

Definition customersH : HashOf string :=
  mkHash _ Hcustomers customers
    (fun m r => mkRedis m (tokens r) (otp r) (customer_login r)).
Definition tokensH : HashOf Token.t :=
  mkHash _ Htokens tokens
    (fun m r => mkRedis (customers r) m (otp r) (customer_login r)).
Definition otpH : HashOf Otp.t :=
  mkHash _ Hotp otp
    (fun m r => mkRedis (customers r) (tokens r) m (customer_login r)).
Definition customer_loginH : HashOf Status.t :=
  mkHash _ Hcustomer_login customer_login
    (fun m r => mkRedis (customers r) (tokens r) (otp r) m).

Definition update_hash {V} (h : HashOf V)
    (f : gmap string V -> gmap string V) (w : World) : World :=
  mkWorld (db w) (h_put h (f (h_get h (redis w))) (redis w)).

(** Modelled from the spec: [redis.hGet(hash, field, cb)] of the absent
    Redis wrapper reads a field of a hash, [undefined] when there is
    none. *)
Definition hGet {V} (fl : Faults) (h : HashOf V) (field : string)
    : Flow (option V) :=
  fun w =>
    match fl (HGET (h_name h)) with
    | Some e => (inl (StoreError e), w)
    | None => (inr (h_get h (redis w) !! field), w)
    end.

(** Modelled from the spec: [redis.hSet(hash, field, value, cb)] of the
    absent Redis wrapper writes a field, over any earlier value. *)
Definition hSet {V} (fl : Faults) (h : HashOf V) (field : string) (v : V)
    : Flow unit :=
  fun w =>
    match fl (HSET (h_name h)) with
    | Some e => (inl (StoreError e), w)
    | None => (inr tt, update_hash h (insert field v) w)
    end.

(** Modelled from the spec: [redis.hDel(hash, field)] of the absent Redis
    wrapper removes a field.  The controller calls it without a callback:
    the caller goes on whatever the outcome. *)
Definition hDel_noack {V} (fl : Faults) (h : HashOf V) (field : string)
    : Flow unit :=
  fun w =>
    match fl (HDEL (h_name h)) with
    | Some _ => (inr tt, w)
    | None => (inr tt, update_hash h (delete field) w)
    end.

(** ** The relational store (fetchDB and its queries) *)

(** Modelled from the spec: [fetchDB(query, params, cb)] of the absent
    postgres module runs one query against the relational store and hands
    its error or its result to the callback. *)
Definition fetchDB {R} (fl : Faults) (q : Query) (sql : Db -> R * Db)
    : Flow R :=
  fun w =>
    match fl (QUERY q) with
    | Some e => (inl (StoreError e), w)
    | None => let '(result, d) := sql (db w) in
              (inr result, mkWorld d (redis w))
    end.

(** Modelled from the spec: [fetchDB(query, params)] called without a
    callback, as the clean-up of a failed registration does. *)
Definition fetchDB_noack {R} (fl : Faults) (q : Query)
    (sql : Db -> R * Db) : Flow unit :=
  fun w =>
    match fl (QUERY q) with
    | Some _ => (inr tt, w)
    | None => (inr tt, mkWorld (snd (sql (db w))) (redis w))
    end.

Module Queries.

(** Modelled from the spec: the SQL text of [customersQuery] and
    [devicesQuery] is not among the sources; the spec lists the
    repository interface as lookup-by-id, lookup-by-phone, create,
    delete, create-trusted-device and lookup-trusted-device-by
    (deviceId, phone).  This is lookup-by-id. *)
Definition getOneById (id : string) (d : Db) : list Customer.t * Db :=
  (List.filter (fun c => String.eqb (Customer.id c) id) (customers_tbl d), d).

(** Modelled from the spec: lookup-by-phone of the repository. *)
Definition getOneByPhone (phone : string) (d : Db) : list Customer.t * Db :=
  (List.filter (fun c => String.eqb (Customer.phone c) phone)
     (customers_tbl d), d).

(** Modelled from the spec: create of the repository.  The new row gets
    the identifier the database generates, [new_id]; the result is the
    inserted row, [result.rows[0]]. *)
Definition create (new_id name phone hashedPassword : string) (d : Db)
    : Customer.t * Db :=
  let row := Customer.mk new_id name phone hashedPassword
               None None None None in
  (row, mkDb (customers_tbl d ++ [row]) (devices_tbl d)).

(** Modelled from the spec: delete of the repository, by identifier. *)
Definition delete (id : string) (d : Db) : unit * Db :=
  (tt, mkDb (List.filter (fun c => negb (String.eqb (Customer.id c) id))
               (customers_tbl d))
            (devices_tbl d)).

(** Modelled from the spec: create-trusted-device of the repository. *)
Definition create_device (customer_id deviceId : string) (d : Db)
    : unit * Db :=
  let row := Device.mk customer_id deviceId in
  (tt, mkDb (customers_tbl d) (devices_tbl d ++ [row])).

(** Modelled from the spec: a device row is looked up by phone through
    the customer it belongs to. *)
Definition owner_has_phone (d : Db) (phone : string) (dv : Device.t)
    : bool :=
  existsb (fun c => String.eqb (Customer.id c) (Device.customer_id dv)
                    && String.eqb (Customer.phone c) phone)
          (customers_tbl d).

(** Modelled from the spec: the rows of the trusted-device association
    (deviceId, phone). *)
Definition getOneByUid (deviceId phone : string) (d : Db)
    : list Device.t * Db :=
  (List.filter (fun dv => String.eqb (Device.device_uid dv) deviceId
                          && owner_has_phone d phone dv)
     (devices_tbl d), d).

End Queries.

(** ** Requests, validated inputs, clock readings *)

(** The parts of an Express request the handlers read.  [body_phone] is the
    numeric value of the phone field; the other fields are strings or
    absent. *)
Record Request := mkRequest {
  body_name : option string;
  body_phone : Z;
  body_password : option string;
  body_trust : option bool;
  body_otp : option string;
  x_device_id : option string;
  authorization : option string;
  params_phone : string
}.

Module Inputs.
(** [inputs = validData] *)
Record t := mk {
  name : option string;
  phone : string;
  password : option string;
  trust : bool;
  deviceId : option string;
  otp : option string
}.
End Inputs.

(** One reading of the clock for each [moment()] a request can evaluate,
    in program order. *)
Record Instants := mkInstants {
  at_verify : Z;        (* token check of a private route *)
  at_block_check : Z;   (* moment().isBefore(unblockTime) *)
  at_time_left : Z;     (* unblockTime.diff(moment(), 'seconds') *)
  at_otp_expired : Z;   (* moment().isAfter(otpObject.expiresAt) *)
  at_otp_valid : Z;     (* moment().isBefore(otpObject.expiresAt) *)
  at_rapid_check : Z;   (* moment().isBefore(last + safe_login_after) *)
  at_elapsed : Z;       (* moment().diff(last_login_attempt, 'seconds') *)
  at_stamp : Z;         (* last_login_attempt = moment() *)
  at_issue : Z          (* moment().add(...) of a new token or code *)
}.

(** A clock that does not go back during the request. *)
Definition chronological (clk : Instants) : Prop :=
  at_verify clk <= at_block_check clk /\
  at_block_check clk <= at_time_left clk /\
  at_time_left clk <= at_otp_expired clk /\
  at_otp_expired clk <= at_otp_valid clk /\
  at_otp_valid clk <= at_rapid_check clk /\
  at_rapid_check clk <= at_elapsed clk /\
  at_elapsed clk <= at_stamp clk /\
  at_stamp clk <= at_issue clk.

(** The whole request at one instant. *)
Definition frozen (t : Z) : Instants := mkInstants t t t t t t t t t.

Inductive LoginType := password_login | otp_login.

Module LoginMethods.
(** The answer of the login-method query. *)
Record t := mk { password : bool; otp : bool }.
End LoginMethods.

(** JSON values of a profile response. *)
Inductive JsVal := JNull | JStr (s : string).

Definition of_nullable (o : option string) : JsVal :=
  match o with Some s => JStr s | None => JNull end.

(** [result.rows[0]] of a customers query as a JavaScript object. *)
Definition row_object (c : Customer.t) : gmap string JsVal :=
  list_to_map
    [ ("id", JStr (Customer.id c));
      ("name", JStr (Customer.name c));
      ("phone", JStr (Customer.phone c));
      ("hashed_password", JStr (Customer.hashed_password c));
      ("image_url", of_nullable (Customer.image_url c));
      ("gender", of_nullable (Customer.gender c));
      ("birth_date", of_nullable (Customer.birth_date c));
      ("lang", of_nullable (Customer.lang c)) ].

(** ** Token validation *)

(** Modelled from the spec: the [verifyToken] middleware is not among the
    sources.  The spec's validate(token) looks up the token record; an
    absent record or one whose expiry is at or before now is invalid;
    otherwise the identity and role of the record are returned. *)
Definition validate (now : Z) (token : string) (r : Redis)
    : option (string * string) :=
  match tokens r !! token with
  | Some rec =>
      if Token.expiresAt rec <=? now then None
      else Some (Token.id rec, Token.role rec)
  | None => None
  end.

(** Modelled from the spec: [verifyToken(req, role, cb)] hands the identity
    of a valid bearer token of that role to the callback and an error
    otherwise. *)
Definition verifyToken (fl : Faults) (clk : Instants) (req : Request)
    (role : string) : Flow string :=
  match authorization req with
  | None => throw INVALID_TOKEN
  | Some token =>
      let* rec := hGet fl tokensH token in
      match rec with
      | Some rec =>
          if (Token.expiresAt rec <=? at_verify clk)
             || negb (String.eqb (Token.role rec) role)
          then throw INVALID_TOKEN
          else ret (Token.id rec)
      | None => throw INVALID_TOKEN
      end
  end.

(** ** The handlers *)

Section Controller.

(** bcrypt, the custom LIVR rules and the file storage are libraries
    outside the controller. *)
Variable compareSync : string -> string -> bool.
Variable hashSync : string -> Z -> string.
Variable is_phone_number : string -> bool.
Variable alphanumeric : string -> bool.
Variable getFileUrl : option string -> option string.

(** *** getCustomerProfile *)

Definition getCustomerProfile (fl : Faults) (clk : Instants)
    (req : Request) : Flow (gmap string JsVal) :=
  (* verify customer *)
  let* customerId := verifyToken fl clk req "customer" in
  let* rows := fetchDB fl customers_getOneById
                 (Queries.getOneById customerId) in
  match rows with
  | [] => throw USER_NOT_FOUND
  | row :: _ =>
      let customer := row_object row in
      let customer := delete "hashed_password" customer in
      let image_url := getFileUrl (Customer.image_url row) in
      ret (<["image_url" := of_nullable image_url]> customer)
  end.

(** *** registerCustomer *)

Definition min_length (n : nat) (s : string) : bool :=
  (n <=? String.length s)%nat.
Definition max_length (n : nat) (s : string) : bool :=
  (String.length s <=? n)%nat.

(* validate data *)
Definition register_validate (req : Request) : Flow Inputs.t :=
  let name := Js.trim <$> body_name req in
  let phone := Js.abs_string (body_phone req) in
  let password := Js.trim <$> body_password req in
  let trust := default false (body_trust req) in
  let deviceId := Js.trim <$> x_device_id req in
  if Js.truthy name
     && min_length 3 (default "" name) && max_length 64 (default "" name)
     && is_phone_number phone
     && Js.truthy password
     && min_length 6 (default "" password)
     && alphanumeric (default "" password)
     && (negb trust || Js.truthy deviceId)
  then ret (Inputs.mk name phone password trust deviceId None)
  else throw ValidationError.

(* if customer exists, return error *)
Definition register_check_taken (fl : Faults) (inputs : Inputs.t)
    : Flow unit :=
  let* rows := fetchDB fl customers_getOneByPhone
                 (Queries.getOneByPhone (Inputs.phone inputs)) in
  if (0 <? length rows)%nat then throw NUMBER_TAKEN else ret tt.

(* if new customer, create customer *)
Definition register_create (fl : Faults) (new_id : string)
    (inputs : Inputs.t) : Flow Customer.t :=
  let hashedPassword :=
    hashSync (default "" (Inputs.password inputs)) 10 in
  fetchDB fl customers_create
    (Queries.create new_id (default "" (Inputs.name inputs))
       (Inputs.phone inputs) hashedPassword).

(* save new token; trust device if needed *)
Definition register_session (fl : Faults) (clk : Instants)
    (token : string) (inputs : Inputs.t) (newCustomer : Customer.t)
    : Flow unit :=
  run hSet fl customersH (Customer.id newCustomer) token in
  run hSet fl tokensH token
        (Token.mk (Customer.id newCustomer) "customer"
           (Moment.add_hours (at_issue clk) 1)) in
  if Inputs.trust inputs
  then fetchDB fl devices_create
         (Queries.create_device (Customer.id newCustomer)
            (default "" (Inputs.deviceId inputs)))
  else ret tt.

(** The final callback of the waterfall.  Once [newCustomer] is assigned,
    an error of a later step first issues the delete of that customer
    (without waiting for its outcome) and is then passed on; before that,
    an error is only passed on.  Without an error the token is returned
    with status 201. *)
Definition registerCustomer (fl : Faults) (clk : Instants)
    (new_id token : string) (req : Request) : Flow string :=
  let* inputs := register_validate req in
  run register_check_taken fl inputs in
  let* newCustomer := register_create fl new_id inputs in
  run on_error (register_session fl clk token inputs newCustomer)
        (* clear *)
        (fetchDB_noack fl customers_delete
           (Queries.delete (Customer.id newCustomer))) in
  ret token.

(** *** getCustomerLoginType *)

(* validate data *)
Definition getlogin_validate (req : Request) : Flow Inputs.t :=
  let phone := Js.abs_string (body_phone req) in
  let deviceId := Js.trim <$> x_device_id req in
  if is_phone_number phone
  then ret (Inputs.mk None phone None false deviceId None)
  else throw ValidationError.

(* check if customer exists *)
Definition getlogin_check_exists (fl : Faults) (inputs : Inputs.t)
    : Flow unit :=
  let* rows := fetchDB fl customers_getOneByPhone
                 (Queries.getOneByPhone (Inputs.phone inputs)) in
  if (length rows =? 0)%nat then throw USER_NOT_FOUND else ret tt.

(** [code] is the value of
    [Math.floor(100000 + Math.random() * 900000)]. *)
Definition getlogin_decide (fl : Faults) (clk : Instants) (code : Z)
    (inputs : Inputs.t) : Flow LoginMethods.t :=
  if negb (Js.truthy (Inputs.deviceId inputs))
  then ret (LoginMethods.mk true false)
  else
    let* rows := fetchDB fl devices_getOneByUid
                   (Queries.getOneByUid
                      (default "" (Inputs.deviceId inputs))
                      (Inputs.phone inputs)) in
    if (length rows =? 0)%nat then ret (LoginMethods.mk true false)
    else
      let otpObject :=
        Otp.mk code (Moment.add_minutes (at_issue clk) 2) in
      run hSet fl otpH (Inputs.phone inputs) otpObject in
      ret (LoginMethods.mk false true).

Definition getCustomerLoginType (fl : Faults) (clk : Instants) (code : Z)
    (req : Request) : Flow LoginMethods.t :=
  let* inputs := getlogin_validate req in
  run getlogin_check_exists fl inputs in
  getlogin_decide fl clk code inputs.

(** *** loginCustomer *)

(* validate data *)
Definition login_validate (req : Request) : Flow Inputs.t :=
  let phone := Js.abs_string (body_phone req) in
  let password := Js.trim <$> body_password req in
  let deviceId := Js.trim <$> x_device_id req in
  let trust := default false (body_trust req) in
  let otp := Js.trim <$> body_otp req in
  if is_phone_number phone && Js.truthy deviceId
  then ret (Inputs.mk None phone password trust deviceId otp)
  else throw ValidationError.

(* if customer not exists, return error *)
Definition login_find_customer (fl : Faults) (inputs : Inputs.t)
    : Flow Customer.t :=
  let* rows := fetchDB fl customers_getOneByPhone
                 (Queries.getOneByPhone (Inputs.phone inputs)) in
  match rows with
  | [] => throw USER_NOT_FOUND
  | customer :: _ => ret customer
  end.

(** check if customer is not blocked: the body of the callback of the
    read.  The result is the local [customerStatus]; nothing is written
    back here.  A stored record with [is_blocked] always carries the
    instant of the blocking attempt, the two being assigned together;
    [moment(null)] is an invalid date, before which no instant lies. *)
Definition check_blocked (clk : Instants) (loginObject : option Status.t)
    : Error + Status.t :=
  match loginObject with
  | None => inr Status.empty
  | Some customerStatus =>
      if Status.is_blocked customerStatus then
        let still_blocked :=
          match Status.last_login_attempt customerStatus with
          | Some last =>
              let unblockTime := Moment.add_minutes last 1 in
              (* if block time is not over, return error *)
              if Moment.isBefore (at_block_check clk) unblockTime
              then Some (Moment.diff_seconds unblockTime (at_time_left clk))
              else None
          | None => None
          end in
        match still_blocked with
        | Some timeLeft => inl (USER_BLOCKED timeLeft)
        | None =>
            (* if block time is over, unblock customer *)
            inr (Status.mk None
                   (Status.safe_login_after customerStatus) false)
        end
      else inr customerStatus
  end.

Definition login_check_blocked (fl : Faults) (clk : Instants)
    (inputs : Inputs.t) : Flow Status.t :=
  let* loginObject := hGet fl customer_loginH (Inputs.phone inputs) in
  callback (check_blocked clk loginObject).

(* determine login type *)
Definition login_determine_type (fl : Faults) (inputs : Inputs.t)
    : Flow LoginType :=
  let* rows := fetchDB fl devices_getOneByUid
                 (Queries.getOneByUid
                    (default "" (Inputs.deviceId inputs))
                    (Inputs.phone inputs)) in
  let loginType :=
    if (0 <? length rows)%nat then otp_login else password_login in
  let required :=
    match loginType with
    | password_login => Js.truthy (Inputs.password inputs)
    | otp_login => Js.truthy (Inputs.otp inputs)
    end in
  if required then ret loginType else throw ValidationError.

(* check password or otp *)
Definition login_check_credentials (fl : Faults) (clk : Instants)
    (inputs : Inputs.t) (customer : Customer.t) (loginType : LoginType)
    : Flow bool :=
  match loginType with
  | password_login =>
      ret (compareSync (default "" (Inputs.password inputs))
             (Customer.hashed_password customer))
  | otp_login =>
      let* redisOtp := hGet fl otpH (Customer.phone customer) in
      match redisOtp with
      | None => ret false
      | Some otpObject =>
          if Moment.isAfter (at_otp_expired clk) (Otp.expiresAt otpObject)
          then
            run hDel_noack fl otpH (Customer.phone customer) in
            throw EXPIRED_OTP
          else if bool_decide
                    (Js.parseInt (default "" (Inputs.otp inputs))
                     = Some (Otp.code otpObject))
                  && Moment.isBefore (at_otp_valid clk)
                       (Otp.expiresAt otpObject)
          then
            run hDel_noack fl otpH (Customer.phone customer) in
            ret true
          else ret false
      end
  end.

(** The status a failed attempt leaves in [customerStatus]. *)
Definition failed_attempt_status (clk : Instants)
    (customerStatus : Status.t) : Status.t :=
  let last := Status.last_login_attempt customerStatus in
  let rapid :=
    match last with
    | Some last =>
        Moment.isBefore (at_rapid_check clk)
          (Moment.add_seconds last
             (Status.safe_login_after customerStatus))
    | None => false
    end in
  let customerStatus :=
    if rapid then
      (* if 3 login attempts in one minute *)
      Status.mk last 0 true
    else
      (* calculate time that customer should wait before next login not
         to be blocked *)
      Status.mk last
        match last with
        | Some last =>
            Z.max (60 - Moment.diff_seconds (at_elapsed clk) last) 0
        | None => 0
        end
        (Status.is_blocked customerStatus) in
  Status.mk (Some (at_stamp clk))
    (Status.safe_login_after customerStatus)
    (Status.is_blocked customerStatus).

(* if password is wrong *)
Definition login_record_outcome (fl : Faults) (clk : Instants)
    (customer : Customer.t) (customerStatus : Status.t)
    (isValidCreadentials : bool) (loginType : LoginType) : Flow unit :=
  if negb isValidCreadentials then
    let customerStatus := failed_attempt_status clk customerStatus in
    (* save status *)
    run hSet fl customer_loginH (Customer.phone customer) customerStatus in
    if Status.is_blocked customerStatus
    then throw (USER_BLOCKED 60)
    else throw match loginType with
               | password_login => WRONG_PASSWORD
               | otp_login => WRONG_OTP
               end
  else
    (* reset login attempts if password is correct *)
    hDel_noack fl customer_loginH (Customer.phone customer).

(* trust device if needed *)
Definition login_trust_device (fl : Faults) (inputs : Inputs.t)
    (customer : Customer.t) : Flow unit :=
  if negb (Inputs.trust inputs) then ret tt
  else fetchDB fl devices_create
         (Queries.create_device (Customer.id customer)
            (default "" (Inputs.deviceId inputs))).

(* delete old token *)
Definition login_delete_old_token (fl : Faults) (customer : Customer.t)
    : Flow unit :=
  let* oldToken := hGet fl customersH (Customer.id customer) in
  if Js.truthy oldToken
  then hDel_noack fl tokensH (default "" oldToken)
  else ret tt.

(* save and return new token *)
Definition login_save_token (fl : Faults) (clk : Instants)
    (token : string) (customer : Customer.t) : Flow unit :=
  run hSet fl customersH (Customer.id customer) token in
  hSet fl tokensH token
    (Token.mk (Customer.id customer) "customer"
       (Moment.add_hours (at_issue clk) 1)).

(** [token] is the value of [v4()].  The result [inr token] is the
    response 200 with the token, [inl err] is [next(err)]. *)
Definition loginCustomer (fl : Faults) (clk : Instants) (token : string)
    (req : Request) : Flow string :=
  let* inputs := login_validate req in
  let* customer := login_find_customer fl inputs in
  let* customerStatus := login_check_blocked fl clk inputs in
  let* loginType := login_determine_type fl inputs in
  let* isValidCreadentials :=
    login_check_credentials fl clk inputs customer loginType in
  run login_record_outcome fl clk customer customerStatus
        isValidCreadentials loginType in
  run login_trust_device fl inputs customer in
  run login_delete_old_token fl customer in
  run login_save_token fl clk token customer in
  ret token.

(** *** getOtpFromSMS (FAKE OTP GETTER) *)

(** The body passed to [res.send].  An error of the read is only logged
    and leaves [otp] undefined. *)
Definition getOtpFromSMS (fl : Faults) (req : Request) (w : World)
    : string * World :=
  let phone := params_phone req in
  match hGet fl otpH phone w with
  | (inr (Some otp), w) => (pretty (Otp.code otp), w)
  | (_, w) => ("", w)
  end.

(** *** Parts of the login flow named in the statements below *)

(** The steps of [loginCustomer] up to the choice of the credential: the
    request is well formed, the customer exists, the lockout gate lets the
    request through, and the method is chosen. *)
Definition login_method (fl : Faults) (clk : Instants) (req : Request)
    : Flow LoginType :=
  let* inputs := login_validate req in
  let* customer := login_find_customer fl inputs in
  let* customerStatus := login_check_blocked fl clk inputs in
  login_determine_type fl inputs.

(** The credential check of a request taken by itself, that is, without
    the lockout gate in front of it. *)
Definition credential_check (fl : Faults) (clk : Instants) (req : Request)
    : Flow bool :=
  let* inputs := login_validate req in
  let* customer := login_find_customer fl inputs in
  let* loginType := login_determine_type fl inputs in
  login_check_credentials fl clk inputs customer loginType.

(** The steps of [registerCustomer] up to and including the creation of
    the customer row. *)
Definition register_until_created (fl : Faults) (new_id : string)
    (req : Request) : Flow (Inputs.t * Customer.t) :=
  let* inputs := register_validate req in
  run register_check_taken fl inputs in
  let* newCustomer := register_create fl new_id inputs in
  ret (inputs, newCustomer).

End Controller.

(** The first call to fail among those that follow the creation of the
    customer in a registration: the two token writes, then the
    trusted-device row when the device is to be trusted. *)
Definition later_fault (fl : Faults) (trust : bool) : option string :=
  match fl (HSET Hcustomers) with
  | Some msg => Some msg
  | None =>
      match fl (HSET Htokens) with
      | Some msg => Some msg
      | None => if trust then fl (QUERY devices_create) else None
      end
  end.

(** ** The router (routes/customer.js) *)

Inductive Verb := GET | POST | PUT.

Inductive Endpoint :=
| getCustomerProfile_
| updateCustomer_
| getOtpFromSMS_
| registerCustomer_
| getCustomerLoginType_
| loginCustomer_
| getCustomerPhoto_.

#[global] Instance Endpoint_eq_dec : EqDecision Endpoint.
Proof. solve_decision. Defined.

(** A route: verb, path, and the functions mounted on it in order. *)
Record Route := mkRoute {
  verb : Verb;
  path : string;
  stack : list Endpoint
}.

Definition router : list Route :=
  [ mkRoute GET "/profile" [getCustomerProfile_];
    mkRoute POST "/register" [registerCustomer_];
    mkRoute POST "/getlogin" [getCustomerLoginType_];
    mkRoute POST "/login" [loginCustomer_];
    mkRoute PUT "/profile" [updateCustomer_];
    mkRoute GET "/photo/:file" [getCustomerPhoto_];
    (* FAKE OTP GETTER *)
    mkRoute GET "/otp/recievebysms/:phone" [getOtpFromSMS_] ].

Definition routes_to (e : Endpoint) : list Route :=
  List.filter (fun r => existsb (fun e' => bool_decide (e' = e)) (stack r))
    router.

(** A customers table with every stored hash blanked. *)
Definition without_hash (c : Customer.t) : Customer.t :=
  Customer.mk (Customer.id c) (Customer.name c) (Customer.phone c) ""
    (Customer.image_url c) (Customer.gender c) (Customer.birth_date c)
    (Customer.lang c).

Definition without_hashes (w : World) : World :=
  mkWorld (mkDb (map without_hash (customers_tbl (db w)))
             (devices_tbl (db w)))
          (redis w).

(** The hash field a request's phone number is stored under. *)
Definition phone_key (req : Request) : string :=
  Js.abs_string (body_phone req).

(** The customer registered under a phone number, if any. *)
Definition customer_by_phone (w : World) (phone : string)
    : option Customer.t :=
  head (fst (Queries.getOneByPhone phone (db w))).

(** Whether (deviceId, phone) is a trusted-device association. *)
Definition trusted_device (w : World) (deviceId phone : string) : bool :=
  (0 <? length (fst (Queries.getOneByUid deviceId phone (db w))))%nat.

(** A request that passes the validation of the login handlers. *)
Definition well_formed_login (is_phone_number : string -> bool)
    (req : Request) : Prop :=
  is_phone_number (phone_key req) = true /\
  Js.truthy (Js.trim <$> x_device_id req) = true.

(** The request read at [clk] is over when the one read at [clk'] starts. *)
Definition before (clk clk' : Instants) : Prop :=
  at_issue clk <= at_verify clk'.

(** The reads and writes of the lockout status go through. *)
Definition lockout_store_up (fl : Faults) : Prop :=
  fl (HGET Hcustomer_login) = None /\ fl (HSET Hcustomer_login) = None.

(** The answer to a failed credential check that does not block. *)
Definition Failed (r : Error + string) : Prop :=
  r = inl WRONG_PASSWORD \/ r = inl WRONG_OTP.

(** Every token record is the current token of its identity; hence no
    identity has two token records.  No record sits under the empty string,
    which the handlers read as the absence of a token. *)
Definition session_inv (C : gmap string string) (T : gmap string Token.t)
    : Prop :=
  forall token rec,
    T !! token = Some rec ->
    token <> "" /\ C !! Token.id rec = Some token.

Definition single_session (r : Redis) : Prop :=
  session_inv (customers r) (tokens r).

(** The two hashes of the session manager. *)
Definition sessions (w : World) : gmap string string * gmap string Token.t :=
  (customers (redis w), tokens (redis w)).

(** ** Further parts of the flows named in the statements *)

(** The steps of [loginCustomer] from the credential check on, for a
    request that the lockout gate has let through. *)
Definition login_after_gate (compareSync : string -> string -> bool)
    (fl : Faults) (clk : Instants) (token : string) (inputs : Inputs.t)
    (customer : Customer.t) (customerStatus : Status.t)
    (loginType : LoginType) : Flow string :=
  let* isValidCreadentials :=
    login_check_credentials compareSync fl clk inputs customer loginType in
  run login_record_outcome fl clk customer customerStatus
        isValidCreadentials loginType in
  run login_trust_device fl inputs customer in
  run login_delete_old_token fl customer in
  run login_save_token fl clk token customer in
  ret token.

(** What [login_validate] makes of a request. *)
Definition login_inputs (req : Request) : Inputs.t :=
  Inputs.mk None (phone_key req) (Js.trim <$> body_password req)
    (default false (body_trust req)) (Js.trim <$> x_device_id req)
    (Js.trim <$> body_otp req).

(** A lockout record as the login flow writes it, at or before [now]: the
    instant of the attempt is there and not in the future, the cool-down is
    between 0 and 60 seconds, and a blocking record has no cool-down. *)
Definition status_ok (now : Z) (st : Status.t) : Prop :=
  (exists last, Status.last_login_attempt st = Some last /\ last <= now) /\
  0 <= Status.safe_login_after st <= 60 /\
  (Status.is_blocked st = true -> Status.safe_login_after st = 0).

Definition lockout_ok (now : Z) (w : World) : Prop :=
  forall phone st,
    customer_login (redis w) !! phone = Some st -> status_ok now st.


(** The worlds [w'] that differ from [w] at most in the session hashes, in
    added trusted-device rows, and in the one-time code and the lockout
    record of [phone]. *)
Definition own_records_only (phone : string) (w w' : World) : Prop :=
  customers_tbl (db w') = customers_tbl (db w) /\
  (exists more, devices_tbl (db w') = (devices_tbl (db w) ++ more)%list) /\
  (forall q, q <> phone -> otp (redis w') !! q = otp (redis w) !! q) /\
  (forall q, q <> phone ->
     customer_login (redis w') !! q = customer_login (redis w) !! q).


(** Strings of decimal digits, as [Number.prototype.toString] writes a
    non-negative integer. *)
Definition is_digit (a : ascii) : bool :=
  match Js.digit 10 a with Some _ => true | None => false end.

Fixpoint all_digits (s : string) : bool :=
  match s with
  | String a r => is_digit a && all_digits r
  | EmptyString => true
  end.


(** What [register_validate] makes of a request, and the row the
    registration inserts for it. *)
Definition register_inputs (req : Request) : Inputs.t :=
  Inputs.mk (Js.trim <$> body_name req) (phone_key req)
    (Js.trim <$> body_password req) (default false (body_trust req))
    (Js.trim <$> x_device_id req) None.

Definition new_customer_row (hashSync : string -> Z -> string)
    (new_id : string) (req : Request) : Customer.t :=
  Customer.mk new_id (default "" (Js.trim <$> body_name req))
    (phone_key req)
    (hashSync (default "" (Js.trim <$> body_password req)) 10)
    None None None None.


(** ** Profile updates: updateCustomer and updateCustomerLang *)

(** The stores of the profile handlers: the world of the other handlers
    and the names of the files held by the file storage. *)
Record Store := mkStore { world : World; assets : gset string }.

(** The calls of the profile handlers that the other handlers do not make:
    the two update queries and the file storage.  [None] and [false] mean
    that the call goes through. *)
Record ProfileFaults := mkProfileFaults {
  on_update : option string;
  on_updateLang : option string;
  on_uploadImage : option string;
  on_deleteFile : bool
}.

Definition no_profile_faults : ProfileFaults :=
  mkProfileFaults None None None false.

(** The fields of a profile-update request beyond name and password, and
    the language of a language update. *)
Record ProfileBody := mkProfileBody {
  body_deleteImage : option bool;
  body_gender : option string;
  body_birthDate : option string;
  files_avatar : option string;
  body_lang : option string
}.

Module ProfileInputs.
(** [inputs = validData] of updateCustomer. *)
Record t := mk {
  name : option string;
  password : option string;
  deleteImage : bool;
  gender : option string;
  birthDate : option string
}.
End ProfileInputs.

(** The waterfall over the larger store. *)
Definition Stage (A : Type) : Type := Store -> (Error + A) * Store.

Definition done {A} (a : A) : Stage A := fun s => (inr a, s).

Definition raise {A} (e : Error) : Stage A := fun s => (inl e, s).

Definition and_then {A B} (m : Stage A) (k : A -> Stage B) : Stage B :=
  fun s =>
    match m s with
    | (inr a, s') => k a s'
    | (inl e, s') => (inl e, s')
    end.

(** A step of the other handlers run on the world part. *)
Definition on_world {A} (m : Flow A) : Stage A :=
  fun s =>
    let '(r, w) := m (world s) in (r, mkStore w (assets s)).

Notation "'let+' x := m 'in' k" := (and_then m (fun x => k))
  (at level 10, x name, m at level 100, k at level 200, only parsing).
Notation "'run+' m 'in' k" := (and_then m (fun _ => k))
  (at level 10, m at level 100, k at level 200, only parsing).

(** Modelled from the spec: [fileStorageS3.uploadImage(file, folder, cb)]
    of the absent storage module stages the new asset and hands its file
    name, [newFileName], to the callback, or an error. *)
Definition uploadImage (fx : ProfileFaults) (newFileName : string)
    : Stage string :=
  fun s =>
    match on_uploadImage fx with
    | Some msg => (inl (StoreError msg), s)
    | None => (inr newFileName,
               mkStore (world s) ({[ newFileName ]} ∪ assets s))
    end.

(** Modelled from the spec: [fileStorageS3.delete(fileName)] of the absent
    storage module removes an asset; the controller calls it without a
    callback. *)
Definition deleteFile (fx : ProfileFaults) (fileName : string) : Stage unit :=
  fun s =>
    if on_deleteFile fx then (inr tt, s)
    else (inr tt, mkStore (world s) (assets s ∖ {[ fileName ]})).

(** Modelled from the spec: update(profile fields) of the repository sets
    name, password hash, image, gender and birth date of the row with the
    given identifier. *)
Definition update_row (newName hashedPassword : string)
    (newImageUrl newGender newBirthDate : option string) (id : string)
    (c : Customer.t) : Customer.t :=
  if String.eqb (Customer.id c) id
  then Customer.mk (Customer.id c) newName (Customer.phone c) hashedPassword
         newImageUrl newGender newBirthDate (Customer.lang c)
  else c.

(** Modelled from the spec: the language update of the repository sets the
    preferred language of the row with the given identifier. *)
Definition updateLang_row (lang id : string) (c : Customer.t) : Customer.t :=
  if String.eqb (Customer.id c) id
  then Customer.mk (Customer.id c) (Customer.name c) (Customer.phone c)
         (Customer.hashed_password c) (Customer.image_url c)
         (Customer.gender c) (Customer.birth_date c) (Some lang)
  else c.

(** Modelled from the spec: an update query of the absent postgres module,
    with its error or its completion handed to the callback. *)
Definition update_query (failure : option string)
    (f : Customer.t -> Customer.t) : Stage unit :=
  fun s =>
    match failure with
    | Some msg => (inl (StoreError msg), s)
    | None =>
        (inr tt,
         mkStore (mkWorld (mkDb (map f (customers_tbl (db (world s))))
                             (devices_tbl (db (world s))))
                    (redis (world s)))
                 (assets s))
    end.

(** [a || b] on strings that may be absent. *)
Definition or_else (a b : option string) : option string :=
  if Js.truthy a then a else b.

Section ProfileController.

(** bcrypt, the custom LIVR rules and moment's date conversion are
    libraries outside the controller. *)
Variable hashSync : string -> Z -> string.
Variable alphanumeric : string -> bool.
Variable past_date : string -> bool.
Variable toISOString : string -> string.

(** A rule list on an optional field is checked when the field has a
    value. *)
Definition when_given (o : option string) (rule : string -> bool) : bool :=
  if Js.truthy o then rule (default "" o) else true.

(* validate data *)
Definition update_validate (req : Request) (body : ProfileBody)
    : Stage ProfileInputs.t :=
  let name := Js.trim <$> body_name req in
  let password := Js.trim <$> body_password req in
  let deleteImage := default false (body_deleteImage body) in
  let gender := Js.trim <$> body_gender body in
  let birthDate := Js.trim <$> body_birthDate body in
  if when_given name (fun n => min_length 3 n && max_length 64 n)
     && when_given password (fun p => min_length 6 p && alphanumeric p)
     && when_given gender (fun g => String.eqb g "M" || String.eqb g "F")
     && when_given birthDate past_date
  then done (ProfileInputs.mk name password deleteImage gender birthDate)
  else raise ValidationError.

(* get customer *)
Definition update_get_customer (fl : Faults) (customerId : string)
    : Stage Customer.t :=
  let+ rows := on_world (fetchDB fl customers_getOneById
                           (Queries.getOneById customerId)) in
  match rows with
  | [] => raise USER_NOT_FOUND
  | customer :: _ => done customer
  end.

(** save new photo if attached.  The result is [newImage], absent when no
    file came with the request. *)
Definition update_save_photo (fx : ProfileFaults) (newFileName : string)
    (body : ProfileBody) : Stage (option string) :=
  match files_avatar body with
  | None => done None
  | Some _ =>
      let+ newImage := uploadImage fx newFileName in
      done (Some newImage)
  end.

(** update customer, then delete old image if needed.  [image_url] is the
    field of the local [customer] after [deleteImage] was applied. *)
Definition update_commit (fx : ProfileFaults) (inputs : ProfileInputs.t)
    (customer : Customer.t) (newImage : option string) : Stage unit :=
  let oldImage := Customer.image_url customer in
  let image_url :=
    if ProfileInputs.deleteImage inputs then None else oldImage in
  let newName :=
    default "" (or_else (ProfileInputs.name inputs)
                  (Some (Customer.name customer))) in
  let hashedPassword :=
    if Js.truthy (ProfileInputs.password inputs)
    then hashSync (default "" (ProfileInputs.password inputs)) 10
    else Customer.hashed_password customer in
  let newGender :=
    or_else (ProfileInputs.gender inputs) (Customer.gender customer) in
  let newBirthDate :=
    if Js.truthy (ProfileInputs.birthDate inputs)
    then Some (toISOString (default "" (ProfileInputs.birthDate inputs)))
    else Customer.birth_date customer in
  let newImageUrl := or_else newImage image_url in
  run+ update_query (on_update fx)
         (update_row newName hashedPassword newImageUrl newGender
            newBirthDate (Customer.id customer)) in
  let imageChanged := negb (bool_decide (newImageUrl = oldImage)) in
  (* delete old image if needed *)
  if negb (Js.truthy oldImage) || negb imageChanged then done tt
  else deleteFile fx (default "" oldImage).

(** [newFileName] is the name the storage gives the uploaded file.  In the
    final callback an error arriving after the upload first issues the
    delete of the new file. *)
Definition updateCustomer (fl : Faults) (fx : ProfileFaults)
    (clk : Instants) (newFileName : string) (req : Request)
    (body : ProfileBody) : Stage unit :=
  (* verify customer *)
  let+ customerId := on_world (verifyToken fl clk req "customer") in
  let+ inputs := update_validate req body in
  let+ customer := update_get_customer fl customerId in
  let+ newImage := update_save_photo fx newFileName body in
  fun s =>
    match update_commit fx inputs customer newImage s with
    | (inl err, s') =>
        (* clear *)
        (inl err,
         if Js.truthy newImage
         then snd (deleteFile fx (default "" newImage) s')
         else s')
    | (inr _, s') => (inr tt, s')
    end.

(* validate data *)
Definition lang_validate (body : ProfileBody) : Stage string :=
  let lang := Js.trim <$> body_lang body in
  if Js.truthy lang
     && (String.eqb (default "" lang) "en"
         || String.eqb (default "" lang) "ru"
         || String.eqb (default "" lang) "uz")
  then done (default "" lang)
  else raise ValidationError.

Definition updateCustomerLang (fl : Faults) (fx : ProfileFaults)
    (clk : Instants) (req : Request) (body : ProfileBody) : Stage unit :=
  (* verify customer *)
  let+ customerId := on_world (verifyToken fl clk req "customer") in
  let+ lang := lang_validate body in
  (* update customer *)
  update_query (on_updateLang fx) (updateLang_row lang customerId).

End ProfileController.

(** The rows of a customer, by identifier. *)
Definition customer_by_id (w : World) (id : string) : option Customer.t :=
  head (fst (Queries.getOneById id (db w))).

(** The identity a request's bearer token stands for, if the token is a
    valid customer token. *)
Definition token_identity (fl : Faults) (clk : Instants) (req : Request)
    (w : World) : Error + string :=
  fst (verifyToken fl clk req "customer" w).


(** The row [updateCustomer] writes for a customer: the fields of the
    request where they are given, those of the row otherwise. *)
Definition updated_row (hashSync : string -> Z -> string)
    (toISOString : string -> string) (req : Request) (body : ProfileBody)
    (newFileName : string) (c : Customer.t) : Customer.t :=
  let name := Js.trim <$> body_name req in
  let password := Js.trim <$> body_password req in
  let gender := Js.trim <$> body_gender body in
  let birthDate := Js.trim <$> body_birthDate body in
  Customer.mk (Customer.id c)
    (if Js.truthy name then default "" name else Customer.name c)
    (Customer.phone c)
    (if Js.truthy password then hashSync (default "" password) 10
     else Customer.hashed_password c)
    (match files_avatar body with
     | Some _ => Some newFileName
     | None => if default false (body_deleteImage body) then None
               else Customer.image_url c
     end)
    (if Js.truthy gender then gender else Customer.gender c)
    (if Js.truthy birthDate then Some (toISOString (default "" birthDate))
     else Customer.birth_date c)
    (Customer.lang c).


(** ** The image storage (utils/imageStorage.js) *)

Module ImageStorage.

(** What a path of the file system holds. *)
Inductive Entry := Dir | File.

#[global] Instance Entry_eq_dec : EqDecision Entry.
Proof. solve_decision. Defined.

(** The file system, by path. *)
Abbreviation Fs := (gmap string Entry).

(** Which calls of [fs] and of the uploaded file fail, with the message of
    their error. *)
Record FsFaults := mkFsFaults {
  on_mkdirSync : option string;
  on_mv : option string;
  on_access : bool;
  on_unlink : option string
}.

Definition no_fs_faults : FsFaults := mkFsFaults None None false None.

Inductive StorageError :=
| FILE_EXTENSION_ERROR
| FILE_UPLOAD_ERROR (message : string)
| FILE_READER_ERROR (message : string)
| FILE_DELETE_ERROR (message : string)
| FILE_NOT_FOUND.

(** [fs.existsSync(path)] *)
Definition existsSync (fs : Fs) (p : string) : bool :=
  bool_decide (is_Some (fs !! p)).

(** [fs.mkdirSync(path)]: throws, here [Some message], or makes the
    directory. *)
Definition mkdirSync (fx : FsFaults) (p : string) (fs : Fs)
    : option string * Fs :=
  match on_mkdirSync fx with
  | Some message => (Some message, fs)
  | None => if existsSync fs p then (Some "EEXIST", fs)
            else (None, <[p := Dir]> fs)
  end.

(** [image.mv(path, cb)]: the uploaded file is moved to [path], replacing a
    file there. *)
Definition mv (fx : FsFaults) (p : string) (fs : Fs) : option string * Fs :=
  match on_mv fx with
  | Some message => (Some message, fs)
  | None => if bool_decide (fs !! p = Some Dir) then (Some "EISDIR", fs)
            else (None, <[p := File]> fs)
  end.

(** [fs.access(path, fs.constants.F_OK, cb)]: [true] when [cb] gets an
    error. *)
Definition access (fx : FsFaults) (p : string) (fs : Fs) : bool :=
  on_access fx || negb (existsSync fs p).

(** [fs.unlink(path, cb)] *)
Definition unlink (fx : FsFaults) (p : string) (fs : Fs)
    : option string * Fs :=
  match on_unlink fx with
  | Some message => (Some message, fs)
  | None => match fs !! p with
            | Some File => (None, base.delete p fs)
            | Some Dir => (Some "EISDIR", fs)
            | None => (Some "ENOENT", fs)
            end
  end.

(** [s.split(sep)] for a separator of one character. *)
Fixpoint split (sep : ascii) (s : string) : list string :=
  match s with
  | EmptyString => [""]
  | String c r =>
      if Ascii.eqb c sep then "" :: split sep r
      else match split sep r with
           | x :: xs => String c x :: xs
           | [] => [String c ""]
           end
  end.

(** [array.includes(x)], [x] possibly [undefined]. *)
Definition includes (l : list string) (x : option string) : bool :=
  match x with
  | Some x => existsb (String.eqb x) l
  | None => false
  end.

Definition allowedExtensions : list string := ["jpg"; "jpeg"; "png"].

(** A value in a template literal. *)
Definition template (o : option string) : string := default "undefined" o.

Section Storage.

(** [path.join], the environment and the working directory. *)
Variable join : list string -> string.
Variable IMAGE_STORAGE_DIR API_URL : option string.
Variable cwd : string.

Definition uploadPath : string :=
  if Js.truthy IMAGE_STORAGE_DIR then default "" IMAGE_STORAGE_DIR
  else join [cwd; "uploads"].

(** The constructor; [Some message] is the exception it leaves with. *)
Definition constructor (fx : FsFaults) (fs : Fs) : option string * Fs :=
  if negb (existsSync fs uploadPath) then mkdirSync fx uploadPath fs
  else (None, fs).

Definition upload (fx : FsFaults) (image_name fileName : string)
    (subFolder : option string) (fs : Fs) : (StorageError + string) * Fs :=
  (* create subfolder if not exists *)
  let subFolder := default "" subFolder in
  let subFolderPath := join [uploadPath; subFolder] in
  match (if negb (existsSync fs subFolderPath)
         then mkdirSync fx subFolderPath fs else (None, fs)) with
  | (Some message, fs) => (inl (FILE_READER_ERROR message), fs)
  | (None, fs) =>
      let ext := last (split "." image_name) in
      if negb (includes allowedExtensions ext)
      then (inl FILE_EXTENSION_ERROR, fs)
      else
        let newFileName := fileName ++ "." ++ template ext in
        let uploadPath := join [uploadPath; subFolder; newFileName] in
        match mv fx uploadPath fs with
        | (Some message, fs) => (inl (FILE_UPLOAD_ERROR message), fs)
        | (None, fs) => (inr newFileName, fs)
        end
  end.

Definition getPathIfExists (fx : FsFaults) (fileName : string)
    (subFolder : option string) (fs : Fs) : StorageError + string :=
  let subFolder := default "" subFolder in
  let filePath := join [uploadPath; subFolder; fileName] in
  (* check if file exists *)
  if access fx filePath fs then inl FILE_NOT_FOUND else inr filePath.

(** [delete]; the result is the error handed to [cb], if any. *)
Definition delete (fx : FsFaults) (fileName : string)
    (subFolder : option string) (fs : Fs) : option StorageError * Fs :=
  let subFolder := default "" subFolder in
  match getPathIfExists fx fileName (Some subFolder) fs with
  | inl _ => (* skip if file already deleted *) (None, fs)
  | inr filePath =>
      match unlink fx filePath fs with
      | (Some message, fs) => (Some (FILE_DELETE_ERROR message), fs)
      | (None, fs) => (None, fs)
      end
  end.

Definition getImageUrl (fileName : option string) : option string :=
  if Js.truthy fileName
  then Some (template API_URL ++ "/customer/photo/" ++ template fileName)
  else None.

End Storage.

End ImageStorage.


(** ** Stand-ins for the libraries, and a small world to run the handlers *)

Module Demo.

Definition is_phone_number (s : string) : bool :=
  (String.length s =? 12)%nat.

Fixpoint alphanumeric (s : string) : bool :=
  match s with
  | String a r => bool_decide (is_Some (Js.digit 36 a)) && alphanumeric r
  | EmptyString => true
  end.

Definition hashSync (pw : string) (rounds : Z) : string := "$2b$" ++ pw.

Definition compareSync (pw hash : string) : bool :=
  String.eqb ("$2b$" ++ pw) hash.

Definition getFileUrl (file : option string) : option string :=
  (fun f => "https://cdn.example/" ++ f) <$> file.

Definition alice : Customer.t :=
  Customer.mk "c-1" "Alice" "998901234567" (hashSync "abc123" 10)
    (Some "alice.png") None None (Some "uz").

Definition world : World :=
  mkWorld (mkDb [alice] [Device.mk "c-1" "phone-X"])
          (mkRedis ∅ ∅ ∅ ∅).

(** A login from the untrusted device [laptop-Y] with a wrong password. *)
Definition wrong_password : Request :=
  mkRequest None 998901234567 (Some "nope00") None None
    (Some "laptop-Y") None "".

Definition right_password : Request :=
  mkRequest None 998901234567 (Some "abc123") None None
    (Some "laptop-Y") None "".

(** A login from the trusted device [phone-X] with a one-time code. *)
Definition with_otp (code : string) : Request :=
  mkRequest None 998901234567 None None (Some code)
    (Some "phone-X") None "".

(** The login-method query from the trusted device. *)
Definition ask_method : Request :=
  mkRequest None 998901234567 None None None (Some "phone-X") None "".

Definition register_bob (trust : bool) : Request :=
  mkRequest (Some "Bob") 998907654321 (Some "secret1") (Some trust) None
    (Some "tablet-Z") None "".

(** A profile read with a bearer token. *)
Definition read_profile (token : string) : Request :=
  mkRequest None 0 None None None None (Some token) "".

(** Alice blocked by an attempt at 60.999 s. *)
Definition blocked_world : World :=
  mkWorld (db world)
    (mkRedis ∅ ∅ ∅
       {[ "998901234567" := Status.mk (Some 60999) 0 true ]}).

(** A code for Alice that expires at 120 s. *)
Definition world_with_otp : World :=
  mkWorld (db world)
    (mkRedis ∅ ∅ {[ "998901234567" := Otp.mk 123456 120000 ]} ∅).

(** Alice holding the session token [old-token]. *)
Definition world_with_session : World :=
  mkWorld (db world)
    (mkRedis {[ "c-1" := "old-token" ]}
       {[ "old-token" := Token.mk "c-1" "customer" 5000000 ]} ∅ ∅).

(** The second token write fails. *)
Definition tokens_down : Faults :=
  fun op =>
    match op with
    | HSET Htokens => Some "ECONNRESET"
    | _ => None
    end.

(** Stand-ins for the date check and [toISOString] of the profile update. *)
Definition past_date (s : string) : bool := String.eqb s "1990-01-31".

Definition toISOString (s : string) : string := s ++ "T00:00:00.000Z".

(** Alice's session, with her image in the storage. *)
Definition store : Store := mkStore world_with_session {[ "alice.png" ]}.

(** A profile update that changes the name. *)
Definition rename_alice (token : string) : Request :=
  mkRequest (Some "Alicia") 0 None None None None (Some token) "".

Definition new_avatar : ProfileBody :=
  mkProfileBody None (Some "F") None (Some "upload.png") None.

Definition set_lang (lang : string) : ProfileBody :=
  mkProfileBody None None None None (Some lang).

(** A login without password or code from the untrusted device. *)
Definition no_credential : Request :=
  mkRequest None 998901234567 None None None (Some "laptop-Y") None "".

(** A login with the right password that trusts the device. *)
Definition trusting_login : Request :=
  mkRequest None 998901234567 (Some "abc123") (Some true) None
    (Some "laptop-Y") None "".

(** Bob's login after his registration. *)
Definition login_bob : Request :=
  mkRequest None 998907654321 (Some "secret1") None None
    (Some "laptop-Y") None "".

(** The fake getter asked for Alice's code. *)
Definition read_sms : Request :=
  mkRequest None 0 None None None None None "998901234567".

(** Alice after one failed attempt at 1 s. *)
Definition warned_world : World :=
  mkWorld (db world)
    (mkRedis ∅ ∅ ∅
       {[ "998901234567" := Status.mk (Some 1000) 0 false ]}).

(** [path.join] on plain segments. *)
Definition join (l : list string) : string :=
  String.concat "/" (List.filter (fun s => negb (String.eqb s "")) l).

Definition disk : ImageStorage.Fs := {[ "/srv/uploads" := ImageStorage.Dir ]}.

End Demo.

(** * Properties *)

Section Properties.

Context (compareSync : string -> string -> bool)
        (hashSync : string -> Z -> string)
        (is_phone_number alphanumeric : string -> bool)
        (getFileUrl : option string -> option string).

Local Abbreviation login := (loginCustomer compareSync is_phone_number).
Local Abbreviation method := (login_method is_phone_number).
Local Abbreviation check := (credential_check compareSync is_phone_number).
Local Abbreviation register :=
  (registerCustomer hashSync is_phone_number alphanumeric).
Local Abbreviation getlogin := (getCustomerLoginType is_phone_number).
Local Abbreviation profile := (getCustomerProfile getFileUrl).
Local Abbreviation well_formed := (well_formed_login is_phone_number).

(** ** The monad *)

Lemma bind_inr {A B} (m : Flow A) (k : A -> Flow B) w a w' :
  m w = (inr a, w') -> bind m k w = k a w'.
Proof. intros H. unfold bind. now rewrite H. Qed.

Lemma bind_inl {A B} (m : Flow A) (k : A -> Flow B) w e w' :
  m w = (inl e, w') -> bind m k w = (inl e, w').
Proof. intros H. unfold bind. now rewrite H. Qed.

Lemma bind_inr_inv {A B} (m : Flow A) (k : A -> Flow B) w b w'' :
  bind m k w = (inr b, w'') ->
  exists a w', m w = (inr a, w') /\ k a w' = (inr b, w'').
Proof.
  unfold bind. destruct (m w) as [[e|a] w']; [discriminate|]. eauto.
Qed.

(** ** The stores *)

Lemma getOneByPhone_phone p d c :
  In c (fst (Queries.getOneByPhone p d)) -> Customer.phone c = p.
Proof.
  cbn. rewrite filter_In. intros [_ H]. now apply String.eqb_eq.
Qed.

Lemma customer_by_phone_phone w p c :
  customer_by_phone w p = Some c -> Customer.phone c = p.
Proof.
  unfold customer_by_phone. intros H. apply (getOneByPhone_phone p (db w)).
  destruct (fst (Queries.getOneByPhone p (db w))); [discriminate|].
  injection H as ->. now left.
Qed.

(** ** Steps of the login flow *)

Lemma login_validate_ok req w :
  well_formed req ->
  login_validate is_phone_number req w
  = (inr (Inputs.mk None (phone_key req) (Js.trim <$> body_password req)
            (default false (body_trust req)) (Js.trim <$> x_device_id req)
            (Js.trim <$> body_otp req)), w).
Proof.
  intros [Hp Hd]. unfold login_validate. fold (phone_key req).
  now rewrite Hp, Hd.
Qed.

Lemma login_validate_inv req w inputs w' :
  login_validate is_phone_number req w = (inr inputs, w') ->
  well_formed req /\ w' = w /\
  inputs = Inputs.mk None (phone_key req) (Js.trim <$> body_password req)
             (default false (body_trust req)) (Js.trim <$> x_device_id req)
             (Js.trim <$> body_otp req).
Proof.
  unfold login_validate, well_formed_login. fold (phone_key req).
  destruct (is_phone_number (phone_key req)); [|discriminate].
  destruct (Js.truthy (Js.trim <$> x_device_id req)); [|discriminate].
  cbn. intros [= <- <-]. auto.
Qed.

Lemma login_find_customer_ok fl inputs w c :
  fl (QUERY customers_getOneByPhone) = None ->
  customer_by_phone w (Inputs.phone inputs) = Some c ->
  login_find_customer fl inputs w = (inr c, w).
Proof.
  intros Hfl Hc. unfold login_find_customer, bind, fetchDB.
  rewrite Hfl. unfold customer_by_phone in Hc. cbn in *.
  destruct (List.filter _ _); [discriminate|]. injection Hc as ->.
  now destruct w.
Qed.

Lemma login_find_customer_inv fl inputs w c w' :
  login_find_customer fl inputs w = (inr c, w') ->
  w' = w /\ customer_by_phone w (Inputs.phone inputs) = Some c.
Proof.
  unfold login_find_customer, bind, fetchDB, customer_by_phone.
  destruct (fl _); [discriminate|]. cbn.
  destruct (List.filter _ _); [discriminate|].
  intros [= <- <-]. now destruct w.
Qed.

Lemma login_check_blocked_eq fl clk inputs w :
  fl (HGET Hcustomer_login) = None ->
  login_check_blocked fl clk inputs w
  = (check_blocked clk (customer_login (redis w) !! Inputs.phone inputs),
     w).
Proof.
  intros Hfl. unfold login_check_blocked, bind, hGet. cbn. now rewrite Hfl.
Qed.

Lemma login_determine_type_ro fl inputs w :
  snd (login_determine_type fl inputs w) = w.
Proof.
  unfold login_determine_type, bind, fetchDB.
  destruct (fl _); [reflexivity|]. cbn.
  destruct w. now repeat case_match.
Qed.

Lemma login_determine_type_inv fl inputs w ty w' :
  login_determine_type fl inputs w = (inr ty, w') ->
  w' = w /\
  fl (QUERY devices_getOneByUid) = None /\
  ty = (if trusted_device w (default "" (Inputs.deviceId inputs))
             (Inputs.phone inputs)
        then otp_login else password_login) /\
  match ty with
  | password_login => Js.truthy (Inputs.password inputs) = true
  | otp_login => Js.truthy (Inputs.otp inputs) = true
  end.
Proof.
  intros H. pose proof (login_determine_type_ro fl inputs w) as Hro.
  rewrite H in Hro. cbn in Hro. subst w'. split; [reflexivity|].
  revert H. unfold login_determine_type, bind, fetchDB, trusted_device.
  destruct (fl _); [discriminate|]. cbn -[Nat.ltb].
  destruct (0 <? _)%nat; cbn.
  - destruct (Js.truthy (Inputs.otp inputs)) eqn:E; [|discriminate].
    intros [= <-]. auto.
  - destruct (Js.truthy (Inputs.password inputs)) eqn:E; [|discriminate].
    intros [= <-]. auto.
Qed.

Lemma login_determine_type_ok fl inputs w :
  fl (QUERY devices_getOneByUid) = None ->
  let ty := if trusted_device w (default "" (Inputs.deviceId inputs))
                 (Inputs.phone inputs)
            then otp_login else password_login in
  match ty with
  | password_login => Js.truthy (Inputs.password inputs) = true
  | otp_login => Js.truthy (Inputs.otp inputs) = true
  end ->
  login_determine_type fl inputs w = (inr ty, w).
Proof.
  intros Hfl. unfold login_determine_type, bind, fetchDB, trusted_device.
  rewrite Hfl. destruct w as [d r]; cbn -[Nat.ltb].
  destruct (0 <? _)%nat; cbn; intros ->; reflexivity.
Qed.

(** ** The lockout gate *)

(** C2.  While the customer_login record of a phone number has
    is_blocked set and less than one minute has passed since its
    last_login_attempt, a well-formed login request for that number is
    answered USER_BLOCKED with the seconds left, whatever password or
    one-time code it carries and whatever bcrypt would say about them; and
    no store is changed, so the status record stays as it was. *)
Theorem blocked_login_is_rejected fl clk token req w c st last :
  well_formed req ->
  fl (QUERY customers_getOneByPhone) = None ->
  fl (HGET Hcustomer_login) = None ->
  customer_by_phone w (phone_key req) = Some c ->
  customer_login (redis w) !! phone_key req = Some st ->
  Status.is_blocked st = true ->
  Status.last_login_attempt st = Some last ->
  at_block_check clk < last + 60000 ->
  login fl clk token req w
  = (inl (USER_BLOCKED (Z.quot (last + 60000 - at_time_left clk) 1000)), w).
Proof.
  intros Hwf Hq Hg Hc Hst Hb Hl Hlt.
  unfold loginCustomer.
  rewrite (bind_inr _ _ _ _ _ (login_validate_ok req w Hwf)).
  erewrite bind_inr by (apply login_find_customer_ok; eassumption).
  apply bind_inl. rewrite login_check_blocked_eq by assumption. cbn.
  rewrite Hst. cbn. rewrite Hb, Hl.
  unfold Moment.isBefore, Moment.add_minutes, Moment.diff_seconds.
  replace (last + 1 * 60000) with (last + 60000) by lia.
  now rewrite (proj2 (Z.ltb_lt _ _) Hlt).
Qed.

Lemma login_check_credentials_false fl clk inputs c ty w w' :
  login_check_credentials compareSync fl clk inputs c ty w = (inr false, w') ->
  w' = w.
Proof.
  unfold login_check_credentials, bind, hGet, hDel_noack, ret, throw.
  destruct ty; [now intros [= _ <-]|].
  destruct (fl (HGET _)); [discriminate|].
  destruct (_ !! _) as [o|]; [|now intros [= <-]].
  destruct (Moment.isAfter _ _).
  - destruct (fl (HDEL _)); discriminate.
  - destruct (_ && _).
    + destruct (fl (HDEL _)); discriminate.
    + now intros [= <-].
Qed.

(** A request whose credential check answers [false] is well formed, is for
    a registered phone number, and its check changes no store. *)
Lemma credential_check_false_inv fl clk req w :
  fst (check fl clk req w) = inr false ->
  exists inputs c ty,
    login_validate is_phone_number req w = (inr inputs, w) /\
    Inputs.phone inputs = phone_key req /\
    login_find_customer fl inputs w = (inr c, w) /\
    Customer.phone c = phone_key req /\
    login_determine_type fl inputs w = (inr ty, w) /\
    login_check_credentials compareSync fl clk inputs c ty w = (inr false, w).
Proof.
  destruct (check fl clk req w) as [r w4] eqn:E. cbn. intros ->.
  unfold credential_check in E.
  apply bind_inr_inv in E as (inputs & w1 & E1 & E).
  apply bind_inr_inv in E as (c & w2 & E2 & E).
  apply bind_inr_inv in E as (ty & w3 & E3 & E).
  destruct (login_validate_inv _ _ _ _ E1) as (_ & -> & Hi).
  destruct (login_find_customer_inv _ _ _ _ _ E2) as (-> & Hc).
  destruct (login_determine_type_inv _ _ _ _ _ E3) as (-> & _).
  pose proof (login_check_credentials_false _ _ _ _ _ _ _ E) as ->.
  exists inputs, c, ty. repeat split; try assumption.
  - now subst inputs.
  - apply customer_by_phone_phone in Hc. now subst inputs.
Qed.

Lemma login_record_outcome_failed fl clk c st ty w :
  fl (HSET Hcustomer_login) = None ->
  let st' := failed_attempt_status clk st in
  login_record_outcome fl clk c st false ty w
  = (inl (if Status.is_blocked st' then USER_BLOCKED 60
          else match ty with
               | password_login => WRONG_PASSWORD
               | otp_login => WRONG_OTP
               end),
     update_hash customer_loginH (insert (Customer.phone c) st') w).
Proof.
  intros Hs st'. unfold login_record_outcome, bind, hSet.
  cbn [negb h_name customer_loginH]. rewrite Hs. fold st'.
  now destruct (Status.is_blocked st').
Qed.

(** What a login request with a failing credential does, from the status
    the lockout gate lets through. *)
Lemma login_failed_attempt fl clk token req w st :
  fst (check fl clk req w) = inr false ->
  lockout_store_up fl ->
  check_blocked clk (customer_login (redis w) !! phone_key req) = inr st ->
  let st' := failed_attempt_status clk st in
  snd (login fl clk token req w)
  = update_hash customer_loginH (insert (phone_key req) st') w /\
  if Status.is_blocked st'
  then fst (login fl clk token req w) = inl (USER_BLOCKED 60)
  else Failed (fst (login fl clk token req w)).
Proof.
  intros Hch [Hg Hs] Hgate st'.
  destruct (credential_check_false_inv _ _ _ _ Hch)
    as (inputs & c & ty & E1 & Hp & E2 & Hcp & E3 & E4).
  unfold loginCustomer.
  rewrite (bind_inr _ _ _ _ _ E1), (bind_inr _ _ _ _ _ E2).
  erewrite bind_inr
    by (rewrite login_check_blocked_eq, Hp by assumption; now rewrite Hgate).
  rewrite (bind_inr _ _ _ _ _ E3), (bind_inr _ _ _ _ _ E4).
  erewrite bind_inl by (now apply login_record_outcome_failed).
  fold st'. rewrite Hcp. cbn [fst snd]. split; [reflexivity|].
  unfold Failed. destruct (Status.is_blocked st'), ty; auto.
Qed.

Lemma customer_login_update f w :
  customer_login (redis (update_hash customer_loginH f w))
  = f (customer_login (redis w)).
Proof. reflexivity. Qed.

Lemma cooldown_covers_the_minute s1 e2 s2 r3 :
  s1 <= e2 -> e2 <= s2 -> r3 - s1 < 60000 ->
  r3 < s2 + Z.max (60 - Z.quot (e2 - s1) 1000) 0 * 1000.
Proof.
  intros H1 H2 H3.
  rewrite Z.quot_div_nonneg by lia.
  pose proof (Z.mul_div_le (e2 - s1) 1000 ltac:(lia)). lia.
Qed.

(** C1.  Starting from a phone number without a customer_login record,
    three login requests whose credential check fails, made one after the
    other with the third failure noticed less than 60 seconds after the
    first was recorded, are answered: the first two with the plain
    failure (WRONG_PASSWORD or WRONG_OTP), the third with USER_BLOCKED and
    60 seconds left. *)
Theorem third_failure_within_a_minute_blocks
    fl1 fl2 fl3 clk1 clk2 clk3 tok1 tok2 tok3 req1 req2 req3 w0 p :
  let a1 := login fl1 clk1 tok1 req1 w0 in
  let a2 := login fl2 clk2 tok2 req2 (snd a1) in
  let a3 := login fl3 clk3 tok3 req3 (snd a2) in
  phone_key req1 = p -> phone_key req2 = p -> phone_key req3 = p ->
  customer_login (redis w0) !! p = None ->
  lockout_store_up fl1 -> lockout_store_up fl2 -> lockout_store_up fl3 ->
  fst (check fl1 clk1 req1 w0) = inr false ->
  fst (check fl2 clk2 req2 (snd a1)) = inr false ->
  fst (check fl3 clk3 req3 (snd a2)) = inr false ->
  chronological clk1 -> chronological clk2 -> chronological clk3 ->
  before clk1 clk2 -> before clk2 clk3 ->
  at_rapid_check clk3 - at_stamp clk1 < 60000 ->
  Failed (fst a1) /\ Failed (fst a2) /\ fst a3 = inl (USER_BLOCKED 60).
Proof.
  intros a1 a2 a3 Hp1 Hp2 Hp3 Hnone Hup1 Hup2 Hup3 Hc1 Hc2 Hc3
    Hk1 Hk2 Hk3 H12 H23 Hspan.
  unfold chronological, before in *.
  (* first failure: no record yet *)
  destruct (login_failed_attempt fl1 clk1 tok1 req1 w0 Status.empty Hc1 Hup1)
    as [Hw1 Hr1]; [now rewrite Hp1, Hnone|].
  fold a1 in Hw1, Hr1. cbn in Hr1.
  (* second failure: a warning with a cool-down *)
  set (st1 := failed_attempt_status clk1 Status.empty) in *.
  assert (Hl1 : customer_login (redis (snd a1)) !! phone_key req2 = Some st1).
  { rewrite Hw1, customer_login_update, Hp1, Hp2. apply lookup_insert_eq. }
  destruct (login_failed_attempt fl2 clk2 tok2 req2 (snd a1) st1 Hc2 Hup2)
    as [Hw2 Hr2]; [now rewrite Hl1|].
  fold a2 in Hw2, Hr2.
  assert (Hrapid2 : Moment.isBefore (at_rapid_check clk2)
                      (Moment.add_seconds (at_stamp clk1) 0) = false).
  { unfold Moment.isBefore, Moment.add_seconds. apply Z.ltb_ge. lia. }
  unfold failed_attempt_status in Hr2, Hw2. cbn in Hr2, Hw2.
  rewrite Hrapid2 in Hr2, Hw2. cbn in Hr2, Hw2.
  (* third failure: inside the cool-down *)
  set (st2 := Status.mk (Some (at_stamp clk2)) _ false) in *.
  assert (Hl2 : customer_login (redis (snd a2)) !! phone_key req3 = Some st2).
  { rewrite Hw2, customer_login_update, Hp2, Hp3. apply lookup_insert_eq. }
  destruct (login_failed_attempt fl3 clk3 tok3 req3 (snd a2) st2 Hc3 Hup3)
    as [_ Hr3]; [now rewrite Hl2|].
  fold a3 in Hr3.
  assert (Hrapid3 : Moment.isBefore (at_rapid_check clk3)
                      (Moment.add_seconds (at_stamp clk2)
                         (Status.safe_login_after st2)) = true).
  { unfold Moment.isBefore, Moment.add_seconds, Moment.diff_seconds.
    apply Z.ltb_lt. cbn. apply cooldown_covers_the_minute; lia. }
  unfold failed_attempt_status in Hr3. cbn [Status.last_login_attempt st2] in Hr3.
  rewrite Hrapid3 in Hr3. cbn in Hr3. auto.
Qed.

Lemma login_check_blocked_ro fl clk inputs w :
  snd (login_check_blocked fl clk inputs w) = w.
Proof.
  unfold login_check_blocked, bind, hGet, callback.
  now destruct (fl _).
Qed.

(** A request that gets as far as the choice of the credential is well
    formed and for a registered phone number; up to there nothing is
    written. *)
Lemma login_method_inv fl clk req w ty :
  fst (method fl clk req w) = inr ty ->
  exists inputs c st,
    login_validate is_phone_number req w = (inr inputs, w) /\
    inputs = Inputs.mk None (phone_key req) (Js.trim <$> body_password req)
               (default false (body_trust req)) (Js.trim <$> x_device_id req)
               (Js.trim <$> body_otp req) /\
    login_find_customer fl inputs w = (inr c, w) /\
    customer_by_phone w (phone_key req) = Some c /\
    login_check_blocked fl clk inputs w = (inr st, w) /\
    login_determine_type fl inputs w = (inr ty, w).
Proof.
  destruct (method fl clk req w) as [r w4] eqn:E. cbn. intros ->.
  unfold login_method in E.
  apply bind_inr_inv in E as (inputs & w1 & E1 & E).
  apply bind_inr_inv in E as (c & w2 & E2 & E).
  apply bind_inr_inv in E as (st & w3 & E3 & E).
  destruct (login_validate_inv _ _ _ _ E1) as (_ & -> & Hi).
  destruct (login_find_customer_inv _ _ _ _ _ E2) as (-> & Hc).
  pose proof (login_check_blocked_ro fl clk inputs w) as Hro.
  rewrite E3 in Hro. cbn in Hro. subst w3.
  destruct (login_determine_type_inv _ _ _ _ _ E) as (-> & _).
  exists inputs, c, st. repeat split; try assumption.
  now subst inputs.
Qed.

(** ** One-time codes *)

(** What the login flow does with a stored code whose expiry lies before
    the instant of the check. *)
Lemma login_expired_otp fl clk token req w o :
  fst (method fl clk req w) = inr otp_login ->
  fl (HGET Hotp) = None ->
  otp (redis w) !! phone_key req = Some o ->
  Otp.expiresAt o < at_otp_expired clk ->
  login fl clk token req w
  = (inl EXPIRED_OTP, snd (hDel_noack fl otpH (phone_key req) w)).
Proof.
  intros Hm Hg Ho Hlt.
  destruct (login_method_inv _ _ _ _ _ Hm)
    as (inputs & c & st & E1 & Hi & E2 & Hc & E3 & E4).
  apply customer_by_phone_phone in Hc.
  unfold loginCustomer.
  rewrite (bind_inr _ _ _ _ _ E1), (bind_inr _ _ _ _ _ E2),
    (bind_inr _ _ _ _ _ E3), (bind_inr _ _ _ _ _ E4).
  apply bind_inl. unfold login_check_credentials, bind at 1, hGet.
  cbn [h_name h_get otpH]. rewrite Hg, Hc, Ho.
  unfold Moment.isAfter. rewrite (proj2 (Z.ltb_lt _ _) Hlt).
  unfold bind, hDel_noack, throw. now destruct (fl (HDEL _)).
Qed.

(** C5, as amended.  When the stored one-time code of the phone number has
    its expiry strictly before the instant of the check, a login by
    one-time code is answered EXPIRED_OTP whatever code is submitted, the
    matching one included, and the stored record is deleted. *)
Theorem expired_otp_is_deleted_and_reported fl clk token req w o :
  fst (method fl clk req w) = inr otp_login ->
  fl (HGET Hotp) = None ->
  fl (HDEL Hotp) = None ->
  otp (redis w) !! phone_key req = Some o ->
  Otp.expiresAt o < at_otp_expired clk ->
  fst (login fl clk token req w) = inl EXPIRED_OTP /\
  otp (redis (snd (login fl clk token req w)))
  = delete (phone_key req) (otp (redis w)).
Proof.
  intros Hm Hg Hd Ho Hlt.
  rewrite (login_expired_otp _ _ _ _ _ _ Hm Hg Ho Hlt).
  unfold hDel_noack. cbn [h_name otpH]. now rewrite Hd.
Qed.

(** C9.  A login by one-time code that finds the stored code expired is
    answered EXPIRED_OTP and never reaches the step that records a failed
    attempt: the whole customer_login hash, and so the record of that phone
    number, is as before. *)
Theorem expired_otp_does_not_count_toward_lockout fl clk token req w o :
  fst (method fl clk req w) = inr otp_login ->
  fl (HGET Hotp) = None ->
  otp (redis w) !! phone_key req = Some o ->
  Otp.expiresAt o < at_otp_expired clk ->
  fst (login fl clk token req w) = inl EXPIRED_OTP /\
  customer_login (redis (snd (login fl clk token req w)))
  = customer_login (redis w).
Proof.
  intros Hm Hg Ho Hlt.
  rewrite (login_expired_otp _ _ _ _ _ _ Hm Hg Ho Hlt).
  unfold hDel_noack. now destruct (fl (HDEL _)).
Qed.

Lemma login_check_credentials_valid fl clk inputs c w o :
  fl (HGET Hotp) = None ->
  otp (redis w) !! Customer.phone c = Some o ->
  Js.parseInt (default "" (Inputs.otp inputs)) = Some (Otp.code o) ->
  at_otp_expired clk <= at_otp_valid clk ->
  at_otp_valid clk < Otp.expiresAt o ->
  login_check_credentials compareSync fl clk inputs c otp_login w
  = (inr true, snd (hDel_noack fl otpH (Customer.phone c) w)).
Proof.
  intros Hg Ho Hcode Hle Hlt.
  unfold login_check_credentials, bind at 1, hGet.
  cbn [h_name h_get otpH]. rewrite Hg, Ho, Hcode.
  unfold Moment.isAfter, Moment.isBefore.
  rewrite (proj2 (Z.ltb_ge _ _)) by lia.
  rewrite (proj2 (Z.ltb_lt _ _) Hlt), bool_decide_eq_true_2 by reflexivity.
  cbn [andb]. unfold bind, hDel_noack, ret. now destruct (fl (HDEL _)).
Qed.

Lemma login_check_credentials_absent fl clk inputs c w :
  fl (HGET Hotp) = None ->
  otp (redis w) !! Customer.phone c = None ->
  login_check_credentials compareSync fl clk inputs c otp_login w
  = (inr false, w).
Proof.
  intros Hg Ho. unfold login_check_credentials, bind at 1, hGet.
  cbn [h_name h_get otpH]. now rewrite Hg, Ho.
Qed.

(** The steps after a valid credential, when every call goes through: the
    customer and the one-time codes are as before, the lockout record of the
    phone number is gone, and no trusted device is lost. *)
Lemma login_session_tail clk token inputs c st ty w :
  exists w',
    (run login_record_outcome no_faults clk c st true ty in
     run login_trust_device no_faults inputs c in
     run login_delete_old_token no_faults c in
     run login_save_token no_faults clk token c in
     ret token) w = (inr token, w') /\
    customers_tbl (db w') = customers_tbl (db w) /\
    (exists more, devices_tbl (db w') = (devices_tbl (db w) ++ more)%list) /\
    otp (redis w') = otp (redis w) /\
    customer_login (redis w')
    = delete (Customer.phone c) (customer_login (redis w)).
Proof.
  unfold login_record_outcome, login_trust_device, login_delete_old_token,
    login_save_token, bind, hGet, hSet, hDel_noack, fetchDB, ret.
  cbn [negb no_faults].
  destruct (Inputs.trust inputs); cbn;
    destruct (Js.truthy _); cbn; eexists; (split; [reflexivity|]); cbn;
    repeat split; try reflexivity; eauto using app_nil_r.
  all: exists []; now rewrite app_nil_r.
Qed.

Lemma customer_by_phone_same_table w w' p :
  customers_tbl (db w') = customers_tbl (db w) ->
  customer_by_phone w' p = customer_by_phone w p.
Proof. unfold customer_by_phone. cbn. now intros ->. Qed.

Lemma trusted_device_more_devices w w' dev p more :
  customers_tbl (db w') = customers_tbl (db w) ->
  devices_tbl (db w') = (devices_tbl (db w) ++ more)%list ->
  trusted_device w dev p = true -> trusted_device w' dev p = true.
Proof.
  unfold trusted_device, Queries.getOneByUid, Queries.owner_has_phone.
  cbn [fst]. intros -> ->. rewrite List.filter_app, length_app.
  rewrite !Nat.ltb_lt. lia.
Qed.

(** C4.  With an unexpired one-time code stored for the phone number, a
    login from a trusted device that submits the matching code passes the
    credential check and succeeds, and the stored code is deleted; the same
    request sent again fails the credential check and is answered
    WRONG_OTP. *)
Theorem otp_is_single_use clk clk' token token' req w o :
  let a1 := login no_faults clk token req w in
  let a2 := login no_faults clk' token' req (snd a1) in
  fst (method no_faults clk req w) = inr otp_login ->
  otp (redis w) !! phone_key req = Some o ->
  Js.parseInt (default "" (Js.trim <$> body_otp req)) = Some (Otp.code o) ->
  at_otp_expired clk <= at_otp_valid clk ->
  at_otp_valid clk < Otp.expiresAt o ->
  (fst (check no_faults clk req w) = inr true /\
   fst a1 = inr token /\
   otp (redis (snd a1)) !! phone_key req = None) /\
  (fst (check no_faults clk' req (snd a1)) = inr false /\
   fst a2 = inl WRONG_OTP).
Proof.
  intros a1 a2 Hm Ho Hcode Hle Hlt.
  destruct (login_method_inv _ _ _ _ _ Hm)
    as (inputs & c & st & E1 & Hi & E2 & Hc & E3 & E4).
  pose proof (customer_by_phone_phone _ _ _ Hc) as Hcp.
  assert (Hotp : Inputs.otp inputs = Js.trim <$> body_otp req)
    by now subst inputs.
  assert (E5 : login_check_credentials compareSync no_faults clk inputs c
                 otp_login w
               = (inr true, update_hash otpH (delete (phone_key req)) w)).
  { rewrite <- Hcp.
    apply (login_check_credentials_valid no_faults clk inputs c w o);
      try assumption; try reflexivity; now rewrite ?Hcp, ?Hotp. }
  destruct (login_session_tail clk token inputs c st otp_login
              (update_hash otpH (delete (phone_key req)) w))
    as (w1 & Etail & Htbl & (more & Hdev) & Hotp1 & Hlogin1).
  assert (Ea1 : a1 = (inr token, w1)).
  { unfold a1, loginCustomer.
    rewrite (bind_inr _ _ _ _ _ E1), (bind_inr _ _ _ _ _ E2),
      (bind_inr _ _ _ _ _ E3), (bind_inr _ _ _ _ _ E4),
      (bind_inr _ _ _ _ _ E5).
    exact Etail. }
  split.
  { split; [|split].
    - unfold credential_check.
      rewrite (bind_inr _ _ _ _ _ E1), (bind_inr _ _ _ _ _ E2),
        (bind_inr _ _ _ _ _ E4). now rewrite E5.
    - now rewrite Ea1.
    - rewrite Ea1. cbn [snd]. rewrite Hotp1. cbn. apply lookup_delete_eq. }
  (* the same request again *)
  subst a2. rewrite Ea1. cbn [snd]. clear a1 Ea1 Etail.
  cbn in Htbl, Hdev.
  destruct (login_determine_type_inv _ _ _ _ _ E4) as (_ & _ & Hty & Hreq).
  assert (F1 : login_validate is_phone_number req w1 = (inr inputs, w1)).
  { apply login_validate_inv in E1 as (Hwf & _ & _).
    rewrite Hi. now apply login_validate_ok. }
  assert (F2 : login_find_customer no_faults inputs w1 = (inr c, w1)).
  { apply login_find_customer_ok; [reflexivity|].
    rewrite (customer_by_phone_same_table w w1) by assumption.
    now subst inputs. }
  assert (F3 : login_check_blocked no_faults clk' inputs w1
               = (inr Status.empty, w1)).
  { rewrite login_check_blocked_eq by reflexivity.
    rewrite Hlogin1. cbn. replace (Inputs.phone inputs) with (phone_key req)
      by now subst inputs.
    now rewrite Hcp, lookup_delete_eq. }
  assert (F4 : login_determine_type no_faults inputs w1 = (inr otp_login, w1)).
  { pose proof (login_determine_type_ok no_faults inputs w1 eq_refl) as Hok.
    cbn zeta in Hok.
    destruct (trusted_device w _ _) eqn:Htr; [|discriminate].
    rewrite (trusted_device_more_devices w w1 _ _ more Htbl Hdev Htr) in Hok.
    now apply Hok. }
  assert (F5 : login_check_credentials compareSync no_faults clk' inputs c
                 otp_login w1 = (inr false, w1)).
  { apply login_check_credentials_absent; [reflexivity|].
    rewrite Hotp1, Hcp. cbn. apply lookup_delete_eq. }
  split.
  - unfold credential_check.
    rewrite (bind_inr _ _ _ _ _ F1), (bind_inr _ _ _ _ _ F2),
      (bind_inr _ _ _ _ _ F4). now rewrite F5.
  - unfold loginCustomer.
    rewrite (bind_inr _ _ _ _ _ F1), (bind_inr _ _ _ _ _ F2),
      (bind_inr _ _ _ _ _ F3), (bind_inr _ _ _ _ _ F4),
      (bind_inr _ _ _ _ _ F5).
    erewrite bind_inl by (now apply login_record_outcome_failed).
    reflexivity.
Qed.

(** ** Session tokens *)

Lemma bind_post {A B} (m : Flow A) (k : A -> Flow B) (P : World -> Prop) w :
  P (snd (m w)) ->
  (forall a w', P w' -> P (snd (k a w'))) ->
  P (snd (bind m k w)).
Proof.
  unfold bind. destruct (m w) as [[e|a] w']; cbn; auto.
Qed.

Lemma single_session_sessions w w' :
  sessions w' = sessions w ->
  single_session (redis w) -> single_session (redis w').
Proof.
  unfold sessions, single_session. intros [= Hc Ht]. now rewrite Hc, Ht.
Qed.

(** The steps before the token is issued leave the session hashes alone. *)
Lemma login_validate_sessions req w :
  sessions (snd (login_validate is_phone_number req w)) = sessions w.
Proof. unfold login_validate. now repeat case_match. Qed.

Lemma login_find_customer_sessions fl inputs w :
  sessions (snd (login_find_customer fl inputs w)) = sessions w.
Proof.
  unfold login_find_customer, bind, fetchDB.
  destruct (fl _); [reflexivity|]. cbn. now case_match.
Qed.

Lemma login_check_blocked_sessions fl clk inputs w :
  sessions (snd (login_check_blocked fl clk inputs w)) = sessions w.
Proof. now rewrite login_check_blocked_ro. Qed.

Lemma login_determine_type_sessions fl inputs w :
  sessions (snd (login_determine_type fl inputs w)) = sessions w.
Proof. now rewrite login_determine_type_ro. Qed.

Lemma login_check_credentials_sessions fl clk inputs c ty w :
  sessions (snd (login_check_credentials compareSync fl clk inputs c ty w))
  = sessions w.
Proof.
  unfold login_check_credentials, bind, hGet, hDel_noack, ret, throw.
  destruct ty; [reflexivity|].
  destruct (fl (HGET _)); [reflexivity|].
  destruct (_ !! _) as [o|]; [|reflexivity].
  destruct (Moment.isAfter _ _); [now destruct (fl (HDEL _))|].
  destruct (_ && _); [now destruct (fl (HDEL _))|reflexivity].
Qed.

Lemma login_record_outcome_sessions fl clk c st ok ty w :
  sessions (snd (login_record_outcome fl clk c st ok ty w)) = sessions w.
Proof.
  unfold login_record_outcome, bind, hSet, hDel_noack, throw.
  destruct ok; cbn [negb].
  - now destruct (fl (HDEL _)).
  - destruct (fl (HSET _)); [reflexivity|]. now case_match.
Qed.

Lemma login_trust_device_sessions fl inputs c w :
  sessions (snd (login_trust_device fl inputs c w)) = sessions w.
Proof.
  unfold login_trust_device, fetchDB.
  destruct (negb _); [reflexivity|]. now destruct (fl _).
Qed.

(** Issuing: the old token is looked up and deleted, the new one stored. *)
Lemma login_issue_success fl clk token c w w1 w2 :
  fl (HDEL Htokens) = None ->
  login_delete_old_token fl c w = (inr tt, w1) ->
  login_save_token fl clk token c w1 = (inr tt, w2) ->
  customers (redis w2) = <[Customer.id c := token]> (customers (redis w)) /\
  tokens (redis w2)
  = <[token := Token.mk (Customer.id c) "customer"
                 (Moment.add_hours (at_issue clk) 1)]>
      (if Js.truthy (customers (redis w) !! Customer.id c)
       then delete (default "" (customers (redis w) !! Customer.id c))
              (tokens (redis w))
       else tokens (redis w)).
Proof.
  intros Hd.
  unfold login_delete_old_token, login_save_token, bind, hGet, hSet,
    hDel_noack, ret.
  cbn [h_name h_get customersH tokensH]. rewrite Hd.
  destruct (fl (HGET _)); [discriminate|].
  destruct (fl (HSET Hcustomers)); [now case_match|].
  destruct (fl (HSET Htokens)); [now case_match|].
  destruct (Js.truthy _); intros [= <-] [= <-]; now cbn.
Qed.

Lemma issue_keeps_single_session (C : gmap string string)
    (T0 : gmap string Token.t) id token expiry :
  let T := if Js.truthy (C !! id)
           then delete (default "" (C !! id)) T0 else T0 in
  let rec := Token.mk id "customer" expiry in
  token <> "" ->
  session_inv C T0 ->
  session_inv C T /\
  session_inv (<[id := token]> C) T /\
  session_inv (<[id := token]> C) (<[token := rec]> T).
Proof.
  intros T rec Hne Hinv.
  assert (HT : forall t r, T !! t = Some r ->
                 T0 !! t = Some r /\ Token.id r <> id).
  { intros t r Ht. subst T.
    destruct (C !! id) as [old|] eqn:Hold; cbn in Ht.
    - destruct (String.eqb_spec old ""); cbn in Ht.
      + split; [exact Ht|]. intros Heq.
        destruct (Hinv _ _ Ht) as [Hne' Hcur]. congruence.
      + apply lookup_delete_Some in Ht as [Hneq Ht]. split; [exact Ht|].
        intros Heq. destruct (Hinv _ _ Ht) as [_ Hcur]. congruence.
    - split; [exact Ht|]. intros Heq.
      destruct (Hinv _ _ Ht) as [_ Hcur]. congruence. }
  split; [|split]; intros t r.
  - intros Ht. apply HT in Ht as [Ht _]. exact (Hinv _ _ Ht).
  - intros Ht. destruct (HT _ _ Ht) as [Ht' Hid].
    rewrite lookup_insert_ne by congruence. exact (Hinv _ _ Ht').
  - destruct (decide (t = token)) as [->|Hneq].
    + rewrite lookup_insert_eq. intros [= <-]. cbn.
      now rewrite lookup_insert_eq.
    + rewrite lookup_insert_ne by congruence. intros Ht.
      destruct (HT _ _ Ht) as [Ht' Hid].
      rewrite lookup_insert_ne by congruence. exact (Hinv _ _ Ht').
Qed.

Lemma login_issue_single_session fl clk token c w :
  fl (HDEL Htokens) = None -> token <> "" ->
  single_session (redis w) ->
  single_session
    (redis (snd ((run login_delete_old_token fl c in
                  run login_save_token fl clk token c in
                  ret token) w))).
Proof.
  intros Hd Hne Hinv.
  destruct (issue_keeps_single_session (customers (redis w))
              (tokens (redis w)) (Customer.id c) token
              (Moment.add_hours (at_issue clk) 1) Hne Hinv)
    as (H1 & H2 & H3).
  unfold login_delete_old_token, login_save_token, bind, hGet, hSet,
    hDel_noack, ret.
  cbn [h_name h_get customersH tokensH]. rewrite Hd.
  destruct (fl (HGET _)); [exact Hinv|].
  destruct (Js.truthy _); cbn;
    (destruct (fl (HSET Hcustomers)); cbn; [assumption|]);
    (destruct (fl (HSET Htokens)); cbn; assumption).
Qed.

Lemma login_keeps_single_session fl clk token req w :
  fl (HDEL Htokens) = None -> token <> "" ->
  single_session (redis w) ->
  single_session (redis (snd (login fl clk token req w))).
Proof.
  intros Hd Hne Hinv. unfold loginCustomer.
  apply (bind_post _ _ (fun w => single_session (redis w))).
  { eapply single_session_sessions; [apply login_validate_sessions|trivial]. }
  intros inputs w1 H1. apply bind_post.
  { eapply single_session_sessions;
      [apply login_find_customer_sessions|trivial]. }
  intros c w2 H2. apply bind_post.
  { eapply single_session_sessions;
      [apply login_check_blocked_sessions|trivial]. }
  intros st w3 H3. apply bind_post.
  { eapply single_session_sessions;
      [apply login_determine_type_sessions|trivial]. }
  intros ty w4 H4. apply bind_post.
  { eapply single_session_sessions;
      [apply login_check_credentials_sessions|trivial]. }
  intros ok w5 H5. apply bind_post.
  { eapply single_session_sessions;
      [apply login_record_outcome_sessions|trivial]. }
  intros _ w6 H6. apply bind_post.
  { eapply single_session_sessions;
      [apply login_trust_device_sessions|trivial]. }
  intros _ w7 H7. now apply login_issue_single_session.
Qed.

(** The session hashes as a successful login finds them when it comes to
    issue the token are those of the start of the request. *)
Lemma login_success_inv fl clk token req w tok w' :
  login fl clk token req w = (inr tok, w') ->
  exists c w7 w8,
    customer_by_phone w (phone_key req) = Some c /\
    sessions w7 = sessions w /\
    login_delete_old_token fl c w7 = (inr tt, w8) /\
    login_save_token fl clk token c w8 = (inr tt, w') /\
    tok = token.
Proof.
  unfold loginCustomer. intros E.
  apply bind_inr_inv in E as (inputs & w1 & E1 & E).
  apply bind_inr_inv in E as (c & w2 & E2 & E).
  apply bind_inr_inv in E as (st & w3 & E3 & E).
  apply bind_inr_inv in E as (ty & w4 & E4 & E).
  apply bind_inr_inv in E as (ok & w5 & E5 & E).
  apply bind_inr_inv in E as ([] & w6 & E6 & E).
  apply bind_inr_inv in E as ([] & w7 & E7 & E).
  apply bind_inr_inv in E as ([] & w8 & E8 & E).
  apply bind_inr_inv in E as ([] & w9 & E9 & E).
  injection E as <- <-.
  exists c, w7, w8.
  destruct (login_validate_inv _ _ _ _ E1) as (_ & -> & Hi).
  destruct (login_find_customer_inv _ _ _ _ _ E2) as (-> & Hc).
  repeat split; try assumption.
  - now subst inputs.
  - pose proof (login_check_blocked_sessions fl clk inputs w) as F3.
    pose proof (login_determine_type_sessions fl inputs w3) as F4.
    pose proof (login_check_credentials_sessions fl clk inputs c ty w4) as F5.
    pose proof (login_record_outcome_sessions fl clk c st ok ty w5) as F6.
    pose proof (login_trust_device_sessions fl inputs c w6) as F7.
    rewrite E3 in F3. rewrite E4 in F4. rewrite E5 in F5. rewrite E6 in F6.
    rewrite E7 in F7. cbn [snd] in *. congruence.
Qed.

(** C6.  Logging in keeps the session hashes such that every token record
    is the current token of its identity, so that no identity has two; and
    after a successful login of a customer who held a token, the record of
    that old token is gone, validating it gives nothing, and the new token
    is the current and valid one. *)
Theorem new_token_supersedes_old fl clk token req w :
  let a := login fl clk token req w in
  fl (HDEL Htokens) = None ->
  token <> "" ->
  (single_session (redis w) -> single_session (redis (snd a))) /\
  (forall c old now,
     fst a = inr token ->
     customer_by_phone w (phone_key req) = Some c ->
     customers (redis w) !! Customer.id c = Some old ->
     old <> "" -> old <> token ->
     tokens (redis (snd a)) !! old = None /\
     validate now old (redis (snd a)) = None /\
     customers (redis (snd a)) !! Customer.id c = Some token /\
     validate (at_issue clk) token (redis (snd a))
     = Some (Customer.id c, "customer")).
Proof.
  intros a Hd Hne. split.
  { now apply login_keeps_single_session. }
  intros c old now Hok Hc Hold Hold_ne Hfresh.
  destruct a as [r w'] eqn:Ea. cbn in Hok. subst r. cbn [snd].
  destruct (login_success_inv _ _ _ _ _ _ _ Ea)
    as (c' & w7 & w8 & Hc' & Hs & E8 & E9 & _).
  assert (c' = c) by congruence. subst c'.
  injection Hs as HsC HsT.
  destruct (login_issue_success _ _ _ _ _ _ _ Hd E8 E9) as [HC HT].
  rewrite HsC in HC. rewrite HsC, HsT, Hold in HT. cbn in HT.
  destruct (String.eqb_spec old ""); [contradiction|]. cbn in HT.
  assert (Hgone : tokens (redis w') !! old = None).
  { rewrite HT, lookup_insert_ne by congruence. apply lookup_delete_eq. }
  repeat split.
  - exact Hgone.
  - unfold validate. now rewrite Hgone.
  - rewrite HC. apply lookup_insert_eq.
  - unfold validate. rewrite HT, lookup_insert_eq. cbn.
    unfold Moment.add_hours. now rewrite (proj2 (Z.leb_gt _ _)) by lia.
Qed.

(** ** The login-method query *)

(** C3, as amended.  For a registered phone number the login-method query
    answers otp exactly when a device identifier is supplied and
    (deviceId, phone) is a trusted-device association, and password
    otherwise.  When it answers password no store is changed; when it
    answers otp it has stored a new one-time code for the phone number,
    expiring two minutes later, over any earlier one, and changed nothing
    else. *)
Theorem login_method_query fl clk code req w :
  let dev := Js.trim <$> x_device_id req in
  let by_otp :=
    Js.truthy dev && trusted_device w (default "" dev) (phone_key req) in
  is_phone_number (phone_key req) = true ->
  is_Some (customer_by_phone w (phone_key req)) ->
  fl (QUERY customers_getOneByPhone) = None ->
  fl (QUERY devices_getOneByUid) = None ->
  fl (HSET Hotp) = None ->
  getlogin fl clk code req w
  = (inr (LoginMethods.mk (negb by_otp) by_otp),
     if by_otp
     then update_hash otpH
            (insert (phone_key req)
               (Otp.mk code (at_issue clk + 120000))) w
     else w).
Proof.
  intros dev by_otp Hp [c Hc] Hq1 Hq2 Hs.
  unfold getCustomerLoginType, getlogin_validate. fold (phone_key req).
  rewrite Hp. unfold bind at 1, ret at 1.
  unfold bind at 1, getlogin_check_exists, bind at 1, fetchDB.
  rewrite Hq1. unfold customer_by_phone in Hc.
  destruct (Queries.getOneByPhone (phone_key req) (db w)) as [rows d] eqn:Eq.
  assert (d = db w) by (now injection Eq). subst d.
  cbn [Inputs.phone]. rewrite Eq. cbn [fst] in Hc.
  destruct rows as [|c0 rows]; [discriminate|]. cbn [length Nat.eqb ret].
  unfold getlogin_decide. cbn [Inputs.deviceId Inputs.phone]. fold dev.
  subst by_otp. destruct w as [d r]. cbn [db redis].
  destruct (Js.truthy dev); cbn [negb andb]; [|reflexivity].
  unfold bind at 1, fetchDB. rewrite Hq2. unfold trusted_device.
  cbn [db fst Queries.getOneByUid].
  destruct (List.filter _ _) as [|dv dvs]; cbn [length Nat.eqb Nat.ltb Nat.leb].
  - reflexivity.
  - unfold bind, hSet. cbn [h_name otpH]. rewrite Hs.
    unfold Moment.add_minutes. now replace (2 * 60000) with 120000 by lia.
Qed.

(** ** The fake OTP getter *)

(** C8.  The OTP getter is mounted on GET /otp/recievebysms/:phone with
    nothing in front of it, and reads nothing of the request but the phone
    parameter: when a record is stored under that phone number it sends the
    decimal digits of the stored code, whatever the expiry of the record
    and without a token; it sends the empty string when there is no record
    (or the read fails); and it leaves every store, the record included,
    as it was. *)
Theorem otp_getter_discloses_stored_code fl req w :
  routes_to getOtpFromSMS_
  = [mkRoute GET "/otp/recievebysms/:phone" [getOtpFromSMS_]] /\
  getOtpFromSMS fl req w
  = (match fl (HGET Hotp), otp (redis w) !! params_phone req with
     | None, Some o => pretty (Otp.code o)
     | _, _ => ""
     end, w).
Proof.
  split; [reflexivity|].
  unfold getOtpFromSMS, hGet. cbn [h_name h_get otpH].
  destruct (fl (HGET Hotp)); [reflexivity|].
  now destruct (otp (redis w) !! params_phone req).
Qed.

(** ** The profile *)

Lemma getOneById_without_hashes id w :
  fst (Queries.getOneById id (db (without_hashes w)))
  = map without_hash (fst (Queries.getOneById id (db w))).
Proof.
  cbn. induction (customers_tbl (db w)) as [|c l IH]; [reflexivity|].
  cbn. destruct (String.eqb (Customer.id c) id); cbn; now rewrite IH.
Qed.

Lemma profile_object_without_hash c :
  delete "hashed_password" (row_object (without_hash c))
  = delete "hashed_password" (row_object c).
Proof.
  unfold row_object, without_hash. cbn [list_to_map foldr Customer.id
    Customer.name Customer.phone Customer.hashed_password Customer.image_url
    Customer.gender Customer.birth_date Customer.lang].
  apply map_eq. intros k. rewrite !lookup_delete.
  case_decide as Hk; [reflexivity|].
  rewrite !(lookup_insert _ _ k). cbn [fst snd].
  repeat (case_decide; [first [reflexivity | congruence]|]).
  reflexivity.
Qed.

Lemma profile_object_has_no_hash c v :
  (<["image_url" := v]> (delete "hashed_password" (row_object c)))
    !! "hashed_password" = None.
Proof.
  rewrite lookup_insert_ne by done. apply lookup_delete_eq.
Qed.

Lemma verifyToken_ro fl clk req role w :
  verifyToken fl clk req role w = (fst (verifyToken fl clk req role w), w).
Proof.
  unfold verifyToken, bind, hGet, throw, ret.
  destruct (authorization req); [|reflexivity].
  destruct (fl (HGET _)); [reflexivity|].
  destruct (_ !! _) as [rec|]; [|reflexivity].
  destruct (_ || _); reflexivity.
Qed.

Lemma verifyToken_redis fl clk req role w w' :
  redis w' = redis w ->
  fst (verifyToken fl clk req role w') = fst (verifyToken fl clk req role w).
Proof.
  intros Hr. unfold verifyToken, bind, hGet, throw, ret.
  destruct (authorization req); [|reflexivity].
  destruct (fl (HGET _)); [reflexivity|]. rewrite Hr.
  destruct (_ !! _) as [rec|]; [|reflexivity].
  destruct (_ || _); reflexivity.
Qed.

Lemma profile_result fl clk req w :
  fst (profile fl clk req w)
  = match fst (verifyToken fl clk req "customer" w) with
    | inl e => inl e
    | inr customerId =>
        match fl (QUERY customers_getOneById) with
        | Some msg => inl (StoreError msg)
        | None =>
            match fst (Queries.getOneById customerId (db w)) with
            | [] => inl USER_NOT_FOUND
            | row :: _ =>
                inr (<["image_url" :=
                         of_nullable (getFileUrl (Customer.image_url row))]>
                       (delete "hashed_password" (row_object row)))
            end
        end
    end.
Proof.
  unfold getCustomerProfile. unfold bind at 1.
  rewrite verifyToken_ro.
  destruct (fst (verifyToken fl clk req "customer" w)) as [e|id];
    [reflexivity|].
  unfold bind, fetchDB. destruct (fl (QUERY _)); [reflexivity|].
  cbn [Queries.getOneById fst]. now destruct (List.filter _ _).
Qed.

(** C10.  Whatever the profile read answers with, the answered object has
    no hashed_password field; and the answer is the same when every stored
    password hash is blanked beforehand, so nothing of a hash reaches the
    response. *)
Theorem profile_omits_password_hash fl clk req w :
  match fst (profile fl clk req w) with
  | inr customer => customer !! "hashed_password" = None
  | inl _ => True
  end /\
  fst (profile fl clk req (without_hashes w)) = fst (profile fl clk req w).
Proof.
  rewrite !profile_result.
  rewrite (verifyToken_redis fl clk req "customer" w (without_hashes w))
    by reflexivity.
  destruct (fst (verifyToken fl clk req "customer" w)) as [e|id];
    [now split|].
  destruct (fl (QUERY _)); [now split|].
  rewrite getOneById_without_hashes.
  destruct (fst (Queries.getOneById id (db w))) as [|c rows];
    cbn [map]; [now split|].
  split; [apply profile_object_has_no_hash|].
  now rewrite profile_object_without_hash.
Qed.

(** ** Registration *)

Lemma register_split fl clk new_id token req w :
  register fl clk new_id token req w
  = (let* created :=
       register_until_created hashSync is_phone_number alphanumeric
         fl new_id req in
     run on_error
           (register_session fl clk token (fst created) (snd created))
           (fetchDB_noack fl customers_delete
              (Queries.delete (Customer.id (snd created)))) in
     ret token) w.
Proof.
  unfold registerCustomer, register_until_created, bind, ret.
  destruct (register_validate _ _ _ _) as [[e|inputs] w1]; [reflexivity|].
  destruct (register_check_taken _ _ _) as [[e|[]] w2]; [reflexivity|].
  now destruct (register_create _ _ _ _ _) as [[e|c] w3].
Qed.

(** Up to the creation nothing is written, and the creation either fails
    without a trace or appends the row with the identifier it was given. *)
Lemma register_until_created_result fl new_id req w :
  match register_until_created hashSync is_phone_number alphanumeric
          fl new_id req w with
  | (inl _, w1) => w1 = w
  | (inr (inputs, c), w1) =>
      Customer.id c = new_id /\
      redis w1 = redis w /\
      devices_tbl (db w1) = devices_tbl (db w) /\
      customers_tbl (db w1) = (customers_tbl (db w) ++ [c])%list
  end.
Proof.
  unfold register_until_created, bind, ret.
  destruct (register_validate _ _ _ _) as [[e|inputs] w1] eqn:E1.
  { revert E1. unfold register_validate, ret, throw.
    case_match; now intros [= _ <-]. }
  assert (w1 = w) as ->.
  { revert E1. unfold register_validate, ret, throw.
    case_match; now intros [= _ <-]. }
  unfold register_check_taken, bind, fetchDB, ret, throw.
  destruct (fl (QUERY customers_getOneByPhone)); [reflexivity|].
  cbn -[Nat.ltb]. destruct (0 <? _)%nat; [now destruct w|].
  unfold register_create, fetchDB.
  destruct (fl (QUERY customers_create)); [now destruct w|].
  now cbn.
Qed.

(** A failing step after the creation leaves the tables alone. *)
Lemma register_session_fails fl clk token inputs c w msg :
  later_fault fl (Inputs.trust inputs) = Some msg ->
  exists w', register_session fl clk token inputs c w
             = (inl (StoreError msg), w') /\ db w' = db w.
Proof.
  unfold later_fault, register_session, bind, hSet, fetchDB, ret.
  cbn [h_name customersH tokensH].
  destruct (fl (HSET Hcustomers)).
  { intros [= ->]. eauto. }
  destruct (fl (HSET Htokens)).
  { intros [= ->]. eauto. }
  destruct (Inputs.trust inputs); [|discriminate].
  intros ->. eauto.
Qed.

Lemma deleted_row_not_found (tbl : list Customer.t) id :
  List.filter (fun c => String.eqb (Customer.id c) id)
    (List.filter (fun c => negb (String.eqb (Customer.id c) id)) tbl)
  = [].
Proof.
  induction tbl as [|x l IH]; [reflexivity|].
  cbn. destruct (String.eqb (Customer.id x) id) eqn:Ex; cbn; [exact IH|].
  now rewrite Ex.
Qed.

Lemma delete_created_row (tbl : list Customer.t) c :
  (forall c', In c' tbl -> Customer.id c' <> Customer.id c) ->
  List.filter (fun c' => negb (String.eqb (Customer.id c') (Customer.id c)))
    (tbl ++ [c])
  = tbl.
Proof.
  intros Hfresh. rewrite List.filter_app. cbn.
  rewrite String.eqb_refl. cbn. rewrite app_nil_r.
  apply forallb_filter_id, forallb_forall. intros c' Hin.
  apply negb_true_iff, String.eqb_neq. now apply Hfresh.
Qed.

(** C7.  A registration that fails before the customer row exists
    (validation, phone number taken, a failing lookup or insert) passes the
    error on and changes no store.  When the row exists and a later step
    fails (one of the two token writes, or the trusted-device insert), the
    error of that step is passed on, no success is answered, and the flow
    has issued the delete of the new row: if that delete goes through no
    row with the new identifier is left, and the customers table is the one
    from before the request when the identifier was fresh. *)
Theorem registration_compensates fl clk new_id token req w :
  let a := register fl clk new_id token req w in
  let created :=
    register_until_created hashSync is_phone_number alphanumeric
      fl new_id req w in
  (forall e, fst created = inl e -> a = (inl e, w)) /\
  (forall inputs c msg,
     fst created = inr (inputs, c) ->
     later_fault fl (Inputs.trust inputs) = Some msg ->
     fst a = inl (StoreError msg) /\
     (fl (QUERY customers_delete) = None ->
      fst (Queries.getOneById new_id (db (snd a))) = [] /\
      ((forall c', In c' (customers_tbl (db w)) -> Customer.id c' <> new_id) ->
       customers_tbl (db (snd a)) = customers_tbl (db w)))).
Proof.
  intros a created.
  assert (Ha : a = match created with
                   | (inl e, w1) => (inl e, w1)
                   | (inr (inputs, c), w1) =>
                       (run on_error (register_session fl clk token inputs c)
                              (fetchDB_noack fl customers_delete
                                 (Queries.delete (Customer.id c))) in
                        ret token) w1
                   end).
  { subst a created. rewrite register_split. unfold bind at 1.
    now destruct (register_until_created _ _ _ _ _ _ _) as [[e|[i c]] w1]. }
  pose proof (register_until_created_result fl new_id req w) as Hres.
  fold created in Hres. clearbody a created. subst a.
  destruct created as [[e|[inputs c]] w1]; cbn [fst]; split.
  - intros e' [= <-]. now subst w1.
  - intros ? ? ? [=].
  - intros e [=].
  - intros inputs' c' msg [= <- <-] Hlater.
    destruct Hres as (Hid & Hredis & Hdev & Htbl).
    destruct (register_session_fails fl clk token inputs c w1 msg Hlater)
      as (w2 & Esess & Hdb).
    unfold bind, on_error. rewrite Esess. cbn [fst snd].
    split; [reflexivity|]. intros Hdel.
    unfold fetchDB_noack. rewrite Hdel. cbn [snd db Queries.delete
      Queries.getOneById fst customers_tbl]. rewrite Hdb, Htbl, Hid.
    split.
    + apply deleted_row_not_found.
    + intros Hfresh. rewrite <- Hid in *. now apply delete_created_row.
Qed.

(** Registration issues the first token of a new identity and keeps the
    same invariant, the identifier being new to the session hashes. *)
Lemma register_keeps_single_session fl clk new_id token req w :
  token <> "" ->
  customers (redis w) !! new_id = None ->
  single_session (redis w) ->
  single_session (redis (snd (register fl clk new_id token req w))).
Proof.
  intros Hne Hnew Hinv. rewrite register_split. unfold bind at 1.
  pose proof (register_until_created_result fl new_id req w) as Hres.
  destruct (register_until_created _ _ _ _ _ _ _) as [[e|[inputs c]] w1];
    cbn [fst snd].
  { now subst w1. }
  destruct Hres as (Hid & Hredis & _ & _).
  destruct (issue_keeps_single_session (customers (redis w))
              (tokens (redis w)) new_id token
              (Moment.add_hours (at_issue clk) 1) Hne Hinv)
    as (_ & H2 & H3).
  rewrite Hnew in H2, H3. cbn in H2, H3.
  unfold bind, on_error, register_session, bind, hSet, fetchDB,
    fetchDB_noack, ret.
  cbn [h_name customersH tokensH]. rewrite Hid.
  assert (Hinv1 : single_session (redis w1)) by now rewrite Hredis.
  destruct (fl (HSET Hcustomers)); cbn.
  { destruct (fl (QUERY customers_delete)); cbn; exact Hinv1. }
  destruct (fl (HSET Htokens)); cbn.
  { destruct (fl (QUERY customers_delete)); cbn; rewrite Hredis; exact H2. }
  destruct (Inputs.trust inputs); cbn; [|rewrite Hredis; exact H3].
  destruct (fl (QUERY devices_create)); cbn; [|rewrite Hredis; exact H3].
  destruct (fl (QUERY customers_delete)); cbn; rewrite Hredis; exact H3.
Qed.

End Properties.

(** * Further properties of the flows *)

Section MoreProperties.

Context (compareSync : string -> string -> bool)
        (hashSync : string -> Z -> string)
        (is_phone_number alphanumeric : string -> bool)
        (getFileUrl : option string -> option string).

Local Abbreviation login := (loginCustomer compareSync is_phone_number).
Local Abbreviation method := (login_method is_phone_number).
Local Abbreviation check := (credential_check compareSync is_phone_number).
Local Abbreviation register :=
  (registerCustomer hashSync is_phone_number alphanumeric).
Local Abbreviation getlogin := (getCustomerLoginType is_phone_number).
Local Abbreviation well_formed := (well_formed_login is_phone_number).
Local Abbreviation after_gate := (login_after_gate compareSync).

(** ** How a login request gets to the credential check *)

Lemma check_blocked_not_blocked clk o st :
  check_blocked clk o = inr st -> Status.is_blocked st = false.
Proof.
  unfold check_blocked. destruct o as [s|]; [|now intros [= <-]].
  destruct (Status.is_blocked s) eqn:Hb; [|now intros [= <-]].
  destruct (Status.last_login_attempt s) as [l|].
  - destruct (Moment.isBefore _ _); [discriminate|]. now intros [= <-].
  - now intros [= <-].
Qed.

(** Either the request is turned away before the credential check, with
    every store as it was, or it goes on from the unchanged world with the
    validated inputs, the customer of that phone number, the status the
    gate let through and the method chosen. *)
Lemma login_cases fl clk token req w :
  (exists e, login fl clk token req w = (inl e, w)) \/
  (exists c st ty,
     well_formed req /\
     customer_by_phone w (phone_key req) = Some c /\
     Customer.phone c = phone_key req /\
     fl (HGET Hcustomer_login) = None /\
     check_blocked clk (customer_login (redis w) !! phone_key req) = inr st /\
     login_determine_type fl (login_inputs req) w = (inr ty, w) /\
     login fl clk token req w
     = after_gate fl clk token (login_inputs req) c st ty w).
Proof.
  unfold loginCustomer.
  destruct (login_validate is_phone_number req w) as [[e|inputs] w1] eqn:E1.
  { left. exists e. unfold bind. rewrite E1.
    revert E1. unfold login_validate, ret, throw.
    now case_match; intros [= <- <-]. }
  destruct (login_validate_inv _ _ _ _ _ E1) as (Hwf & -> & Hi).
  fold (login_inputs req) in Hi. subst inputs.
  rewrite (bind_inr _ _ _ _ _ E1).
  destruct (login_find_customer fl (login_inputs req) w)
    as [[e|c] w2] eqn:E2.
  { left. exists e. unfold bind. rewrite E2.
    revert E2. unfold login_find_customer, bind, fetchDB, throw, ret.
    destruct (fl _); [now intros [= <- <-]|]. cbn.
    destruct (List.filter _ _); intros [= <- <-]; now destruct w. }
  destruct (login_find_customer_inv _ _ _ _ _ E2) as (-> & Hc).
  rewrite (bind_inr _ _ _ _ _ E2). cbn [Inputs.phone login_inputs] in Hc.
  pose proof (login_check_blocked_ro fl clk (login_inputs req) w) as Hro.
  destruct (login_check_blocked fl clk (login_inputs req) w)
    as [[e|st] w3] eqn:E3; cbn [snd] in Hro; subst w3.
  { left. exists e. now apply bind_inl. }
  rewrite (bind_inr _ _ _ _ _ E3).
  pose proof (login_determine_type_ro fl (login_inputs req) w) as Hro.
  destruct (login_determine_type fl (login_inputs req) w)
    as [[e|ty] w4] eqn:E4; cbn [snd] in Hro; subst w4.
  { left. exists e. now apply bind_inl. }
  rewrite (bind_inr _ _ _ _ _ E4).
  right. exists c, st, ty.
  assert (Hg : fl (HGET Hcustomer_login) = None).
  { revert E3. unfold login_check_blocked, bind, hGet. cbn [h_name customer_loginH].
    now destruct (fl (HGET Hcustomer_login)). }
  rewrite login_check_blocked_eq in E3 by exact Hg.
  injection E3 as E3. cbn [Inputs.phone login_inputs] in E3.
  split; [exact Hwf|]. split; [exact Hc|].
  split; [eapply customer_by_phone_phone; eassumption|].
  split; [exact Hg|]. split; [exact E3|]. split; reflexivity.
Qed.

(** ** What each step after the gate can write *)

Lemma login_check_credentials_effect fl clk inputs c ty w :
  let w' := snd (login_check_credentials compareSync fl clk inputs c ty w) in
  w' = w \/ w' = update_hash otpH (delete (Customer.phone c)) w.
Proof.
  unfold login_check_credentials, bind, hGet, hDel_noack, ret, throw.
  cbn [h_name otpH].
  destruct ty; [now left|].
  destruct (fl (HGET Hotp)); [now left|].
  destruct (_ !! _) as [o|]; [|now left].
  destruct (Moment.isAfter _ _); [destruct (fl (HDEL Hotp)); cbn; auto|].
  destruct (_ && _); [destruct (fl (HDEL Hotp)); cbn; auto|now left].
Qed.

Lemma login_record_outcome_effect fl clk c st ok ty w :
  let w' := snd (login_record_outcome fl clk c st ok ty w) in
  w' = w \/
  (ok = false /\
   w' = update_hash customer_loginH
          (insert (Customer.phone c) (failed_attempt_status clk st)) w) \/
  (ok = true /\
   w' = update_hash customer_loginH (delete (Customer.phone c)) w).
Proof.
  unfold login_record_outcome, bind, hSet, hDel_noack, throw.
  cbn [h_name customer_loginH]. destruct ok; cbn [negb].
  - destruct (fl (HDEL Hcustomer_login)); cbn; auto.
  - destruct (fl (HSET Hcustomer_login)); cbn; [auto|].
    right. left. split; [reflexivity|]. now case_match.
Qed.

Lemma login_trust_device_effect fl inputs c w :
  let w' := snd (login_trust_device fl inputs c w) in
  redis w' = redis w /\
  customers_tbl (db w') = customers_tbl (db w) /\
  (devices_tbl (db w') = devices_tbl (db w) \/
   (Inputs.trust inputs = true /\
    devices_tbl (db w')
    = (devices_tbl (db w)
       ++ [Device.mk (Customer.id c)
             (default "" (Inputs.deviceId inputs))])%list)).
Proof.
  unfold login_trust_device, fetchDB, ret.
  destruct (Inputs.trust inputs); cbn [negb]; [|auto].
  destruct (fl (QUERY devices_create)); cbn; auto.
Qed.

Lemma login_delete_old_token_effect fl c w :
  let w' := snd (login_delete_old_token fl c w) in
  db w' = db w /\ otp (redis w') = otp (redis w) /\
  customer_login (redis w') = customer_login (redis w).
Proof.
  unfold login_delete_old_token, bind, hGet, hDel_noack, ret.
  destruct (fl (HGET _)); [auto|].
  destruct (Js.truthy _); [|auto].
  destruct (fl (HDEL _)); cbn; auto.
Qed.

Lemma login_save_token_effect fl clk token c w :
  let w' := snd (login_save_token fl clk token c w) in
  db w' = db w /\ otp (redis w') = otp (redis w) /\
  customer_login (redis w') = customer_login (redis w).
Proof.
  unfold login_save_token, bind, hSet.
  destruct (fl (HSET (h_name customersH))); [auto|].
  destruct (fl (HSET (h_name tokensH))); cbn; auto.
Qed.

(** ** A login touches the records of its own phone number only *)

Lemma own_records_only_refl phone w : own_records_only phone w w.
Proof.
  unfold own_records_only. repeat split; try reflexivity.
  exists []. now rewrite app_nil_r.
Qed.

Lemma own_records_only_trans phone w1 w2 w3 :
  own_records_only phone w1 w2 -> own_records_only phone w2 w3 ->
  own_records_only phone w1 w3.
Proof.
  intros (Ht & (m & Hd) & Ho & Hl) (Ht' & (m' & Hd') & Ho' & Hl').
  unfold own_records_only. repeat split.
  - congruence.
  - exists (m ++ m')%list. now rewrite Hd', Hd, <- app_assoc.
  - intros q Hq. now rewrite Ho', Ho.
  - intros q Hq. now rewrite Hl', Hl.
Qed.

Lemma after_gate_own_records_only fl clk token inputs c st ty w :
  own_records_only (Customer.phone c) w
    (snd (after_gate fl clk token inputs c st ty w)).
Proof.
  unfold login_after_gate.
  apply (bind_post _ _ (own_records_only (Customer.phone c) w)).
  { destruct (login_check_credentials_effect fl clk inputs c ty w)
      as [->| ->]; [apply own_records_only_refl|].
    unfold own_records_only. cbn. repeat split; try reflexivity.
    - exists []. now rewrite app_nil_r.
    - intros q Hq. now rewrite lookup_delete_ne. }
  intros ok w1 H1. apply bind_post.
  { eapply own_records_only_trans; [exact H1|].
    destruct (login_record_outcome_effect fl clk c st ok ty w1)
      as [-> | [[_ ->] | [_ ->]]]; [apply own_records_only_refl|..];
      unfold own_records_only; cbn; repeat split; try reflexivity;
      try (exists []; now rewrite app_nil_r); intros q Hq.
    - now rewrite lookup_insert_ne.
    - now rewrite lookup_delete_ne. }
  intros _ w2 H2. apply bind_post.
  { eapply own_records_only_trans; [exact H2|].
    destruct (login_trust_device_effect fl inputs c w2) as (Hr & Ht & Hd).
    unfold own_records_only. rewrite Hr, Ht. repeat split; try reflexivity.
    destruct Hd as [-> | [_ ->]]; [exists []; now rewrite app_nil_r|].
    eauto. }
  intros _ w3 H3. apply bind_post.
  { eapply own_records_only_trans; [exact H3|].
    destruct (login_delete_old_token_effect fl c w3) as (Hd & Ho & Hl).
    unfold own_records_only. rewrite Hd, Ho, Hl.
    repeat split; try reflexivity. exists []. now rewrite app_nil_r. }
  intros _ w4 H4. apply bind_post.
  { eapply own_records_only_trans; [exact H4|].
    destruct (login_save_token_effect fl clk token c w4) as (Hd & Ho & Hl).
    unfold own_records_only. rewrite Hd, Ho, Hl.
    repeat split; try reflexivity. exists []. now rewrite app_nil_r. }
  intros _ w5 H5. exact H5.
Qed.

(** X7.  Whatever its outcome and whatever calls fail, a login request
    never changes the customers table, never removes a trusted device, and
    leaves the one-time code and the lockout record of every other phone
    number as they were. *)
Theorem login_touches_own_records_only fl clk token req w :
  own_records_only (phone_key req) w (snd (login fl clk token req w)).
Proof.
  destruct (login_cases fl clk token req w)
    as [[e ->] | (c & st & ty & _ & _ & Hp & _ & _ & _ & ->)].
  - apply own_records_only_refl.
  - rewrite <- Hp. apply after_gate_own_records_only.
Qed.

(** ** Failed attempts *)

(** X1.  A failed credential check for a phone number without a lockout
    record is answered with the plain failure and leaves exactly one trace:
    the record of that phone number, with the instant of the attempt, no
    cool-down and no block. *)
Theorem first_failure_only_warns fl clk token req w :
  fst (check fl clk req w) = inr false ->
  lockout_store_up fl ->
  customer_login (redis w) !! phone_key req = None ->
  Failed (fst (login fl clk token req w)) /\
  snd (login fl clk token req w)
  = update_hash customer_loginH
      (insert (phone_key req) (Status.mk (Some (at_stamp clk)) 0 false)) w.
Proof.
  intros Hch Hup Hnone.
  destruct (login_failed_attempt compareSync is_phone_number fl clk token
              req w Status.empty Hch Hup) as [Hw Hr].
  { now rewrite Hnone. }
  cbn in Hr. split; [exact Hr|exact Hw].
Qed.

(** X2.  Once the minute of a block is over, a failed credential check is
    treated as a first failure: the answer is the plain failure, and the
    blocking record is replaced by one with the instant of the attempt, no
    cool-down and no block. *)
Theorem failure_after_block_starts_afresh fl clk token req w st last :
  fst (check fl clk req w) = inr false ->
  lockout_store_up fl ->
  customer_login (redis w) !! phone_key req = Some st ->
  Status.is_blocked st = true ->
  Status.last_login_attempt st = Some last ->
  last + 60000 <= at_block_check clk ->
  Failed (fst (login fl clk token req w)) /\
  snd (login fl clk token req w)
  = update_hash customer_loginH
      (insert (phone_key req) (Status.mk (Some (at_stamp clk)) 0 false)) w.
Proof.
  intros Hch Hup Hst Hb Hl Hover.
  destruct (login_failed_attempt compareSync is_phone_number fl clk token
              req w (Status.mk None (Status.safe_login_after st) false)
              Hch Hup) as [Hw Hr].
  { rewrite Hst. cbn. rewrite Hb, Hl.
    unfold Moment.isBefore, Moment.add_minutes.
    now rewrite (proj2 (Z.ltb_ge _ _)) by lia. }
  cbn in Hr. split; [exact Hr|exact Hw].
Qed.

(** X6.  A failed credential check that comes a minute or more after the
    previous failure never blocks, whatever the cool-down on record: the
    answer is the plain failure and the new record has no cool-down. *)
Theorem failure_a_minute_later_never_blocks fl clk token req w st last :
  fst (check fl clk req w) = inr false ->
  lockout_store_up fl ->
  customer_login (redis w) !! phone_key req = Some st ->
  Status.is_blocked st = false ->
  Status.last_login_attempt st = Some last ->
  Status.safe_login_after st <= 60 ->
  last + 60000 <= at_rapid_check clk ->
  at_rapid_check clk <= at_elapsed clk ->
  Failed (fst (login fl clk token req w)) /\
  snd (login fl clk token req w)
  = update_hash customer_loginH
      (insert (phone_key req) (Status.mk (Some (at_stamp clk)) 0 false)) w.
Proof.
  intros Hch Hup Hst Hb Hl Hsafe Hlate Hmono.
  destruct (login_failed_attempt compareSync is_phone_number fl clk token
              req w st Hch Hup) as [Hw Hr].
  { rewrite Hst. cbn. now rewrite Hb. }
  assert (Hst' : failed_attempt_status clk st
                 = Status.mk (Some (at_stamp clk)) 0 false).
  { unfold failed_attempt_status. rewrite Hl, Hb.
    unfold Moment.isBefore, Moment.add_seconds, Moment.diff_seconds.
    rewrite (proj2 (Z.ltb_ge _ _)) by lia. cbn.
    f_equal. rewrite Z.quot_div_nonneg by lia.
    assert (60 <= (at_elapsed clk - last) / 1000)
      by (apply Z.div_le_lower_bound; lia).
    lia. }
  rewrite Hst' in Hw, Hr. cbn in Hr. split; [exact Hr|exact Hw].
Qed.

(** ** One-time codes that do not match *)

Lemma login_check_credentials_mismatch fl clk inputs c w o :
  fl (HGET Hotp) = None ->
  otp (redis w) !! Customer.phone c = Some o ->
  at_otp_expired clk <= Otp.expiresAt o ->
  Js.parseInt (default "" (Inputs.otp inputs)) <> Some (Otp.code o) \/
  Otp.expiresAt o <= at_otp_valid clk ->
  login_check_credentials compareSync fl clk inputs c otp_login w
  = (inr false, w).
Proof.
  intros Hg Ho Hle Hwrong.
  unfold login_check_credentials, bind at 1, hGet.
  cbn [h_name h_get otpH]. rewrite Hg, Ho.
  unfold Moment.isAfter, Moment.isBefore.
  rewrite (proj2 (Z.ltb_ge _ _)) by lia.
  destruct Hwrong as [Hne|Hat].
  - now rewrite bool_decide_eq_false_2.
  - rewrite (proj2 (Z.ltb_ge _ _)) by lia. now rewrite andb_false_r.
Qed.

(** X8.  A login by one-time code whose submitted code does not parse to
    the stored one (or that comes at the very instant of expiry) leaves the
    stored code where it is; it counts as a failed attempt, answered
    WRONG_OTP, or USER_BLOCKED when it comes inside the cool-down. *)
Theorem wrong_otp_keeps_the_code fl clk token req w o :
  fst (method fl clk req w) = inr otp_login ->
  fl (HGET Hotp) = None ->
  fl (HSET Hcustomer_login) = None ->
  otp (redis w) !! phone_key req = Some o ->
  at_otp_expired clk <= Otp.expiresAt o ->
  Js.parseInt (default "" (Js.trim <$> body_otp req)) <> Some (Otp.code o) \/
  Otp.expiresAt o <= at_otp_valid clk ->
  (fst (login fl clk token req w) = inl WRONG_OTP \/
   fst (login fl clk token req w) = inl (USER_BLOCKED 60)) /\
  otp (redis (snd (login fl clk token req w))) = otp (redis w) /\
  is_Some (customer_login (redis (snd (login fl clk token req w)))
             !! phone_key req).
Proof.
  intros Hm Hg Hs Ho Hle Hwrong.
  destruct (login_method_inv is_phone_number _ _ _ _ _ Hm)
    as (inputs & c & st & E1 & Hi & E2 & Hc & E3 & E4).
  pose proof (customer_by_phone_phone _ _ _ Hc) as Hcp.
  assert (E5 : login_check_credentials compareSync fl clk inputs c
                 otp_login w = (inr false, w)).
  { apply (login_check_credentials_mismatch fl clk inputs c w o);
      rewrite ?Hcp; try assumption. now subst inputs. }
  unfold loginCustomer.
  rewrite (bind_inr _ _ _ _ _ E1), (bind_inr _ _ _ _ _ E2),
    (bind_inr _ _ _ _ _ E3), (bind_inr _ _ _ _ _ E4),
    (bind_inr _ _ _ _ _ E5).
  erewrite bind_inl by (now apply login_record_outcome_failed).
  cbn [fst snd]. split; [|split].
  - destruct (Status.is_blocked _); auto.
  - reflexivity.
  - cbn. rewrite Hcp, lookup_insert_eq. eauto.
Qed.

(** ** Requests turned away before the gate *)

(** X15.  A login request that is malformed (phone number not accepted, or
    no device identifier) is answered with a validation error, and one for
    a phone number nobody registered with USER_NOT_FOUND; in both cases no
    store is changed, so neither counts as a failed attempt. *)
Theorem login_rejected_before_the_gate fl clk token req w :
  (~ well_formed req ->
   login fl clk token req w = (inl ValidationError, w)) /\
  (well_formed req ->
   fl (QUERY customers_getOneByPhone) = None ->
   customer_by_phone w (phone_key req) = None ->
   login fl clk token req w = (inl USER_NOT_FOUND, w)).
Proof.
  split.
  - intros Hbad. unfold loginCustomer. apply bind_inl.
    unfold login_validate, well_formed_login in *. fold (phone_key req).
    destruct (is_phone_number (phone_key req));
      destruct (Js.truthy (Js.trim <$> x_device_id req)); cbn;
      try reflexivity.
    now destruct Hbad.
  - intros Hwf Hq Hnone. unfold loginCustomer.
    rewrite (bind_inr _ _ _ _ _ (login_validate_ok is_phone_number req w Hwf)).
    apply bind_inl. unfold login_find_customer, bind, fetchDB.
    rewrite Hq. unfold customer_by_phone in Hnone. cbn in *.
    destruct (List.filter _ _); [now destruct w|discriminate].
Qed.

(** X16.  A login that passes the gate but lacks the credential of its
    method (no password from a device that is not trusted, no code from a
    trusted one) is answered with a validation error and changes no store:
    it is not recorded as a failed attempt. *)
Theorem login_without_credential_is_not_counted fl clk token req w c st :
  well_formed req ->
  fl (QUERY customers_getOneByPhone) = None ->
  fl (HGET Hcustomer_login) = None ->
  fl (QUERY devices_getOneByUid) = None ->
  customer_by_phone w (phone_key req) = Some c ->
  check_blocked clk (customer_login (redis w) !! phone_key req) = inr st ->
  (if trusted_device w (default "" (Js.trim <$> x_device_id req))
        (phone_key req)
   then Js.truthy (Js.trim <$> body_otp req)
   else Js.truthy (Js.trim <$> body_password req)) = false ->
  login fl clk token req w = (inl ValidationError, w).
Proof.
  intros Hwf Hq Hg Hd Hc Hgate Hmissing.
  unfold loginCustomer.
  rewrite (bind_inr _ _ _ _ _ (login_validate_ok is_phone_number req w Hwf)).
  erewrite bind_inr by (apply login_find_customer_ok; eassumption).
  erewrite bind_inr
    by (rewrite login_check_blocked_eq by assumption; cbn; now rewrite Hgate).
  apply bind_inl.
  unfold login_determine_type, bind, fetchDB. rewrite Hd.
  unfold trusted_device in Hmissing. cbn -[Nat.ltb] in *.
  destruct w as [d r]; cbn -[Nat.ltb] in *.
  destruct (0 <? _)%nat; now rewrite Hmissing.
Qed.

(** ** Valid credentials *)

Lemma credential_check_true_inv fl clk req w :
  fst (check fl clk req w) = inr true ->
  exists c ty w1,
    well_formed req /\
    customer_by_phone w (phone_key req) = Some c /\
    login_find_customer fl (login_inputs req) w = (inr c, w) /\
    login_determine_type fl (login_inputs req) w = (inr ty, w) /\
    login_check_credentials compareSync fl clk (login_inputs req) c ty w
    = (inr true, w1) /\
    (w1 = w \/ w1 = update_hash otpH (delete (phone_key req)) w).
Proof.
  destruct (check fl clk req w) as [r w4] eqn:E. cbn. intros ->.
  unfold credential_check in E.
  apply bind_inr_inv in E as (inputs & w1 & E1 & E).
  apply bind_inr_inv in E as (c & w2 & E2 & E).
  apply bind_inr_inv in E as (ty & w3 & E3 & E).
  destruct (login_validate_inv _ _ _ _ _ E1) as (Hwf & -> & Hi).
  fold (login_inputs req) in Hi. subst inputs.
  destruct (login_find_customer_inv _ _ _ _ _ E2) as (-> & Hc).
  destruct (login_determine_type_inv _ _ _ _ _ E3) as (-> & _).
  cbn [Inputs.phone login_inputs] in Hc.
  exists c, ty, w4. repeat split; try assumption; try apply Hwf.
  pose proof (login_check_credentials_effect fl clk (login_inputs req) c ty w)
    as Heff.
  rewrite E in Heff. cbn [snd] in Heff.
  now rewrite (customer_by_phone_phone _ _ _ Hc) in Heff.
Qed.

(** X3.  When every call goes through, a login that passes the gate with a
    valid credential succeeds and deletes the lockout record of its phone
    number, whatever failures were on record; this includes the first login
    after the minute of a block is over. *)
Theorem valid_login_resets_lockout clk token req w st :
  fst (check no_faults clk req w) = inr true ->
  check_blocked clk (customer_login (redis w) !! phone_key req) = inr st ->
  fst (login no_faults clk token req w) = inr token /\
  customer_login (redis (snd (login no_faults clk token req w)))
  = delete (phone_key req) (customer_login (redis w)).
Proof.
  intros Hch Hgate.
  destruct (credential_check_true_inv _ _ _ _ Hch)
    as (c & ty & w1 & Hwf & Hc & E2 & E4 & E5 & Hw1).
  pose proof (customer_by_phone_phone _ _ _ Hc) as Hcp.
  destruct (login_session_tail clk token (login_inputs req) c st ty w1) as (w' & Etail & _ & _ & _ & Hlogin).
  assert (E : login no_faults clk token req w = (inr token, w')).
  { unfold loginCustomer.
    rewrite (bind_inr _ _ _ _ _ (login_validate_ok is_phone_number req w Hwf)).
    fold (login_inputs req).
    rewrite (bind_inr _ _ _ _ _ E2).
    erewrite bind_inr
      by (rewrite login_check_blocked_eq by reflexivity; cbn;
          now rewrite Hgate).
    rewrite (bind_inr _ _ _ _ _ E4), (bind_inr _ _ _ _ _ E5).
    exact Etail. }
  rewrite E. cbn [fst snd]. split; [reflexivity|].
  rewrite Hlogin, Hcp. now destruct Hw1 as [-> | ->].
Qed.

(** ** The seconds left of a block *)

(** X4.  The seconds a USER_BLOCKED answer of the gate reports are at most
    60, provided the clock has not gone back behind the blocking attempt,
    and are not negative as long as the minute is not over when they are
    computed; they are 0 during the last second of the block. *)
Theorem still_blocked_time_left fl clk token req w c st last :
  well_formed req ->
  fl (QUERY customers_getOneByPhone) = None ->
  fl (HGET Hcustomer_login) = None ->
  customer_by_phone w (phone_key req) = Some c ->
  customer_login (redis w) !! phone_key req = Some st ->
  Status.is_blocked st = true ->
  Status.last_login_attempt st = Some last ->
  at_block_check clk < last + 60000 ->
  exists timeLeft,
    fst (login fl clk token req w) = inl (USER_BLOCKED timeLeft) /\
    (last <= at_time_left clk -> timeLeft <= 60) /\
    (at_time_left clk <= last + 60000 -> 0 <= timeLeft) /\
    (last + 59000 < at_time_left clk <= last + 60000 -> timeLeft = 0).
Proof.
  intros Hwf Hq Hg Hc Hst Hb Hl Hlt.
  exists (Z.quot (last + 60000 - at_time_left clk) 1000). split.
  - unfold loginCustomer.
    rewrite (bind_inr _ _ _ _ _ (login_validate_ok is_phone_number req w Hwf)).
    erewrite bind_inr by (apply login_find_customer_ok; eassumption).
    erewrite bind_inl; [reflexivity|].
    rewrite login_check_blocked_eq by assumption. cbn.
    rewrite Hst. cbn. rewrite Hb, Hl.
    unfold Moment.isBefore, Moment.add_minutes, Moment.diff_seconds.
    replace (last + 1 * 60000) with (last + 60000) by lia.
    now rewrite (proj2 (Z.ltb_lt _ _) Hlt).
  - split; [|split].
    + intros Hle.
      destruct (Z_le_gt_dec 0 (last + 60000 - at_time_left clk)).
      * rewrite Z.quot_div_nonneg by lia.
        apply Z.div_le_upper_bound; lia.
      * pose proof (Z.quot_opp_l (-(last + 60000 - at_time_left clk)) 1000
                      ltac:(lia)) as Ho.
        rewrite Z.opp_involutive in Ho. rewrite Ho.
        pose proof (Z.quot_pos (-(last + 60000 - at_time_left clk)) 1000
                      ltac:(lia) ltac:(lia)). lia.
    + intros Hle. apply Z.quot_pos; lia.
    + intros [H1 H2]. apply Z.quot_small. lia.
Qed.

(** ** The lockout records stay well formed *)

Lemma status_ok_later t t' st : t <= t' -> status_ok t st -> status_ok t' st.
Proof.
  intros Hle ((l & Hl & Hlt) & Hs & Hb). repeat split; try apply Hs; auto.
  exists l. split; [exact Hl|lia].
Qed.

Lemma check_blocked_last clk o st l :
  check_blocked clk o = inr st ->
  Status.last_login_attempt st = Some l ->
  exists s, o = Some s /\ Status.last_login_attempt s = Some l.
Proof.
  unfold check_blocked. destruct o as [s|]; [|now intros [= <-]].
  destruct (Status.is_blocked s).
  - destruct (Status.last_login_attempt s) as [l0|];
      [destruct (Moment.isBefore _ _); [discriminate|]|];
      intros [= <-]; cbn; discriminate.
  - intros [= <-] Hl. eauto.
Qed.

Lemma failed_attempt_status_ok clk st :
  Status.is_blocked st = false ->
  (forall l, Status.last_login_attempt st = Some l -> l <= at_elapsed clk) ->
  status_ok (at_stamp clk) (failed_attempt_status clk st).
Proof.
  intros Hb Hl. unfold failed_attempt_status, status_ok.
  destruct (Status.last_login_attempt st) as [l|] eqn:El.
  - specialize (Hl l eq_refl).
    destruct (Moment.isBefore _ _); cbn; rewrite ?Hb.
    + split; [exists (at_stamp clk); split; [reflexivity|lia]|].
      split; [lia|reflexivity].
    + unfold Moment.diff_seconds. rewrite Z.quot_div_nonneg by lia.
      pose proof (Z.div_pos (at_elapsed clk - l) 1000 ltac:(lia) ltac:(lia)).
      split; [exists (at_stamp clk); split; [reflexivity|lia]|].
      split; [lia|discriminate].
  - cbn. rewrite Hb.
    split; [exists (at_stamp clk); split; [reflexivity|lia]|].
    split; [lia|discriminate].
Qed.

Lemma after_gate_lockout fl clk token inputs c st ty w :
  let L := customer_login (redis w) in
  let L' := customer_login
              (redis (snd (after_gate fl clk token inputs c st ty w))) in
  L' = L \/
  L' = <[Customer.phone c := failed_attempt_status clk st]> L \/
  L' = delete (Customer.phone c) L.
Proof.
  intros L L'.
  set (P := fun w' : World =>
              customer_login (redis w') = L \/
              customer_login (redis w')
              = <[Customer.phone c := failed_attempt_status clk st]> L \/
              customer_login (redis w') = delete (Customer.phone c) L).
  enough (HP : P (snd (after_gate fl clk token inputs c st ty w)))
    by exact HP.
  clear L'. unfold login_after_gate.
  assert (Hkeep : forall w1 w2 : World,
            customer_login (redis w2) = customer_login (redis w1) ->
            P w1 -> P w2).
  { unfold P. intros w1 w2 ->. auto. }
  apply bind_post.
  { destruct (login_check_credentials_effect fl clk inputs c ty w)
      as [-> | ->]; left; reflexivity. }
  intros ok w1 H1. apply bind_post.
  { destruct (login_record_outcome_effect fl clk c st ok ty w1)
      as [-> | [[_ ->] | [_ ->]]]; [exact H1|..];
      destruct H1 as [H1 | [H1 | H1]]; unfold P; cbn; rewrite H1.
    - auto.
    - right; left. apply insert_insert_eq.
    - right; left. apply insert_delete_eq.
    - auto.
    - right; right. apply delete_insert_eq.
    - right; right. apply delete_delete_eq. }
  intros _ w2 H2. apply bind_post.
  { destruct (login_trust_device_effect fl inputs c w2) as (Hr & _).
    apply (Hkeep w2); [now rewrite Hr|exact H2]. }
  intros _ w3 H3. apply bind_post.
  { destruct (login_delete_old_token_effect fl c w3) as (_ & _ & Hl).
    now apply (Hkeep w3). }
  intros _ w4 H4. apply bind_post.
  { destruct (login_save_token_effect fl clk token c w4) as (_ & _ & Hl).
    now apply (Hkeep w4). }
  intros _ w5 H5. exact H5.
Qed.

(** X5.  A login keeps the lockout records well formed: if, up to an
    instant not after the request, every record carries the instant of its
    attempt, a cool-down between 0 and 60 seconds, and no cool-down when it
    blocks, then the same holds after the request, whatever its outcome and
    whatever calls fail. *)
Theorem login_keeps_lockout_records_well_formed fl clk token req w t :
  lockout_ok t w ->
  t <= at_elapsed clk ->
  at_elapsed clk <= at_stamp clk ->
  lockout_ok (at_stamp clk) (snd (login fl clk token req w)).
Proof.
  intros Hok Ht Hmono.
  assert (Hlater : lockout_ok (at_stamp clk) w).
  { intros q s Hq. apply (status_ok_later t); [lia|]. exact (Hok q s Hq). }
  destruct (login_cases fl clk token req w)
    as [[e ->] | (c & st & ty & _ & _ & Hp & _ & Hgate & _ & ->)];
    [exact Hlater|].
  pose proof (after_gate_lockout fl clk token (login_inputs req) c st ty w)
    as HL. cbn zeta in HL.
  intros q s. destruct HL as [-> | [-> | ->]].
  - apply Hlater.
  - destruct (decide (Customer.phone c = q)) as [<-|Hne].
    + rewrite lookup_insert_eq. intros [= <-].
      apply failed_attempt_status_ok.
      * eapply check_blocked_not_blocked; eassumption.
      * intros l Hl.
        destruct (check_blocked_last _ _ _ _ Hgate Hl) as (s0 & Hs0 & Hl0).
        destruct (Hok _ _ Hs0) as ((l' & Hl' & Hle) & _). 
        rewrite Hl0 in Hl'. injection Hl' as <-. lia.
    + rewrite lookup_insert_ne by exact Hne. apply Hlater.
  - intros Hq. apply lookup_delete_Some in Hq as [_ Hq].
    exact (Hlater _ _ Hq).
Qed.

(** ** Writing a number and parsing it back *)

Lemma is_digit_plain a :
  is_digit a = true ->
  Js.is_space a = false /\ a <> "-"%char /\ a <> "+"%char /\
  a <> "x"%char /\ a <> "X"%char.
Proof.
  destruct a as [[] [] [] [] [] [] [] []]; vm_compute;
    intros H; try discriminate H; repeat split; discriminate.
Qed.

Lemma digit_pretty_N_char m :
  (m < 10)%N -> Js.digit 10 (pretty_N_char m) = Some (Z.of_N m).
Proof.
  intros Hm.
  assert (m = 0 \/ m = 1 \/ m = 2 \/ m = 3 \/ m = 4 \/ m = 5 \/ m = 6 \/
          m = 7 \/ m = 8 \/ m = 9)%N as Hcases by lia.
  repeat (destruct Hcases as [-> | Hcases]; [reflexivity|]).
  now subst m.
Qed.

Lemma all_digits_pretty_N_go x s :
  all_digits s = true -> all_digits (pretty_N_go x s) = true.
Proof.
  revert s. induction (N.lt_wf_0 x) as [x _ IH]. intros s Hs.
  destruct (N.eq_dec x 0%N) as [-> | Hx]; [now rewrite pretty_N_go_0|].
  rewrite pretty_N_go_step by lia. apply IH.
  - apply N.div_lt; lia.
  - cbn. rewrite Hs, andb_true_r. unfold is_digit.
    rewrite digit_pretty_N_char; [reflexivity|]. apply N.mod_lt. lia.
Qed.

Lemma digits_pretty_N_go x s acc :
  (0 < x)%N ->
  exists k : Z,
    0 <= k /\
    Js.digits 10 acc (pretty_N_go x s)
    = Js.digits 10 (Some (default 0 acc * 10 ^ k + Z.of_N x)) s.
Proof.
  revert s acc. induction (N.lt_wf_0 x) as [x _ IH]. intros s acc Hx.
  rewrite pretty_N_go_step by exact Hx.
  assert (Hd : Js.digit 10 (pretty_N_char (x `mod` 10)%N)
               = Some (Z.of_N (x `mod` 10)%N))
    by (apply digit_pretty_N_char, N.mod_lt; lia).
  pose proof (N.div_mod x 10%N ltac:(lia)) as Hdm.
  destruct (N.eq_dec (x `div` 10)%N 0%N) as [Hz | Hnz].
  - rewrite Hz, pretty_N_go_0. cbn [Js.digits]. rewrite Hd.
    exists 1. split; [lia|]. do 2 f_equal. lia.
  - assert (Hlt : (x `div` 10 < x)%N) by (apply N.div_lt; lia).
    assert (Hpos : (0 < x `div` 10)%N) by now apply N.neq_0_lt_0.
    destruct (IH _ Hlt (String (pretty_N_char (x `mod` 10)%N) s) acc Hpos)
      as (k & Hk & ->).
    cbn [Js.digits]. rewrite Hd. exists (k + 1). split; [lia|].
    do 2 f_equal. cbn [default]. rewrite Z.pow_add_r by lia.
    assert (HZ : Z.of_N x
                 = 10 * Z.of_N (x `div` 10)%N + Z.of_N (x `mod` 10)%N)
      by lia.
    rewrite HZ, Z.pow_1_r. unfold id. ring.
Qed.

Lemma pretty_nonneg_all_digits n :
  0 <= n -> all_digits (pretty n) = true /\ pretty n <> "".
Proof.
  intros Hn. destruct n as [|p|p]; [now split| |lia].
  unfold pretty, pretty_Z, pretty, pretty_positive, pretty, pretty_N.
  destruct (decide (N.pos p = 0%N)); [discriminate|].
  split; [now apply all_digits_pretty_N_go|].
  rewrite pretty_N_go_step by lia. intros Heq.
  apply (f_equal String.length) in Heq.
  assert (Hlen : forall x s, (String.length s
                              <= String.length (pretty_N_go x s))%nat).
  { intros x. induction (N.lt_wf_0 x) as [x _ IH]. intros s.
    destruct (N.eq_dec x 0%N) as [-> | Hx]; [now rewrite pretty_N_go_0|].
    rewrite pretty_N_go_step by lia.
    etrans; [|apply IH, N.div_lt; lia]. cbn. lia. }
  specialize (Hlen (N.pos p `div` 10)%N
                (String (pretty_N_char (N.pos p `mod` 10)%N) "")).
  cbn in Hlen, Heq. lia.
Qed.

Lemma trimStart_all_digits s : all_digits s = true -> Js.trimStart s = s.
Proof.
  destruct s as [|a r]; [reflexivity|]. cbn. intros H.
  apply andb_true_iff in H as [Ha _].
  now destruct (is_digit_plain a Ha) as (-> & _).
Qed.

Lemma rev_app_rev_app s1 s2 s3 :
  String.rev_app (String.rev_app s1 s2) s3
  = String.rev_app s2 (String.app s1 s3).
Proof.
  revert s2 s3. induction s1 as [|a s1 IH]; intros s2 s3; [reflexivity|].
  cbn. now rewrite IH.
Qed.

Lemma string_app_empty s : String.app s "" = s.
Proof.
  induction s as [|a s IH]; [reflexivity|].
  change (String a (String.app s "") = String a s). now rewrite IH.
Qed.

Lemma string_rev_involutive s : String.rev (String.rev s) = s.
Proof.
  unfold String.rev. rewrite rev_app_rev_app. cbn.
  apply string_app_empty.
Qed.

Lemma all_digits_rev_app s1 s2 :
  all_digits s1 = true -> all_digits s2 = true ->
  all_digits (String.rev_app s1 s2) = true.
Proof.
  revert s2. induction s1 as [|a s1 IH]; intros s2 H1 H2; [exact H2|].
  cbn in *. apply andb_true_iff in H1 as [Ha H1].
  apply IH; [exact H1|]. cbn. now rewrite Ha, H2.
Qed.

Lemma trim_all_digits s : all_digits s = true -> Js.trim s = s.
Proof.
  intros H. unfold Js.trim. rewrite (trimStart_all_digits s H).
  rewrite trimStart_all_digits
    by (now apply all_digits_rev_app).
  apply string_rev_involutive.
Qed.

Lemma parseInt_all_digits s :
  all_digits s = true -> Js.parseInt s = Js.digits 10 None s.
Proof.
  intros H. unfold Js.parseInt. rewrite (trimStart_all_digits s H).
  destruct s as [|a r]; [reflexivity|].
  cbn in H. apply andb_true_iff in H as [Ha Hr].
  destruct (is_digit_plain a Ha) as (_ & Hm & Hp & _).
  assert (Hsign : match String a r with
                  | String "-"%char r0 => (true, r0)
                  | String "+"%char r0 => (false, r0)
                  | _ => (false, String a r)
                  end = (false, String a r)).
  { destruct a as [[] [] [] [] [] [] [] []]; try reflexivity;
      congruence. }
  rewrite Hsign.
  assert (Hradix : match String a r with
                   | String "0"%char (String "x"%char r0) => (16, r0)
                   | String "0"%char (String "X"%char r0) => (16, r0)
                   | _ => (10, String a r)
                   end = (10, String a r)).
  { destruct r as [|b r']; [now destruct a as [[] [] [] [] [] [] [] []]|].
    cbn in Hr. apply andb_true_iff in Hr as [Hb _].
    destruct (is_digit_plain b Hb) as (_ & _ & _ & Hx & HX).
    destruct a as [[] [] [] [] [] [] [] []]; try reflexivity;
      destruct b as [[] [] [] [] [] [] [] []]; try reflexivity; congruence. }
  rewrite Hradix. now destruct (Js.digits 10 None (String a r)).
Qed.

(** The decimal digits of a non-negative number, trimmed and parsed, give
    the number back. *)
Lemma parseInt_toString n :
  0 <= n -> Js.parseInt (Js.trim (pretty n)) = Some n.
Proof.
  intros Hn. destruct (pretty_nonneg_all_digits n Hn) as [Hd _].
  rewrite (trim_all_digits _ Hd), (parseInt_all_digits _ Hd).
  destruct n as [|p|p]; [reflexivity| |lia].
  unfold pretty, pretty_Z, pretty, pretty_positive, pretty, pretty_N.
  destruct (decide (N.pos p = 0%N)); [discriminate|].
  destruct (digits_pretty_N_go (N.pos p) "" None ltac:(lia))
    as (k & _ & ->).
  cbn. reflexivity.
Qed.

(** ** From the login-method query to the login *)

Lemma login_validate_any req w w0 :
  login_validate is_phone_number req w
  = (fst (login_validate is_phone_number req w0), w).
Proof. unfold login_validate, ret, throw. now destruct (_ && _). Qed.

Lemma login_find_customer_db fl inputs w w0 :
  db w = db w0 ->
  login_find_customer fl inputs w
  = (fst (login_find_customer fl inputs w0), w).
Proof.
  intros Hdb. unfold login_find_customer, bind, fetchDB, ret, throw.
  destruct (fl _); [reflexivity|]. rewrite Hdb.
  cbn [Queries.getOneByPhone]. rewrite <- Hdb.
  destruct w as [d r]; cbn [db redis].
  now destruct (List.filter _ _).
Qed.

Lemma login_check_blocked_same fl clk inputs w w0 :
  customer_login (redis w) = customer_login (redis w0) ->
  login_check_blocked fl clk inputs w
  = (fst (login_check_blocked fl clk inputs w0), w).
Proof.
  intros Hl. unfold login_check_blocked, bind, hGet, callback.
  cbn [h_name h_get customer_loginH]. rewrite Hl.
  now destruct (fl _).
Qed.

Lemma login_determine_type_db fl inputs w w0 :
  db w = db w0 ->
  login_determine_type fl inputs w
  = (fst (login_determine_type fl inputs w0), w).
Proof.
  intros Hdb. unfold login_determine_type, bind, fetchDB, ret, throw.
  destruct (fl _); [reflexivity|]. rewrite Hdb.
  cbn [Queries.getOneByUid]. rewrite <- Hdb.
  destruct w as [d r]; cbn [db redis].
  now destruct (match (if (0 <? _)%nat then _ else _) with
                | password_login => _ | otp_login => _ end).
Qed.

(** The choice of the method reads the tables and the lockout hash
    only. *)
Lemma method_frame fl clk req w w' :
  db w' = db w ->
  customer_login (redis w') = customer_login (redis w) ->
  fst (method fl clk req w') = fst (method fl clk req w).
Proof.
  intros Hdb Hl. unfold login_method, bind.
  rewrite (login_validate_any req w' w).
  rewrite (login_validate_any req w w) at 2. cbn [fst].
  destruct (fst (login_validate is_phone_number req w)) as [e|inputs];
    [reflexivity|].
  rewrite (login_find_customer_db fl inputs w' w Hdb).
  rewrite (login_find_customer_db fl inputs w w eq_refl) at 2. cbn [fst].
  destruct (fst (login_find_customer fl inputs w)) as [e|c]; [reflexivity|].
  rewrite (login_check_blocked_same fl clk inputs w' w Hl).
  rewrite (login_check_blocked_same fl clk inputs w w eq_refl) at 2.
  cbn [fst].
  destruct (fst (login_check_blocked fl clk inputs w)) as [e|st];
    [reflexivity|].
  rewrite (login_determine_type_db fl inputs w' w Hdb).
  rewrite (login_determine_type_db fl inputs w w eq_refl) at 2.
  reflexivity.
Qed.

Lemma getlogin_answers_otp fl clk code req w :
  fst (getlogin fl clk code req w) = inr (LoginMethods.mk false true) ->
  snd (getlogin fl clk code req w)
  = update_hash otpH
      (insert (phone_key req)
         (Otp.mk code (Moment.add_minutes (at_issue clk) 2))) w.
Proof.
  unfold getCustomerLoginType, getlogin_validate, getlogin_check_exists,
    getlogin_decide, bind, fetchDB, hSet, ret, throw.
  fold (phone_key req). cbn [Inputs.phone Inputs.deviceId h_name otpH].
  destruct (is_phone_number (phone_key req)); [|discriminate].
  destruct (fl (QUERY customers_getOneByPhone)); [discriminate|].
  cbn [Queries.getOneByPhone]. destruct w as [d r]; cbn [db redis].
  destruct (length _ =? 0)%nat; [discriminate|].
  destruct (negb _); [discriminate|].
  destruct (fl (QUERY devices_getOneByUid)); [discriminate|].
  cbn [Queries.getOneByUid db redis].
  destruct (length _ =? 0)%nat; [discriminate|].
  now destruct (fl (HSET Hotp)).
Qed.

Lemma getlogin_of_trusted_device clk code req w :
  is_phone_number (phone_key req) = true ->
  is_Some (customer_by_phone w (phone_key req)) ->
  Js.truthy (Js.trim <$> x_device_id req) = true ->
  trusted_device w (default "" (Js.trim <$> x_device_id req)) (phone_key req)
  = true ->
  fst (getlogin no_faults clk code req w) = inr (LoginMethods.mk false true).
Proof.
  intros Hp [c Hc] Hd Ht.
  unfold getCustomerLoginType, getlogin_validate. fold (phone_key req).
  rewrite Hp. unfold bind at 1, ret at 1.
  unfold bind at 1, getlogin_check_exists, bind at 1, fetchDB.
  cbn [no_faults]. unfold customer_by_phone in Hc.
  destruct (Queries.getOneByPhone (phone_key req) (db w)) as [rows d] eqn:Eq.
  assert (d = db w) by (now injection Eq). subst d.
  cbn [Inputs.phone]. rewrite Eq. cbn [fst] in Hc.
  destruct rows as [|c0 rows]; [discriminate|]. cbn [length Nat.eqb ret].
  unfold getlogin_decide. cbn [Inputs.deviceId Inputs.phone].
  rewrite Hd. cbn [negb].
  unfold bind at 1, fetchDB. cbn [no_faults]. unfold trusted_device in Ht.
  destruct w as [d r]. cbn [db fst Queries.getOneByUid] in *.
  destruct (List.filter _ (devices_tbl d)) as [|dv dvs]; [discriminate|].
  reflexivity.
Qed.

(** A login by one-time code with the stored code, before its expiry. *)
Lemma login_with_stored_code clk token req w o :
  fst (method no_faults clk req w) = inr otp_login ->
  otp (redis w) !! phone_key req = Some o ->
  Js.parseInt (default "" (Js.trim <$> body_otp req)) = Some (Otp.code o) ->
  at_otp_expired clk <= at_otp_valid clk ->
  at_otp_valid clk < Otp.expiresAt o ->
  fst (login no_faults clk token req w) = inr token /\
  otp (redis (snd (login no_faults clk token req w))) !! phone_key req = None.
Proof.
  intros Hm Ho Hcode Hle Hlt.
  destruct (login_method_inv is_phone_number _ _ _ _ _ Hm)
    as (inputs & c & st & E1 & Hi & E2 & Hc & E3 & E4).
  pose proof (customer_by_phone_phone _ _ _ Hc) as Hcp.
  assert (E5 : login_check_credentials compareSync no_faults clk inputs c
                 otp_login w
               = (inr true, update_hash otpH (delete (phone_key req)) w)).
  { rewrite <- Hcp.
    apply (login_check_credentials_valid compareSync no_faults clk inputs
             c w o); try assumption; try reflexivity;
      rewrite ?Hcp; subst inputs; assumption. }
  destruct (login_session_tail clk token inputs c st otp_login
              (update_hash otpH (delete (phone_key req)) w))
    as (w1 & Etail & _ & _ & Hotp1 & _).
  assert (E : login no_faults clk token req w = (inr token, w1)).
  { unfold loginCustomer.
    rewrite (bind_inr _ _ _ _ _ E1), (bind_inr _ _ _ _ _ E2),
      (bind_inr _ _ _ _ _ E3), (bind_inr _ _ _ _ _ E4),
      (bind_inr _ _ _ _ _ E5).
    exact Etail. }
  rewrite E. cbn [fst snd]. split; [reflexivity|].
  rewrite Hotp1. cbn. apply lookup_delete_eq.
Qed.

Lemma issued_code_logs_in_base clk0 clk code token ask req w :
  fst (getlogin no_faults clk0 code ask w)
  = inr (LoginMethods.mk false true) ->
  phone_key ask = phone_key req ->
  fst (method no_faults clk req w) = inr otp_login ->
  Js.parseInt (default "" (Js.trim <$> body_otp req)) = Some code ->
  at_otp_expired clk <= at_otp_valid clk ->
  at_otp_valid clk < at_issue clk0 + 120000 ->
  let w1 := snd (getlogin no_faults clk0 code ask w) in
  fst (login no_faults clk token req w1) = inr token /\
  otp (redis (snd (login no_faults clk token req w1))) !! phone_key req
  = None.
Proof.
  intros Hq Hp Hm Hcode Hle Hlt w1. subst w1.
  rewrite (getlogin_answers_otp _ _ _ _ _ Hq), Hp.
  apply (login_with_stored_code clk token req _
           (Otp.mk code (Moment.add_minutes (at_issue clk0) 2))).
  - now rewrite (method_frame no_faults clk req w).
  - cbn. apply lookup_insert_eq.
  - exact Hcode.
  - exact Hle.
  - cbn. unfold Moment.add_minutes. lia.
Qed.

(** X9.  When the login-method query has answered otp for a phone number,
    a login by one-time code for that number that is let through the gate,
    carries a code parsing to the one the query generated, and comes less
    than two minutes after the query, succeeds; the code is gone
    afterwards. *)
Theorem issued_code_logs_in clk0 clk code token ask req w :
  let w1 := snd (getlogin no_faults clk0 code ask w) in
  fst (getlogin no_faults clk0 code ask w)
  = inr (LoginMethods.mk false true) ->
  phone_key ask = phone_key req ->
  fst (method no_faults clk req w) = inr otp_login ->
  Js.parseInt (default "" (Js.trim <$> body_otp req)) = Some code ->
  at_otp_expired clk <= at_otp_valid clk ->
  at_otp_valid clk < at_issue clk0 + 120000 ->
  fst (login no_faults clk token req w1) = inr token /\
  otp (redis (snd (login no_faults clk token req w1))) !! phone_key req
  = None.
Proof.
  intros w1 Hq Hp Hm Hcode Hle Hlt.
  now apply (issued_code_logs_in_base clk0 clk code token ask req w).
Qed.

(** X10.  The text the OTP getter sends after the login-method query has
    answered otp is the code the query generated; submitted as it is, less
    than two minutes after the query, from a trusted device that the gate
    lets through, it logs the customer in. *)
Theorem code_read_from_the_getter_logs_in clk0 clk code token ask sms req w :
  let w1 := snd (getlogin no_faults clk0 code ask w) in
  let sent := fst (getOtpFromSMS no_faults sms w1) in
  fst (getlogin no_faults clk0 code ask w)
  = inr (LoginMethods.mk false true) ->
  0 <= code ->
  params_phone sms = phone_key ask ->
  phone_key ask = phone_key req ->
  body_otp req = Some sent ->
  fst (method no_faults clk req w) = inr otp_login ->
  at_otp_expired clk <= at_otp_valid clk ->
  at_otp_valid clk < at_issue clk0 + 120000 ->
  sent = pretty code /\
  snd (getOtpFromSMS no_faults sms w1) = w1 /\
  fst (login no_faults clk token req w1) = inr token.
Proof.
  intros w1 sent Hq Hcode Hsms Hp Hotp Hm Hle Hlt.
  assert (Hsent : sent = pretty code /\ snd (getOtpFromSMS no_faults sms w1) = w1).
  { subst sent w1. rewrite (getlogin_answers_otp _ _ _ _ _ Hq).
    unfold getOtpFromSMS, hGet. cbn [no_faults h_get otpH].
    rewrite Hsms. cbn. now rewrite lookup_insert_eq. }
  destruct Hsent as [Hsent Hsame]. split; [exact Hsent|].
  split; [exact Hsame|].
  apply (issued_code_logs_in_base clk0 clk code token ask req w);
    try assumption.
  rewrite Hotp, Hsent. cbn. now apply parseInt_toString.
Qed.

(** ** Trusting a device at login *)

Lemma login_trust_device_success fl inputs c w w' :
  login_trust_device fl inputs c w = (inr tt, w') ->
  redis w' = redis w /\
  customers_tbl (db w') = customers_tbl (db w) /\
  devices_tbl (db w')
  = (devices_tbl (db w)
     ++ (if Inputs.trust inputs
         then [Device.mk (Customer.id c)
                 (default "" (Inputs.deviceId inputs))]
         else []))%list.
Proof.
  unfold login_trust_device, fetchDB, ret.
  destruct (Inputs.trust inputs); cbn [negb].
  - destruct (fl (QUERY devices_create)); [discriminate|].
    cbn. now intros [= <-].
  - intros [= <-]. now rewrite app_nil_r.
Qed.

Lemma login_record_outcome_success fl clk c st ok ty w w' :
  login_record_outcome fl clk c st ok ty w = (inr tt, w') ->
  ok = true /\ db w' = db w.
Proof.
  unfold login_record_outcome, bind, hSet, hDel_noack, throw.
  destruct ok; cbn [negb].
  - destruct (fl (HDEL _)); now intros [= <-].
  - destruct (fl (HSET _)); [discriminate|]. now case_match.
Qed.

(** What a successful login has done to the tables. *)
Lemma login_success_tables fl clk token req w tok w' :
  login fl clk token req w = (inr tok, w') ->
  exists c,
    well_formed req /\
    customer_by_phone w (phone_key req) = Some c /\
    customers_tbl (db w') = customers_tbl (db w) /\
    devices_tbl (db w')
    = (devices_tbl (db w)
       ++ (if default false (body_trust req)
           then [Device.mk (Customer.id c)
                   (default "" (Js.trim <$> x_device_id req))]
           else []))%list.
Proof.
  intros E.
  destruct (login_cases fl clk token req w)
    as [[e E'] | (c & st & ty & Hwf & Hc & Hp & _ & _ & _ & E')];
    rewrite E' in E; [discriminate|].
  exists c. split; [exact Hwf|]. split; [exact Hc|].
  unfold login_after_gate in E.
  apply bind_inr_inv in E as (ok & w1 & E1 & E).
  apply bind_inr_inv in E as ([] & w2 & E2 & E).
  apply bind_inr_inv in E as ([] & w3 & E3 & E).
  apply bind_inr_inv in E as ([] & w4 & E4 & E).
  apply bind_inr_inv in E as ([] & w5 & E5 & E).
  injection E as _ <-.
  assert (H1 : db w1 = db w).
  { pose proof (login_check_credentials_effect fl clk (login_inputs req) c
                  ty w) as Heff.
    rewrite E1 in Heff. cbn in Heff. now destruct Heff as [-> | ->]. }
  destruct (login_record_outcome_success _ _ _ _ _ _ _ _ E2) as [_ H2].
  destruct (login_trust_device_success _ _ _ _ _ E3) as (_ & H3t & H3d).
  pose proof (login_delete_old_token_effect fl c w3) as (H4 & _).
  pose proof (login_save_token_effect fl clk token c w4) as (H5 & _).
  rewrite E4 in H4. rewrite E5 in H5. cbn [snd] in H4, H5.
  cbn [Inputs.trust Inputs.deviceId login_inputs] in H3d.
  rewrite H5, H4, H3t, H3d, H2, H1. now split.
Qed.

Lemma new_device_row_is_trusted w w' c dev p :
  customer_by_phone w p = Some c ->
  customers_tbl (db w') = customers_tbl (db w) ->
  devices_tbl (db w')
  = (devices_tbl (db w) ++ [Device.mk (Customer.id c) dev])%list ->
  trusted_device w' dev p = true.
Proof.
  intros Hc Ht Hd.
  assert (Hin : In c (customers_tbl (db w)) /\ Customer.phone c = p).
  { unfold customer_by_phone in Hc. cbn in Hc.
    destruct (List.filter _ _) as [|c0 l] eqn:Ef; [discriminate|].
    injection Hc as ->.
    assert (In c (c :: l)) as Hin by now left.
    rewrite <- Ef in Hin. apply filter_In in Hin as [Hin Hp].
    split; [exact Hin|]. now apply String.eqb_eq. }
  destruct Hin as [Hin Hp].
  unfold trusted_device, Queries.getOneByUid, Queries.owner_has_phone.
  cbn [fst]. rewrite Hd, Ht, List.filter_app, length_app.
  cbn [List.filter Device.device_uid Device.customer_id].
  rewrite String.eqb_refl. cbn [andb].
  assert (Hex : existsb
                  (fun c0 => String.eqb (Customer.id c0) (Customer.id c)
                             && String.eqb (Customer.phone c0) p)
                  (customers_tbl (db w)) = true).
  { apply existsb_exists. exists c. split; [exact Hin|].
    now rewrite String.eqb_refl, Hp, String.eqb_refl. }
  rewrite Hex. cbn [length]. apply Nat.ltb_lt. lia.
Qed.

(** X11.  A successful login adds a trusted-device row exactly when the
    request asks to trust the device, and then for its own customer and
    device; from then on that device is a trusted one for the phone number,
    and the login-method query from it is answered otp. *)
Theorem trusting_login_switches_to_otp fl clk token req w clk' code ask :
  let w' := snd (login fl clk token req w) in
  let dev := default "" (Js.trim <$> x_device_id req) in
  fst (login fl clk token req w) = inr token ->
  (exists c,
     customer_by_phone w (phone_key req) = Some c /\
     devices_tbl (db w')
     = (devices_tbl (db w)
        ++ (if default false (body_trust req)
            then [Device.mk (Customer.id c) dev] else []))%list) /\
  (body_trust req = Some true ->
   trusted_device w' dev (phone_key req) = true /\
   (phone_key ask = phone_key req ->
    Js.trim <$> x_device_id ask = Js.trim <$> x_device_id req ->
    fst (getlogin no_faults clk' code ask w')
    = inr (LoginMethods.mk false true))).
Proof.
  intros w' dev Hok. subst w'.
  destruct (login fl clk token req w) as [r w'] eqn:E.
  cbn [fst snd] in *. subst r.
  destruct (login_success_tables _ _ _ _ _ _ _ E)
    as (c & [Hpn Hdev] & Hc & Ht & Hd).
  split; [exists c; now split|].
  intros Htrust. rewrite Htrust in Hd. cbn [default] in Hd.
  assert (Htr : trusted_device w' dev (phone_key req) = true)
    by (eapply new_device_row_is_trusted; eassumption).
  split; [exact Htr|]. intros Hk Hdk.
  apply getlogin_of_trusted_device.
  - now rewrite Hk.
  - rewrite Hk, (customer_by_phone_same_table w w') by exact Ht. eauto.
  - now rewrite Hdk.
  - now rewrite Hk, Hdk.
Qed.

(** ** Registration that succeeds *)

Lemma register_validate_inv req w inputs w' :
  register_validate is_phone_number alphanumeric req w = (inr inputs, w') ->
  w' = w /\ inputs = register_inputs req /\
  is_phone_number (phone_key req) = true /\
  Js.truthy (Js.trim <$> body_password req) = true.
Proof.
  unfold register_validate, ret, throw. fold (phone_key req).
  destruct (_ && _) eqn:Hv; [|discriminate]. intros [= <- <-].
  repeat (apply andb_true_iff in Hv as [Hv ?]).
  repeat split; assumption.
Qed.

Lemma register_until_created_inv fl new_id req w inputs c w1 :
  register_until_created hashSync is_phone_number alphanumeric fl new_id
    req w = (inr (inputs, c), w1) ->
  inputs = register_inputs req /\
  c = new_customer_row hashSync new_id req /\
  is_phone_number (phone_key req) = true /\
  Js.truthy (Js.trim <$> body_password req) = true /\
  customer_by_phone w (phone_key req) = None /\
  w1 = mkWorld (mkDb (customers_tbl (db w) ++ [c]) (devices_tbl (db w)))
         (redis w).
Proof.
  unfold register_until_created. intros E.
  apply bind_inr_inv in E as (i & w0 & E1 & E).
  apply bind_inr_inv in E as ([] & w2 & E2 & E).
  apply bind_inr_inv in E as (c' & w3 & E3 & E).
  injection E as <- <- <-.
  destruct (register_validate_inv _ _ _ _ E1) as (-> & -> & Hp & Hpw).
  assert (w2 = w /\ customer_by_phone w (phone_key req) = None) as [-> Hfree].
  { revert E2. unfold register_check_taken, bind, fetchDB, ret, throw,
      customer_by_phone.
    destruct (fl _); [discriminate|].
    cbn [Queries.getOneByPhone fst Inputs.phone register_inputs].
    destruct (List.filter _ _); cbn; [|discriminate].
    intros [= <-]. now destruct w. }
  revert E3. unfold register_create, fetchDB.
  destruct (fl _); [discriminate|]. cbn. intros [= <- <-].
  repeat split; assumption.
Qed.

Lemma register_session_success fl clk token inputs c w w' :
  register_session fl clk token inputs c w = (inr tt, w') ->
  customers_tbl (db w') = customers_tbl (db w) /\
  devices_tbl (db w')
  = (devices_tbl (db w)
     ++ (if Inputs.trust inputs
         then [Device.mk (Customer.id c)
                 (default "" (Inputs.deviceId inputs))]
         else []))%list /\
  customers (redis w') = <[Customer.id c := token]> (customers (redis w)) /\
  tokens (redis w')
  = <[token := Token.mk (Customer.id c) "customer"
                 (Moment.add_hours (at_issue clk) 1)]> (tokens (redis w)) /\
  otp (redis w') = otp (redis w) /\
  customer_login (redis w') = customer_login (redis w).
Proof.
  unfold register_session, bind, hSet, fetchDB, ret.
  cbn [h_name customersH tokensH].
  destruct (fl (HSET Hcustomers)); [discriminate|].
  destruct (fl (HSET Htokens)); [discriminate|].
  destruct (Inputs.trust inputs).
  - destruct (fl (QUERY devices_create)); [discriminate|].
    cbn. intros [= <-]. cbn. repeat split; reflexivity.
  - intros [= <-]. cbn. rewrite app_nil_r. repeat split; reflexivity.
Qed.

(** What a successful registration has done. *)
Lemma register_success_effects fl clk new_id token req w tok w' :
  register fl clk new_id token req w = (inr tok, w') ->
  let c := new_customer_row hashSync new_id req in
  tok = token /\
  is_phone_number (phone_key req) = true /\
  Js.truthy (Js.trim <$> body_password req) = true /\
  customer_by_phone w (phone_key req) = None /\
  customers_tbl (db w') = (customers_tbl (db w) ++ [c])%list /\
  devices_tbl (db w')
  = (devices_tbl (db w)
     ++ (if default false (body_trust req)
         then [Device.mk new_id (default "" (Js.trim <$> x_device_id req))]
         else []))%list /\
  customers (redis w') = <[new_id := token]> (customers (redis w)) /\
  tokens (redis w')
  = <[token := Token.mk new_id "customer"
                 (Moment.add_hours (at_issue clk) 1)]> (tokens (redis w)) /\
  otp (redis w') = otp (redis w) /\
  customer_login (redis w') = customer_login (redis w).
Proof.
  rewrite register_split. intros E c.
  apply bind_inr_inv in E as ([inputs c'] & w1 & E1 & E).
  apply bind_inr_inv in E as ([] & w2 & E2 & E).
  injection E as <- <-.
  destruct (register_until_created_inv _ _ _ _ _ _ _ E1)
    as (-> & -> & Hp & Hpw & Hfree & ->).
  fold c in E2. cbn [fst snd] in E2.
  assert (E2' : register_session fl clk token (register_inputs req) c
                  (mkWorld (mkDb (customers_tbl (db w) ++ [c])
                              (devices_tbl (db w))) (redis w))
                = (inr tt, w2)).
  { revert E2. unfold on_error. now destruct (register_session _ _ _ _ _ _)
      as [[e|[]] w3]. }
  destruct (register_session_success _ _ _ _ _ _ _ E2')
    as (Ht & Hd & Hc & Htok & Ho & Hl).
  repeat split; assumption.
Qed.

Lemma customer_by_phone_new_row w w' c p :
  customer_by_phone w p = None ->
  Customer.phone c = p ->
  customers_tbl (db w') = (customers_tbl (db w) ++ [c])%list ->
  customer_by_phone w' p = Some c.
Proof.
  unfold customer_by_phone. cbn. intros Hnone Hp ->.
  rewrite List.filter_app. cbn. rewrite Hp, String.eqb_refl.
  now destruct (List.filter _ (customers_tbl (db w))).
Qed.

(** X12.  A registration answered with a token had a phone number nobody
    held; it has appended one customer row with the trimmed name, the phone
    number and the hash of the trimmed password; the token it answers is
    the current token of the new identity, with the role customer and one
    hour to live; the device is trusted exactly when asked; and no one-time
    code or lockout record is touched. *)
Theorem successful_registration fl clk new_id token req w :
  let w' := snd (register fl clk new_id token req w) in
  let c := new_customer_row hashSync new_id req in
  forall tok,
  fst (register fl clk new_id token req w) = inr tok ->
  tok = token /\
  customer_by_phone w (phone_key req) = None /\
  customers_tbl (db w') = (customers_tbl (db w) ++ [c])%list /\
  customer_by_phone w' (phone_key req) = Some c /\
  devices_tbl (db w')
  = (devices_tbl (db w)
     ++ (if default false (body_trust req)
         then [Device.mk new_id (default "" (Js.trim <$> x_device_id req))]
         else []))%list /\
  customers (redis w') !! new_id = Some token /\
  tokens (redis w') !! token
  = Some (Token.mk new_id "customer" (at_issue clk + 3600000)) /\
  otp (redis w') = otp (redis w) /\
  customer_login (redis w') = customer_login (redis w).
Proof.
  intros w' c tok Hok. subst w'.
  destruct (register fl clk new_id token req w) as [r w'] eqn:E.
  cbn [fst snd] in *. subst r.
  destruct (register_success_effects _ _ _ _ _ _ _ _ E)
    as (Htok & _ & _ & Hfree & Ht & Hd & Hc & Htk & Ho & Hl).
  fold c in Ht.
  repeat split; try assumption.
  - eapply customer_by_phone_new_row; [exact Hfree|reflexivity|exact Ht].
  - rewrite Hc. apply lookup_insert_eq.
  - rewrite Htk, lookup_insert_eq. unfold Moment.add_hours.
    now replace (at_issue clk + 1 * 3600000) with (at_issue clk + 3600000)
      by lia.
Qed.

(** ** Registration for a phone number that is taken *)

Lemma register_taken fl clk new_id token req w :
  fl (QUERY customers_getOneByPhone) = None ->
  is_Some (customer_by_phone w (phone_key req)) ->
  register fl clk new_id token req w
  = (inl (match fst (register_validate is_phone_number alphanumeric req w)
          with
          | inr _ => NUMBER_TAKEN
          | inl e => e
          end), w).
Proof.
  intros Hq [c Hc]. unfold registerCustomer.
  destruct (register_validate is_phone_number alphanumeric req w)
    as [[e|inputs] w1] eqn:E1.
  - unfold bind. rewrite E1. revert E1.
    unfold register_validate, ret, throw.
    destruct (_ && _); [discriminate|]. now intros [= <- <-].
  - destruct (register_validate_inv _ _ _ _ E1) as (-> & -> & _).
    rewrite (bind_inr _ _ _ _ _ E1). apply bind_inl.
    unfold register_check_taken, bind, fetchDB, throw. rewrite Hq.
    unfold customer_by_phone in Hc.
    cbn [Queries.getOneByPhone fst Inputs.phone register_inputs] in *.
    destruct (List.filter _ _); [discriminate|]. now destruct w.
Qed.

(** X13.  After a successful registration, any further registration for
    the same phone number is turned away and changes no store: with
    NUMBER_TAKEN when the request is valid, with its validation error
    otherwise.  A phone number is registered at most once. *)
Theorem phone_number_registers_once
    fl clk new_id token req w fl2 clk2 new_id2 token2 req2 :
  let w' := snd (register fl clk new_id token req w) in
  fst (register fl clk new_id token req w) = inr token ->
  phone_key req2 = phone_key req ->
  fl2 (QUERY customers_getOneByPhone) = None ->
  register fl2 clk2 new_id2 token2 req2 w'
  = (inl (match fst (register_validate is_phone_number alphanumeric req2 w')
          with
          | inr _ => NUMBER_TAKEN
          | inl e => e
          end), w').
Proof.
  intros w' Hok Hp Hq. subst w'.
  destruct (register fl clk new_id token req w) as [[e|tok] w'] eqn:E;
    [discriminate Hok|]. cbn [snd].
  destruct (register_success_effects _ _ _ _ _ _ _ _ E)
    as (_ & _ & _ & Hfree & Ht & _).
  apply register_taken; [exact Hq|].
  rewrite Hp. exists (new_customer_row hashSync new_id req).
  apply (customer_by_phone_new_row w w'); [exact Hfree|reflexivity|exact Ht].
Qed.

(** ** From registration to the first login *)

(** X14.  A customer who has registered and then logs in with the same
    password, from a device that is not trusted and with no lockout record
    against the phone number, gets a new token; the token of the
    registration is deleted with that, and the new token is the current
    one.  Here bcrypt is taken to accept the password against its own
    hash, and the two tokens to differ. *)
Theorem login_after_registration_supersedes_its_token
    fl clk new_id token req w clk2 token2 lreq :
  let w' := snd (register fl clk new_id token req w) in
  let w'' := snd (login no_faults clk2 token2 lreq w') in
  let pw := default "" (Js.trim <$> body_password req) in
  fst (register fl clk new_id token req w) = inr token ->
  compareSync pw (hashSync pw 10) = true ->
  phone_key lreq = phone_key req ->
  Js.trim <$> body_password lreq = Js.trim <$> body_password req ->
  Js.truthy (Js.trim <$> x_device_id lreq) = true ->
  trusted_device w' (default "" (Js.trim <$> x_device_id lreq))
    (phone_key req) = false ->
  customer_login (redis w) !! phone_key req = None ->
  token <> "" -> token2 <> token ->
  fst (login no_faults clk2 token2 lreq w') = inr token2 /\
  tokens (redis w'') !! token = None /\
  customers (redis w'') !! new_id = Some token2 /\
  tokens (redis w'') !! token2
  = Some (Token.mk new_id "customer" (at_issue clk2 + 3600000)).
Proof.
  intros w' w'' pw Hreg Hbcrypt Hkey Hsame Hdev Huntrusted Hclear Hne Hfresh.
  subst w'' w'.
  destruct (register fl clk new_id token req w) as [r w'] eqn:E.
  cbn [fst snd] in *. subst r.
  destruct (register_success_effects _ _ _ _ _ _ _ _ E)
    as (_ & Hpn & Hpw & Hfree & Ht & _ & Hc & Htk & _ & Hl).
  set (c := new_customer_row hashSync new_id req) in *.
  set (inputs := login_inputs lreq).
  assert (Hwf : well_formed lreq) by (split; [now rewrite Hkey|exact Hdev]).
  assert (F1 : login_validate is_phone_number lreq w' = (inr inputs, w'))
    by now apply login_validate_ok.
  assert (F2 : login_find_customer no_faults inputs w' = (inr c, w')).
  { apply login_find_customer_ok; [reflexivity|].
    cbn [Inputs.phone inputs login_inputs]. rewrite Hkey.
    now apply (customer_by_phone_new_row w w'). }
  assert (F3 : login_check_blocked no_faults clk2 inputs w'
               = (inr Status.empty, w')).
  { rewrite login_check_blocked_eq by reflexivity.
    cbn [Inputs.phone inputs login_inputs]. now rewrite Hkey, Hl, Hclear. }
  assert (F4 : login_determine_type no_faults inputs w'
               = (inr password_login, w')).
  { pose proof (login_determine_type_ok no_faults inputs w' eq_refl) as Hok.
    cbn zeta in Hok. cbn [Inputs.phone Inputs.deviceId inputs login_inputs]
      in Hok. rewrite Hkey, Huntrusted in Hok. apply Hok.
    unfold inputs. cbn [Inputs.password login_inputs]. now rewrite Hsame. }
  assert (F5 : login_check_credentials compareSync no_faults clk2 inputs c
                 password_login w' = (inr true, w')).
  { unfold login_check_credentials, ret.
    cbn [Inputs.password inputs login_inputs Customer.hashed_password c
           new_customer_row]. rewrite Hsame. fold pw. now rewrite Hbcrypt. }
  destruct (login_session_tail clk2 token2 inputs c Status.empty
              password_login w') as (w2 & Etail & _).
  assert (Elogin : login no_faults clk2 token2 lreq w' = (inr token2, w2)).
  { unfold loginCustomer.
    rewrite (bind_inr _ _ _ _ _ F1), (bind_inr _ _ _ _ _ F2),
      (bind_inr _ _ _ _ _ F3), (bind_inr _ _ _ _ _ F4),
      (bind_inr _ _ _ _ _ F5).
    exact Etail. }
  rewrite Elogin. cbn [fst snd]. split; [reflexivity|].
  apply bind_inr_inv in Etail as ([] & w3 & E3 & Etail).
  apply bind_inr_inv in Etail as ([] & w4 & E4 & Etail).
  apply bind_inr_inv in Etail as ([] & w5 & E5 & Etail).
  apply bind_inr_inv in Etail as ([] & w6 & E6 & Etail).
  injection Etail as <-.
  pose proof (login_record_outcome_sessions no_faults clk2 c Status.empty
                true password_login w') as S3.
  pose proof (login_trust_device_sessions no_faults inputs c w3) as S4.
  rewrite E3 in S3. rewrite E4 in S4. cbn [snd] in S3, S4.
  assert (S : sessions w4 = sessions w') by congruence.
  injection S as SC ST.
  destruct (login_issue_success no_faults clk2 token2 c w4 w5 w6
              eq_refl E5 E6) as [HC HT].
  rewrite SC in HC. rewrite SC, ST in HT.
  change (Customer.id c) with new_id in HC, HT.
  rewrite Hc, lookup_insert_eq in HT. cbn [Js.truthy default] in HT.
  destruct (String.eqb_spec token ""); [contradiction|]. cbn [negb] in HT.
  split; [|split].
  - rewrite HT, lookup_insert_ne by congruence. apply lookup_delete_eq.
  - rewrite HC. apply lookup_insert_eq.
  - rewrite HT, lookup_insert_eq. unfold Moment.add_hours.
    now replace (at_issue clk2 + 1 * 3600000) with (at_issue clk2 + 3600000)
      by lia.
Qed.

End MoreProperties.

(** * Properties of the profile updates *)

Section ProfileProperties.

Context (hashSync : string -> Z -> string)
        (alphanumeric past_date : string -> bool)
        (toISOString : string -> string).

Local Abbreviation update :=
  (updateCustomer hashSync alphanumeric past_date toISOString).
Local Abbreviation validate_update := (update_validate alphanumeric past_date).
Local Abbreviation commit := (update_commit hashSync toISOString).

Lemma and_then_inr {A B} (m : Stage A) (k : A -> Stage B) s a s' :
  m s = (inr a, s') -> and_then m k s = k a s'.
Proof. intros H. unfold and_then. now rewrite H. Qed.

Lemma and_then_inl {A B} (m : Stage A) (k : A -> Stage B) s e s' :
  m s = (inl e, s') -> and_then m k s = (inl e, s').
Proof. intros H. unfold and_then. now rewrite H. Qed.

Lemma on_world_verifyToken fl clk req s :
  on_world (verifyToken fl clk req "customer") s
  = (token_identity fl clk req (world s), s).
Proof.
  unfold on_world, token_identity. rewrite verifyToken_ro. cbn [fst].
  now destruct s.
Qed.

Lemma update_validate_ro req body s :
  validate_update req body s = (fst (validate_update req body s), s).
Proof. unfold update_validate, done, raise. now destruct (_ && _). Qed.

Lemma update_validate_inputs req body s inputs :
  fst (validate_update req body s) = inr inputs ->
  inputs = ProfileInputs.mk (Js.trim <$> body_name req)
             (Js.trim <$> body_password req)
             (default false (body_deleteImage body))
             (Js.trim <$> body_gender body)
             (Js.trim <$> body_birthDate body).
Proof.
  unfold update_validate, done, raise.
  destruct (_ && _); [|discriminate]. now intros [= <-].
Qed.

Lemma update_get_customer_result fl id s :
  update_get_customer fl id s
  = (match fl (QUERY customers_getOneById) with
     | Some msg => inl (StoreError msg)
     | None => match customer_by_id (world s) id with
               | Some c => inr c
               | None => inl USER_NOT_FOUND
               end
     end, s).
Proof.
  unfold update_get_customer, and_then, on_world, fetchDB, customer_by_id,
    done, raise.
  destruct (fl _); [now destruct s|]. cbn.
  destruct s as [[d r] a]. cbn. now destruct (List.filter _ _).
Qed.

Lemma update_save_photo_result fx newFileName body s :
  update_save_photo fx newFileName body s
  = match files_avatar body, on_uploadImage fx with
    | None, _ => (inr None, s)
    | Some _, Some msg => (inl (StoreError msg), s)
    | Some _, None =>
        (inr (Some newFileName),
         mkStore (world s) ({[ newFileName ]} ∪ assets s))
    end.
Proof.
  unfold update_save_photo, and_then, uploadImage, done.
  destruct (files_avatar body); [|reflexivity].
  now destruct (on_uploadImage fx).
Qed.

(** The commit either fails without a trace, or maps the update over the
    customers table and deletes the old image when the row has got another
    one. *)
Lemma update_commit_result fx inputs c newImage s :
  let oldImage := Customer.image_url c in
  let newImageUrl :=
    or_else newImage
      (if ProfileInputs.deleteImage inputs then None else oldImage) in
  match commit fx inputs c newImage s with
  | (inl e, s') => s' = s /\ exists msg, on_update fx = Some msg /\
                                         e = StoreError msg
  | (inr _, s') =>
      on_update fx = None /\
      redis (world s') = redis (world s) /\
      devices_tbl (db (world s')) = devices_tbl (db (world s)) /\
      (exists f,
         customers_tbl (db (world s'))
         = map f (customers_tbl (db (world s))) /\
         (forall c', Customer.id (f c') = Customer.id c' /\
                     Customer.phone (f c') = Customer.phone c' /\
                     Customer.lang (f c') = Customer.lang c' /\
                     (Customer.id c' <> Customer.id c -> f c' = c'))) /\
      assets s'
      = (if Js.truthy oldImage && negb (bool_decide (newImageUrl = oldImage))
            && negb (on_deleteFile fx)
         then assets s ∖ {[ default "" oldImage ]}
         else assets s)
  end.
Proof.
  intros oldImage newImageUrl. unfold update_commit, and_then, update_query.
  fold oldImage. fold newImageUrl.
  destruct (on_update fx) as [msg|]; [split; eauto|].
  cbn [fst snd]. 
  set (f := update_row _ _ _ _ _ _).
  assert (Hf : forall c', Customer.id (f c') = Customer.id c' /\
                          Customer.phone (f c') = Customer.phone c' /\
                          Customer.lang (f c') = Customer.lang c' /\
                          (Customer.id c' <> Customer.id c -> f c' = c')).
  { intros c'. unfold f, update_row.
    destruct (String.eqb_spec (Customer.id c') (Customer.id c)); cbn;
      repeat split; congruence. }
  destruct (Js.truthy oldImage); cbn [negb orb andb].
  - destruct (bool_decide (newImageUrl = oldImage)); cbn [negb andb].
    + unfold done. cbn. repeat split; eauto.
    + unfold deleteFile. destruct (on_deleteFile fx); cbn;
        repeat split; eauto.
  - unfold done. cbn. repeat split; eauto.
Qed.

Lemma customer_by_id_id w id c :
  customer_by_id w id = Some c -> Customer.id c = id.
Proof.
  unfold customer_by_id. cbn.
  destruct (List.filter _ _) as [|c0 l] eqn:Ef; [discriminate|].
  intros [= ->].
  assert (In c (c :: l)) as Hin by now left.
  rewrite <- Ef in Hin. apply filter_In in Hin as [_ Hid].
  now apply String.eqb_eq.
Qed.

(** The steps of an update before the commit: nothing is written but the
    uploaded file. *)
Lemma update_cases fl fx clk newFileName req body s :
  (exists e, update fl fx clk newFileName req body s = (inl e, s)) \/
  (exists id inputs c newImage s1,
     token_identity fl clk req (world s) = inr id /\
     fst (validate_update req body s) = inr inputs /\
     customer_by_id (world s) id = Some c /\
     world s1 = world s /\
     ((files_avatar body = None /\ newImage = None /\ s1 = s) \/
      (is_Some (files_avatar body) /\ on_uploadImage fx = None /\
       newImage = Some newFileName /\
       assets s1 = {[ newFileName ]} ∪ assets s)) /\
     update fl fx clk newFileName req body s
     = match commit fx inputs c newImage s1 with
       | (inl err, s') =>
           (inl err,
            if Js.truthy newImage
            then snd (deleteFile fx (default "" newImage) s')
            else s')
       | (inr _, s') => (inr tt, s')
       end).
Proof.
  unfold updateCustomer.
  destruct (token_identity fl clk req (world s)) as [e|id] eqn:E1.
  { left. exists e. apply and_then_inl.
    now rewrite on_world_verifyToken, E1. }
  erewrite and_then_inr by (now rewrite on_world_verifyToken, E1).
  destruct (fst (validate_update req body s)) as [e|inputs] eqn:E2.
  { left. exists e. apply and_then_inl.
    now rewrite update_validate_ro, E2. }
  erewrite and_then_inr by (now rewrite update_validate_ro, E2).
  pose proof (update_get_customer_result fl id s) as E3.
  destruct (fl (QUERY customers_getOneById)) as [msg|].
  { left. eexists. apply and_then_inl. exact E3. }
  destruct (customer_by_id (world s) id) as [c|] eqn:Hc.
  2:{ left. eexists. apply and_then_inl. exact E3. }
  rewrite (and_then_inr _ _ _ _ _ E3).
  pose proof (update_save_photo_result fx newFileName body s) as E4.
  destruct (files_avatar body) as [file|] eqn:Hav.
  - destruct (on_uploadImage fx) as [msg|] eqn:Hup.
    { left. eexists. apply and_then_inl. exact E4. }
    rewrite (and_then_inr _ _ _ _ _ E4).
    right. exists id, inputs, c, (Some newFileName),
      (mkStore (world s) ({[ newFileName ]} ∪ assets s)).
    do 4 (split; [first [reflexivity | assumption]|]).
    split; [|reflexivity].
    right. split; [eauto|]. now repeat split.
  - rewrite (and_then_inr _ _ _ _ _ E4).
    right. exists id, inputs, c, None, s.
    do 4 (split; [first [reflexivity | assumption]|]).
    split; [|reflexivity].
    left. now repeat split.
Qed.


Lemma getOneById_map f id tbl :
  (forall c, Customer.id (f c) = Customer.id c) ->
  List.filter (fun c => String.eqb (Customer.id c) id) (map f tbl)
  = map f (List.filter (fun c => String.eqb (Customer.id c) id) tbl).
Proof.
  intros Hf. induction tbl as [|c l IH]; [reflexivity|].
  cbn. rewrite Hf. destruct (String.eqb (Customer.id c) id); cbn;
    now rewrite IH.
Qed.

Lemma update_commit_table fx inputs c newImage s :
  on_update fx = None ->
  fst (commit fx inputs c newImage s) = inr tt /\
  customers_tbl (db (world (snd (commit fx inputs c newImage s))))
  = map (update_row
           (default "" (or_else (ProfileInputs.name inputs)
                          (Some (Customer.name c))))
           (if Js.truthy (ProfileInputs.password inputs)
            then hashSync (default "" (ProfileInputs.password inputs)) 10
            else Customer.hashed_password c)
           (or_else newImage
              (if ProfileInputs.deleteImage inputs then None
               else Customer.image_url c))
           (or_else (ProfileInputs.gender inputs) (Customer.gender c))
           (if Js.truthy (ProfileInputs.birthDate inputs)
            then Some (toISOString
                         (default "" (ProfileInputs.birthDate inputs)))
            else Customer.birth_date c)
           (Customer.id c))
      (customers_tbl (db (world s))).
Proof.
  intros Hup. unfold update_commit, and_then, update_query. rewrite Hup.
  destruct (negb _ || negb _); [now split|].
  unfold deleteFile. now destruct (on_deleteFile fx).
Qed.

(** X18.  A profile update answered with success was made with a valid
    customer token, and the row of that identity reads back afterwards with
    the fields of the request where they were given (name and gender
    trimmed, the password hashed, the birth date converted, the image the
    uploaded file, or none when its deletion was asked) and with its own
    fields otherwise; identifier, phone number and language are never
    changed. *)
Theorem successful_update_reads_back fl fx clk newFileName req body s :
  let s' := snd (update fl fx clk newFileName req body s) in
  fst (update fl fx clk newFileName req body s) = inr tt ->
  newFileName <> "" ->
  exists id c,
    token_identity fl clk req (world s) = inr id /\
    customer_by_id (world s) id = Some c /\
    customer_by_id (world s') id
    = Some (updated_row hashSync toISOString req body newFileName c).
Proof.
  intros s' Hok Hname. subst s'.
  destruct (update_cases fl fx clk newFileName req body s)
    as [[e' E] | (id & inputs & c & newImage & s1 & Hid & Hin & Hc & Hw & Hs1
                  & E)]; rewrite E in Hok |- *; [discriminate|].
  exists id, c. split; [exact Hid|]. split; [exact Hc|].
  pose proof (update_commit_result fx inputs c newImage s1) as Hres.
  cbn zeta in Hres.
  destruct (commit fx inputs c newImage s1) as [[err|[]] s2] eqn:Ec;
    [discriminate|]. destruct Hres as (Hup & _).
  destruct (update_commit_table fx inputs c newImage s1 Hup) as [_ Ht].
  rewrite Ec in Ht. cbn [snd] in Ht |- *.
  unfold customer_by_id in *. cbn [Queries.getOneById fst] in *.
  rewrite Ht, Hw, getOneById_map
    by (intros c0; unfold update_row; now destruct (String.eqb _ _)).
  destruct (List.filter _ (customers_tbl (db (world s)))) as [|c0 l] eqn:Ef;
    [discriminate|]. injection Hc as ->. cbn [map head]. f_equal.
  assert (Hcid : Customer.id c = id).
  { assert (In c (c :: l)) as Hi by now left.
    rewrite <- Ef in Hi. apply filter_In in Hi as [_ Hi].
    now apply String.eqb_eq. }
  rewrite (update_validate_inputs _ _ _ _ Hin).
  cbn [ProfileInputs.name ProfileInputs.password ProfileInputs.deleteImage
         ProfileInputs.gender ProfileInputs.birthDate].
  unfold update_row, updated_row. rewrite String.eqb_refl.
  f_equal.
  - unfold or_else. now destruct (Js.truthy (Js.trim <$> body_name req)).
  - destruct Hs1 as [(-> & -> & _) | ([file ->] & _ & -> & _)].
    + unfold or_else. reflexivity.
    + unfold or_else. cbn [Js.truthy].
      now destruct (String.eqb_spec newFileName "").
Qed.

(** X19.  After a successful profile update the image of the customer's
    row, if it has one, is a file the storage holds, provided the image it
    had before was held; and when the row has got another image (or none),
    the old file is gone from the storage once its delete has gone
    through. *)
Theorem updated_image_is_held fl fx clk newFileName req body s id c :
  let s' := snd (update fl fx clk newFileName req body s) in
  let c' := updated_row hashSync toISOString req body newFileName c in
  fst (update fl fx clk newFileName req body s) = inr tt ->
  newFileName <> "" ->
  token_identity fl clk req (world s) = inr id ->
  customer_by_id (world s) id = Some c ->
  (forall x, Customer.image_url c = Some x -> x <> "" -> x ∈ assets s) ->
  (forall x, Customer.image_url c' = Some x -> x <> "" -> x ∈ assets s') /\
  (on_deleteFile fx = false ->
   forall x, Customer.image_url c = Some x -> x <> "" ->
             Customer.image_url c' <> Some x -> x ∉ assets s').
Proof.
  intros s' c' Hok Hname Hid Hc Hheld. subst s'.
  destruct (update_cases fl fx clk newFileName req body s)
    as [[e' E] | (id0 & inputs & c0 & newImage & s1 & Hid0 & Hin & Hc0 & Hw
                  & Hs1 & E)]; rewrite E in Hok |- *; [discriminate|].
  assert (id0 = id) by congruence. subst id0.
  assert (c0 = c) by congruence. subst c0.
  pose proof (update_commit_result fx inputs c newImage s1) as Hres.
  cbn zeta in Hres.
  destruct (commit fx inputs c newImage s1) as [[err|[]] s2];
    [discriminate|]. destruct Hres as (_ & _ & _ & _ & Ha). cbn [snd].
  rewrite (update_validate_inputs _ _ _ _ Hin) in Ha.
  cbn [ProfileInputs.deleteImage] in Ha.
  assert (Himg : or_else newImage
                   (if default false (body_deleteImage body) then None
                    else Customer.image_url c)
                 = Customer.image_url c').
  { unfold c', updated_row. cbn [Customer.image_url].
    destruct Hs1 as [(-> & -> & _) | ([file ->] & _ & -> & _)];
      unfold or_else; cbn [Js.truthy]; [reflexivity|].
    now destruct (String.eqb_spec newFileName ""). }
  rewrite Himg in Ha.
  assert (Hs1' : assets s ⊆ assets s1 /\
                 (forall x, Customer.image_url c' = Some x -> x <> "" ->
                            x ∈ assets s1) /\
                 (forall x, Customer.image_url c = Some x ->
                            Customer.image_url c' <> Some x ->
                            x ∈ assets s1 -> x ∈ assets s)).
  { destruct Hs1 as [(Hav & _ & ->) | ([file Hav] & _ & _ & Hs1)].
    - split; [reflexivity|]. split; [|auto]. intros x Hx Hne.
      unfold c', updated_row in Hx. cbn [Customer.image_url] in Hx.
      rewrite Hav in Hx.
      destruct (default false (body_deleteImage body)); [discriminate|].
      now apply Hheld.
    - rewrite Hs1. split; [set_solver|]. split.
      + intros x Hx _. unfold c', updated_row in Hx.
        cbn [Customer.image_url] in Hx. rewrite Hav in Hx.
        injection Hx as <-. set_solver.
      + intros x Hx Hne Hin1. unfold c', updated_row in Hne.
        cbn [Customer.image_url] in Hne. rewrite Hav in Hne.
        assert (x <> newFileName) by congruence. set_solver. }
  destruct Hs1' as (Hsub & Hnew & Hold).
  destruct (Customer.image_url c) as [old|] eqn:Eold; cbn [Js.truthy] in Ha.
  - destruct (String.eqb_spec old ""); cbn [negb andb] in Ha.
    + rewrite Ha. split; [exact Hnew|]. intros _ x [= <-] Hx. contradiction.
    + destruct (bool_decide_reflect (Customer.image_url c' = Some old))
        as [Hsame|Hdiff]; cbn [negb andb] in Ha.
      * rewrite Ha. split; [exact Hnew|]. intros _ x [= <-] _ Hne.
        contradiction.
      * destruct (on_deleteFile fx); cbn [negb] in Ha; rewrite Ha;
          cbn [default].
        -- split; [exact Hnew|discriminate].
        -- split.
           ++ intros x Hx Hne. apply elem_of_difference. split; [auto|].
              intros Heq%elem_of_singleton. subst x. exact (Hdiff Hx).
           ++ intros _ x [= <-] _ _. set_solver.
  - rewrite Ha. split; [exact Hnew|]. intros _ x [=].
Qed.

(** X20.  Whatever its outcome and whatever calls fail, a profile update
    keeps the hashes and the trusted devices as they are, keeps the rows of
    the customers table in place with their identifier, phone number and
    language, and changes no row of an identity other than the one of its
    token. *)
Theorem update_touches_own_row_only fl fx clk newFileName req body s :
  let s' := snd (update fl fx clk newFileName req body s) in
  redis (world s') = redis (world s) /\
  devices_tbl (db (world s')) = devices_tbl (db (world s)) /\
  exists f,
    customers_tbl (db (world s')) = map f (customers_tbl (db (world s))) /\
    forall c, Customer.id (f c) = Customer.id c /\
              Customer.phone (f c) = Customer.phone c /\
              Customer.lang (f c) = Customer.lang c /\
              (token_identity fl clk req (world s) <> inr (Customer.id c) ->
               f c = c).
Proof.
  intros s'. subst s'.
  assert (Hsame : forall s1 : Store, world s1 = world s ->
            redis (world s1) = redis (world s) /\
            devices_tbl (db (world s1)) = devices_tbl (db (world s)) /\
            exists f,
              customers_tbl (db (world s1))
              = map f (customers_tbl (db (world s))) /\
              forall c, Customer.id (f c) = Customer.id c /\
                        Customer.phone (f c) = Customer.phone c /\
                        Customer.lang (f c) = Customer.lang c /\
                        (token_identity fl clk req (world s)
                         <> inr (Customer.id c) -> f c = c)).
  { intros s1 ->. split; [reflexivity|]. split; [reflexivity|].
    exists (fun c => c). split; [now rewrite map_id|]. now intros c. }
  destruct (update_cases fl fx clk newFileName req body s)
    as [[e' ->] | (id & inputs & c & newImage & s1 & Hid & _ & Hc & Hw & _
                   & ->)]; [now apply Hsame|].
  pose proof (update_commit_result fx inputs c newImage s1) as Hres.
  cbn zeta in Hres.
  destruct (commit fx inputs c newImage s1) as [[err|[]] s2]; cbn [snd].
  - destruct Hres as [-> _]. apply Hsame.
    destruct (Js.truthy newImage); [|exact Hw].
    unfold deleteFile. now destruct (on_deleteFile fx).
  - destruct Hres as (_ & Hr & Hd & (f & Ht & Hf) & _).
    rewrite Hr, Hd, Ht, Hw. split; [reflexivity|]. split; [reflexivity|].
    exists f. split; [reflexivity|]. intros c0.
    destruct (Hf c0) as (H1 & H2 & H3 & H4). repeat split; try assumption.
    intros Hother. apply H4. rewrite (customer_by_id_id _ _ _ Hc).
    intros Heq. apply Hother. now rewrite Heq.
Qed.

(** ** The language update *)

Lemma map_updateLang_row_absent lang id tbl :
  List.filter (fun c => String.eqb (Customer.id c) id) tbl = [] ->
  map (updateLang_row lang id) tbl = tbl.
Proof.
  induction tbl as [|c l IH]; [reflexivity|]. cbn.
  unfold updateLang_row at 1.
  destruct (String.eqb (Customer.id c) id); [discriminate|].
  intros H. now rewrite IH.
Qed.

(** X21.  A language update answered with an error changes nothing.  One
    answered with success was made with a valid customer token and one of
    the languages en, ru and uz (after trimming); the row of that identity
    then reads back with that language and is otherwise as before, the
    hashes and trusted devices are untouched, and the answer is success
    even when no row has that identity, the table then being as it was. *)
Theorem language_update fl fx clk req body s :
  let r := updateCustomerLang fl fx clk req body s in
  (forall e, fst r = inl e -> snd r = s) /\
  (fst r = inr tt ->
   exists id lang,
     token_identity fl clk req (world s) = inr id /\
     Js.trim <$> body_lang body = Some lang /\
     (lang = "en" \/ lang = "ru" \/ lang = "uz") /\
     redis (world (snd r)) = redis (world s) /\
     devices_tbl (db (world (snd r))) = devices_tbl (db (world s)) /\
     customer_by_id (world (snd r)) id
     = updateLang_row lang id <$> customer_by_id (world s) id /\
     (customer_by_id (world s) id = None -> world (snd r) = world s)).
Proof.
  intros r. subst r. unfold updateCustomerLang.
  destruct (token_identity fl clk req (world s)) as [e|id] eqn:E1.
  { erewrite and_then_inl by (now rewrite on_world_verifyToken, E1).
    split; [reflexivity|discriminate]. }
  erewrite and_then_inr by (now rewrite on_world_verifyToken, E1).
  unfold and_then, lang_validate, done, raise.
  destruct (Js.trim <$> body_lang body) as [lang|] eqn:El;
    cbn [Js.truthy default andb];
    [|split; [reflexivity|discriminate]].
  destruct (negb (String.eqb lang "") && _) eqn:Hv;
    [|split; [reflexivity|discriminate]].
  apply andb_true_iff in Hv as [_ Hv]. unfold Datatypes.id in *.
  unfold update_query. destruct (on_updateLang fx) as [msg|];
    [split; [reflexivity|discriminate]|].
  cbn [fst snd]. split; [discriminate|]. intros _.
  exists id, lang. split; [reflexivity|]. split; [reflexivity|].
  split.
  { apply orb_true_iff in Hv as [Hv|Hv];
      [apply orb_true_iff in Hv as [Hv|Hv]|];
      apply String.eqb_eq in Hv; auto. }
  cbn [world db redis devices_tbl customers_tbl].
  split; [reflexivity|]. split; [reflexivity|].
  unfold customer_by_id. cbn [Queries.getOneById fst db customers_tbl].
  split.
  - rewrite getOneById_map
      by (intros c; unfold updateLang_row;
          now destruct (String.eqb (Customer.id c) id)).
    now destruct (List.filter _ _).
  - intros Hnone.
    destruct (List.filter _ (customers_tbl (db (world s)))) eqn:Ef;
      [|discriminate].
    rewrite (map_updateLang_row_absent _ _ _ Ef).
    now destruct (world s) as [[t d] rd].
Qed.

End ProfileProperties.

(** * The image storage *)

Section StorageProperties.

Context (join : list string -> string)
        (IMAGE_STORAGE_DIR API_URL : option string) (cwd : string).

Local Abbreviation root := (ImageStorage.uploadPath join IMAGE_STORAGE_DIR cwd).
Local Abbreviation upload := (ImageStorage.upload join IMAGE_STORAGE_DIR cwd).
Local Abbreviation getPathIfExists :=
  (ImageStorage.getPathIfExists join IMAGE_STORAGE_DIR cwd).
Local Abbreviation delete := (ImageStorage.delete join IMAGE_STORAGE_DIR cwd).

Lemma split_nonempty sep s : ImageStorage.split sep s <> [].
Proof.
  destruct s as [|c r]; cbn [ImageStorage.split]; [discriminate|].
  destruct (Ascii.eqb c sep); [discriminate|].
  now destruct (ImageStorage.split sep r).
Qed.

Lemma split_snoc sep base e :
  ImageStorage.split sep e = [e] ->
  ImageStorage.split sep (base ++ String sep e)
  = (ImageStorage.split sep base ++ [e])%list.
Proof.
  intros He.
  induction base as [|c b IH].
  - change ("" ++ String sep e) with (String sep e).
    cbn [ImageStorage.split app]. now rewrite Ascii.eqb_refl, He.
  - change (String c b ++ String sep e) with (String c (b ++ String sep e)).
    cbn [ImageStorage.split].
    destruct (Ascii.eqb c sep); [now rewrite IH|]. rewrite IH.
    pose proof (split_nonempty sep b).
    now destruct (ImageStorage.split sep b).
Qed.

Lemma split_last_segment sep s :
  ImageStorage.split sep s = [s] \/
  exists base e, s = base ++ String sep e /\ ImageStorage.split sep e = [e].
Proof.
  induction s as [|c r IH]; [now left|].
  destruct IH as [IH | (base & e & -> & He)].
  - destruct (Ascii.eqb_spec c sep) as [->|Hc].
    + right. now exists "", r.
    + left. cbn [ImageStorage.split]. apply Ascii.eqb_neq in Hc.
      now rewrite Hc, IH.
  - right. now exists (String c base), e.
Qed.

Lemma last_split sep s ext :
  last (ImageStorage.split sep s) = Some ext ->
  s = ext \/ exists base, s = base ++ String sep ext.
Proof.
  destruct (split_last_segment sep s) as [-> | (base & e & -> & He)].
  - intros [= ->]. now left.
  - rewrite (split_snoc _ _ _ He), last_snoc. intros [= ->]. right. eauto.
Qed.

Lemma includes_allowed ext :
  ImageStorage.includes ImageStorage.allowedExtensions ext = true ->
  exists e, ext = Some e /\ (e = "jpg" \/ e = "jpeg" \/ e = "png").
Proof.
  destruct ext as [e|]; [|discriminate]. cbn. intros H. exists e.
  split; [reflexivity|].
  destruct (String.eqb_spec e "jpg"); [auto|].
  destruct (String.eqb_spec e "jpeg"); [auto|].
  destruct (String.eqb_spec e "png"); [auto|discriminate].
Qed.

(** What the first step of [upload] leaves: the file system with the sub
    folder made, if it was not there. *)
Lemma upload_folder_step fx p fs :
  let r := if negb (ImageStorage.existsSync fs p)
           then ImageStorage.mkdirSync fx p fs else (None, fs) in
  match fst r with
  | Some _ => snd r = fs
  | None => snd r = (if ImageStorage.existsSync fs p then fs
                     else <[p := ImageStorage.Dir]> fs) /\
            is_Some (snd r !! p)
  end.
Proof.
  cbn zeta. unfold ImageStorage.mkdirSync.
  destruct (ImageStorage.existsSync fs p) eqn:E; cbn [negb].
  - cbn [fst snd]. split; [reflexivity|].
    unfold ImageStorage.existsSync in E. now apply bool_decide_eq_true in E.
  - destruct (ImageStorage.on_mkdirSync fx); cbn [fst snd]; [reflexivity|].
    split; [reflexivity|]. rewrite lookup_insert_eq. eauto.
Qed.

Lemma upload_success_inv fx name fileName subFolder fs n fs' :
  upload fx name fileName subFolder fs = (inr n, fs') ->
  let folder := join [root; default "" subFolder] in
  let target := join [root; default "" subFolder; n] in
  exists ext,
    (ext = "jpg" \/ ext = "jpeg" \/ ext = "png") /\
    last (ImageStorage.split "." name) = Some ext /\
    n = fileName ++ "." ++ ext /\
    fs' = <[target := ImageStorage.File]>
            (if ImageStorage.existsSync fs folder then fs
             else <[folder := ImageStorage.Dir]> fs).
Proof.
  unfold ImageStorage.upload. cbn zeta.
  pose proof (upload_folder_step fx
                (join [root; default "" subFolder]) fs) as Hstep.
  cbn zeta in Hstep.
  destruct (if negb _ then _ else _) as [[msg|] fs1]; [discriminate|].
  cbn [fst snd] in Hstep. destruct Hstep as [Hfs1 _].
  destruct (ImageStorage.includes _ _) eqn:Hinc; cbn [negb];
    [|discriminate].
  destruct (includes_allowed _ Hinc) as (ext & Hext & Hallowed).
  rewrite Hext. cbn [ImageStorage.template default].
  unfold ImageStorage.mv. destruct (ImageStorage.on_mv fx); [discriminate|].
  destruct (bool_decide _); [discriminate|]. intros [= <- <-].
  exists ext. now rewrite Hfs1.
Qed.

(** X22.  An upload that succeeds was given a name whose part after the
    last dot, or the whole name when it has no dot, is exactly jpg, jpeg or
    png; the name it hands back is the given file name with that extension,
    and that file is then in the sub folder, which exists; every other path
    is as before. *)
Theorem upload_stores_under_an_allowed_extension
    fx name fileName subFolder fs n fs' :
  upload fx name fileName subFolder fs = (inr n, fs') ->
  let folder := join [root; default "" subFolder] in
  let target := join [root; default "" subFolder; n] in
  exists ext,
    (ext = "jpg" \/ ext = "jpeg" \/ ext = "png") /\
    (name = ext \/ exists base, name = base ++ "." ++ ext) /\
    n = fileName ++ "." ++ ext /\
    fs' !! target = Some ImageStorage.File /\
    is_Some (fs' !! folder) /\
    forall p, p <> target -> p <> folder -> fs' !! p = fs !! p.
Proof.
  intros H folder target.
  destruct (upload_success_inv _ _ _ _ _ _ _ H)
    as (ext & Hallowed & Hlast & Hn & Hfs').
  fold folder target in Hfs'.
  exists ext. split; [exact Hallowed|].
  split; [exact (last_split _ _ _ Hlast)|]. split; [exact Hn|].
  rewrite Hfs'. split; [apply lookup_insert_eq|]. split.
  - destruct (decide (target = folder)) as [->|Hne];
      [rewrite lookup_insert_eq; eauto|].
    rewrite lookup_insert_ne by exact Hne.
    destruct (ImageStorage.existsSync fs folder) eqn:E.
    + unfold ImageStorage.existsSync in E.
      now apply bool_decide_eq_true in E.
    + rewrite lookup_insert_eq. eauto.
  - intros p Hp Hq. rewrite lookup_insert_ne by congruence.
    destruct (ImageStorage.existsSync fs folder); [reflexivity|].
    now rewrite lookup_insert_ne by congruence.
Qed.

(** X23.  When no call fails and the place of the new file is not a
    directory, a name that is jpg, jpeg or png, or ends in a dot and one of
    them, is accepted: the upload answers the file name with that
    extension.  A name that is just [png] is taken as an extension. *)
Theorem allowed_name_is_uploaded fx name fileName subFolder fs ext :
  ImageStorage.on_mkdirSync fx = None ->
  ImageStorage.on_mv fx = None ->
  ext = "jpg" \/ ext = "jpeg" \/ ext = "png" ->
  name = ext \/ (exists base, name = base ++ "." ++ ext) ->
  (forall p, fs !! p = Some ImageStorage.Dir ->
             p <> join [root; default "" subFolder; fileName ++ "." ++ ext]) ->
  join [root; default "" subFolder]
  <> join [root; default "" subFolder; fileName ++ "." ++ ext] ->
  fst (upload fx name fileName subFolder fs) = inr (fileName ++ "." ++ ext).
Proof.
  intros Hmk Hmv Hallowed Hname Hdir Hne.
  assert (Hfree : ImageStorage.split "." ext = [ext])
    by (destruct Hallowed as [->|[->| ->]]; reflexivity).
  assert (Hlast : last (ImageStorage.split "." name) = Some ext).
  { destruct Hname as [->|[base ->]]; [now rewrite Hfree|].
    change (base ++ "." ++ ext) with (base ++ String "." ext).
    now rewrite (split_snoc _ _ _ Hfree), last_snoc. }
  unfold ImageStorage.upload. cbn zeta.
  unfold ImageStorage.mkdirSync. rewrite Hmk.
  set (folder := join [root; default "" subFolder]) in *.
  assert (Hinc : ImageStorage.includes ImageStorage.allowedExtensions
                   (Some ext) = true)
    by (destruct Hallowed as [->|[->| ->]]; reflexivity).
  destruct (ImageStorage.existsSync fs folder) eqn:E; cbn [negb];
    rewrite Hlast, Hinc; cbn [negb ImageStorage.template default];
    unfold ImageStorage.mv; rewrite Hmv.
  - rewrite bool_decide_eq_false_2; [reflexivity|].
    intros Hd. exact (Hdir _ Hd eq_refl).
  - rewrite bool_decide_eq_false_2; [reflexivity|].
    rewrite lookup_insert_ne by exact Hne. intros Hd. exact (Hdir _ Hd eq_refl).
Qed.

(** X24.  An upload answered with an error has written no file.  The error
    is a reader, extension or upload error; with a reader error the file
    system is untouched, with the other two the sub folder has been made if
    it was missing, before the extension was looked at. *)
Theorem rejected_upload_writes_no_file fx name fileName subFolder fs e fs' :
  upload fx name fileName subFolder fs = (inl e, fs') ->
  let folder := join [root; default "" subFolder] in
  (forall p, fs' !! p = Some ImageStorage.File
             <-> fs !! p = Some ImageStorage.File) /\
  match e with
  | ImageStorage.FILE_READER_ERROR _ => fs' = fs
  | ImageStorage.FILE_EXTENSION_ERROR | ImageStorage.FILE_UPLOAD_ERROR _ =>
      fs' = if ImageStorage.existsSync fs folder then fs
            else <[folder := ImageStorage.Dir]> fs
  | _ => False
  end.
Proof.
  intros H folder.
  assert (Hfiles : forall p,
            (if ImageStorage.existsSync fs folder then fs
             else <[folder := ImageStorage.Dir]> fs) !! p
            = Some ImageStorage.File <-> fs !! p = Some ImageStorage.File).
  { intros p. destruct (ImageStorage.existsSync fs folder) eqn:E;
      [reflexivity|].
    unfold ImageStorage.existsSync in E. apply bool_decide_eq_false in E.
    destruct (decide (p = folder)) as [->|Hp].
    - rewrite lookup_insert_eq. split; [discriminate|].
      intros Hf. destruct E. eauto.
    - now rewrite lookup_insert_ne by congruence. }
  revert H. unfold ImageStorage.upload. cbn zeta. fold folder.
  pose proof (upload_folder_step fx folder fs) as Hstep. cbn zeta in Hstep.
  destruct (if negb _ then _ else _) as [[msg|] fs1]; cbn [fst snd] in Hstep.
  - intros [= <- <-]. now rewrite Hstep.
  - destruct Hstep as [Hfs1 _].
    destruct (negb (ImageStorage.includes _ _)).
    + intros [= <- <-]. rewrite Hfs1. split; [exact Hfiles|reflexivity].
    + unfold ImageStorage.mv. destruct (ImageStorage.on_mv fx).
      * intros [= <- <-]. rewrite Hfs1. split; [exact Hfiles|reflexivity].
      * destruct (bool_decide _); [|discriminate].
        intros [= <- <-]. rewrite Hfs1. split; [exact Hfiles|reflexivity].
Qed.

(** X25.  A file that has just been uploaded is found under the name the
    upload handed back, at the path it was moved to. *)
Theorem uploaded_file_is_found fx name fileName subFolder fs n fs' :
  upload fx name fileName subFolder fs = (inr n, fs') ->
  ImageStorage.on_access fx = false ->
  getPathIfExists fx n subFolder fs'
  = inr (join [root; default "" subFolder; n]).
Proof.
  intros H Hacc.
  destruct (upload_success_inv _ _ _ _ _ _ _ H) as (ext & _ & _ & _ & ->).
  unfold ImageStorage.getPathIfExists, ImageStorage.access,
    ImageStorage.existsSync. cbn zeta. rewrite Hacc.
  rewrite bool_decide_eq_true_2; [reflexivity|].
  rewrite lookup_insert_eq. eauto.
Qed.

Lemma delete_cases fx fileName subFolder fs :
  let target := join [root; default "" subFolder; fileName] in
  delete fx fileName subFolder fs
  = if ImageStorage.access fx target fs then (None, fs)
    else match ImageStorage.unlink fx target fs with
         | (Some message, fs1) =>
             (Some (ImageStorage.FILE_DELETE_ERROR message), fs1)
         | (None, fs1) => (None, fs1)
         end.
Proof.
  unfold ImageStorage.delete, ImageStorage.getPathIfExists. cbn zeta.
  cbn [default]. now destruct (ImageStorage.access fx _ fs).
Qed.

(** X26.  After a delete that reported no error, with the existence check
    itself working, nothing is left at the path of the file:
    [getPathIfExists] answers FILE_NOT_FOUND, every other path is as
    before, and a second delete reports no error and changes nothing. *)
Theorem deleted_file_is_not_found fx fileName subFolder fs fs' :
  delete fx fileName subFolder fs = (None, fs') ->
  ImageStorage.on_access fx = false ->
  let target := join [root; default "" subFolder; fileName] in
  fs' !! target = None /\
  (forall p, p <> target -> fs' !! p = fs !! p) /\
  getPathIfExists fx fileName subFolder fs'
  = inl ImageStorage.FILE_NOT_FOUND /\
  delete fx fileName subFolder fs' = (None, fs').
Proof.
  intros H Hacc target.
  assert (Hgone : fs' !! target = None /\
                  forall p, p <> target -> fs' !! p = fs !! p).
  { revert H. rewrite delete_cases. fold target.
    unfold ImageStorage.access, ImageStorage.existsSync. rewrite Hacc.
    cbn [orb]. destruct (bool_decide_reflect (is_Some (fs !! target)))
      as [Hex|Hno]; cbn [negb].
    - unfold ImageStorage.unlink.
      destruct (ImageStorage.on_unlink fx); [discriminate|].
      destruct (fs !! target) as [[]|]; try discriminate.
      intros [= <-]. split; [apply lookup_delete_eq|].
      intros p Hp. now rewrite lookup_delete_ne by congruence.
    - intros [= <-]. split; [|reflexivity].
      destruct (fs !! target); [destruct Hno; eauto|reflexivity]. }
  destruct Hgone as [Hnone Hrest]. split; [exact Hnone|].
  split; [exact Hrest|].
  assert (Ha : ImageStorage.access fx target fs' = true).
  { unfold ImageStorage.access, ImageStorage.existsSync.
    rewrite bool_decide_eq_false_2; [now rewrite orb_true_r|].
    rewrite Hnone. now intros [? ?]. }
  split.
  - unfold ImageStorage.getPathIfExists. cbn zeta. fold target.
    now rewrite Ha.
  - rewrite delete_cases. fold target. now rewrite Ha.
Qed.

(** X27.  The only error a delete reports is a delete error, for a path
    that holds something, and then the file system is untouched; a file
    that is not there is no error. *)
Theorem delete_reports_only_delete_errors fx fileName subFolder fs e fs' :
  delete fx fileName subFolder fs = (Some e, fs') ->
  let target := join [root; default "" subFolder; fileName] in
  (exists message, e = ImageStorage.FILE_DELETE_ERROR message) /\
  is_Some (fs !! target) /\
  fs' = fs.
Proof.
  rewrite delete_cases. intros H target. fold target in H.
  unfold ImageStorage.access, ImageStorage.existsSync in H.
  destruct (ImageStorage.on_access fx); [discriminate|]. cbn [orb] in H.
  destruct (bool_decide_reflect (is_Some (fs !! target))) as [Hex|Hno];
    cbn [negb] in H; [|discriminate].
  unfold ImageStorage.unlink in H.
  destruct (ImageStorage.on_unlink fx).
  - injection H as <- <-. eauto.
  - destruct (fs !! target) as [[]|]; try discriminate;
      injection H as <- <-; eauto.
Qed.

(** X28.  A file that has been uploaded can be deleted under the name the
    upload handed back: with the file system calls working the delete
    reports no error, the file is gone, and every other path is as the
    upload left it. *)
Theorem uploaded_file_can_be_deleted fx name fileName subFolder fs n fs1 :
  upload fx name fileName subFolder fs = (inr n, fs1) ->
  ImageStorage.on_access fx = false ->
  ImageStorage.on_unlink fx = None ->
  let target := join [root; default "" subFolder; n] in
  exists fs2,
    delete fx n subFolder fs1 = (None, fs2) /\
    fs2 !! target = None /\
    forall p, p <> target -> fs2 !! p = fs1 !! p.
Proof.
  intros H Hacc Hun target.
  destruct (upload_success_inv _ _ _ _ _ _ _ H) as (ext & _ & _ & _ & Hfs1).
  fold target in Hfs1.
  assert (Hfile : fs1 !! target = Some ImageStorage.File)
    by (rewrite Hfs1; apply lookup_insert_eq).
  exists (base.delete target fs1).
  rewrite delete_cases. fold target.
  unfold ImageStorage.access, ImageStorage.existsSync. rewrite Hacc.
  rewrite bool_decide_eq_true_2 by (rewrite Hfile; eauto). cbn [orb negb].
  unfold ImageStorage.unlink. rewrite Hun, Hfile.
  split; [reflexivity|]. split; [apply lookup_delete_eq|].
  intros p Hp. now rewrite lookup_delete_ne by congruence.
Qed.

End StorageProperties.


(** * The statements at work on the small world *)

(** ** The profile update at work *)


Lemma successful_update_reads_back_witness :
  let a := updateCustomer Demo.hashSync Demo.alphanumeric Demo.past_date
             Demo.toISOString no_faults no_profile_faults (frozen 1000)
             "new.png" (Demo.rename_alice "old-token") Demo.new_avatar
             Demo.store in
  customer_by_id (world (snd a)) "c-1"
  = Some (Customer.mk "c-1" "Alicia" "998901234567"
            (Demo.hashSync "abc123" 10) (Some "new.png") (Some "F") None
            (Some "uz")).
Proof.
  destruct (successful_update_reads_back Demo.hashSync Demo.alphanumeric
              Demo.past_date Demo.toISOString no_faults no_profile_faults
              (frozen 1000) "new.png" (Demo.rename_alice "old-token")
              Demo.new_avatar Demo.store)
    as (id & c & Hid & Hc & Hread); [vm_compute; reflexivity | discriminate |].
  vm_compute in Hid. injection Hid as <-.
  vm_compute in Hc. injection Hc as <-.
  exact Hread.
Defined.

Lemma updated_image_is_held_witness :
  let a := updateCustomer Demo.hashSync Demo.alphanumeric Demo.past_date
             Demo.toISOString no_faults no_profile_faults (frozen 1000)
             "new.png" (Demo.rename_alice "old-token") Demo.new_avatar
             Demo.store in
  "new.png" ∈ assets (snd a) /\ "alice.png" ∉ assets (snd a).
Proof.
  destruct (updated_image_is_held Demo.hashSync Demo.alphanumeric
              Demo.past_date Demo.toISOString no_faults no_profile_faults
              (frozen 1000) "new.png" (Demo.rename_alice "old-token")
              Demo.new_avatar Demo.store "c-1" Demo.alice)
    as [Hnew Hold];
    try (vm_compute; reflexivity); try discriminate.
  - intros x [= <-] _. vm_compute. reflexivity.
  - split.
    + apply Hnew; [reflexivity|discriminate].
    + apply Hold; [reflexivity|reflexivity|discriminate|discriminate].
Defined.

Lemma language_update_witness :
  let a := updateCustomerLang no_faults no_profile_faults (frozen 1000)
             (Demo.rename_alice "old-token") (Demo.set_lang " ru ")
             Demo.store in
  customer_by_id (world (snd a)) "c-1"
  = Some (Customer.mk "c-1" "Alice" "998901234567"
            (Demo.hashSync "abc123" 10) (Some "alice.png") None None
            (Some "ru")).
Proof.
  destruct (language_update no_faults no_profile_faults (frozen 1000)
              (Demo.rename_alice "old-token") (Demo.set_lang " ru ")
              Demo.store)
    as [_ H].
  destruct (H eq_refl) as (id & lang & Hid & Hlang & _ & _ & _ & Hread & _).
  vm_compute in Hid. injection Hid as <-.
  vm_compute in Hlang. injection Hlang as <-.
  exact Hread.
Defined.

(** ** Login, registration and profile read at work *)

Import Demo.

Lemma third_failure_within_a_minute_blocks_witness :
  let login := loginCustomer compareSync is_phone_number no_faults in
  let a1 := login (frozen 1000) "t1" wrong_password world in
  let a2 := login (frozen 31000) "t2" wrong_password (snd a1) in
  let a3 := login (frozen 60999) "t3" wrong_password (snd a2) in
  Failed (fst a1) /\ Failed (fst a2) /\ fst a3 = inl (USER_BLOCKED 60).
Proof.
  apply (third_failure_within_a_minute_blocks compareSync is_phone_number
           no_faults no_faults no_faults
           (frozen 1000) (frozen 31000) (frozen 60999) "t1" "t2" "t3"
           wrong_password wrong_password wrong_password world
           "998901234567");
    try (vm_compute; reflexivity);
    try (split; reflexivity);
    try (unfold chronological, before, frozen; cbn; lia).
Defined.

Lemma blocked_login_is_rejected_witness :
  loginCustomer compareSync is_phone_number no_faults (frozen 70000) "t"
    right_password blocked_world
  = (inl (USER_BLOCKED 50), blocked_world).
Proof.
  apply (blocked_login_is_rejected compareSync is_phone_number no_faults
           (frozen 70000) "t" right_password blocked_world alice
           (Status.mk (Some 60999) 0 true) 60999);
    try (vm_compute; reflexivity).
  split; reflexivity.
Defined.

Lemma login_method_query_witness :
  getCustomerLoginType is_phone_number no_faults (frozen 5) 123456
    ask_method world
  = (inr (LoginMethods.mk false true),
     update_hash otpH
       (insert "998901234567" (Otp.mk 123456 120005)) world).
Proof.
  apply (login_method_query is_phone_number no_faults (frozen 5) 123456
           ask_method world);
    try (vm_compute; reflexivity).
  exists alice. reflexivity.
Defined.

(** C3 as stated fails: asked from a trusted device, the query stores a
    one-time code. *)
Lemma login_method_query_counterexample :
  ~ (forall (is_phone_number : string -> bool) fl clk code req w,
       is_Some (customer_by_phone w (phone_key req)) ->
       snd (getCustomerLoginType is_phone_number fl clk code req w) = w).
Proof.
  intros H.
  specialize (H is_phone_number no_faults (frozen 5) 123456 ask_method world
                (ex_intro _ alice eq_refl)).
  apply (f_equal (fun w => otp (redis w) !! "998901234567")) in H.
  vm_compute in H. discriminate H.
Defined.

Lemma otp_is_single_use_witness :
  let login := loginCustomer compareSync is_phone_number no_faults in
  let a1 := login (frozen 1000) "t1" (with_otp "123456") world_with_otp in
  let a2 := login (frozen 2000) "t2" (with_otp "123456") (snd a1) in
  fst a1 = inr "t1" /\
  otp (redis (snd a1)) !! "998901234567" = None /\
  fst a2 = inl WRONG_OTP.
Proof.
  destruct (otp_is_single_use compareSync is_phone_number
              (frozen 1000) (frozen 2000) "t1" "t2" (with_otp "123456")
              world_with_otp (Otp.mk 123456 120000))
    as [(_ & H1 & H2) [_ H3]];
    try (vm_compute; reflexivity).
  - cbn. lia.
  - auto.
Defined.

Lemma expired_otp_is_deleted_and_reported_witness :
  let a := loginCustomer compareSync is_phone_number no_faults
             (frozen 120001) "t" (with_otp "123456") world_with_otp in
  fst a = inl EXPIRED_OTP /\
  otp (redis (snd a)) = delete "998901234567" (otp (redis world_with_otp)).
Proof.
  apply (expired_otp_is_deleted_and_reported compareSync is_phone_number
           no_faults (frozen 120001) "t" (with_otp "123456") world_with_otp
           (Otp.mk 123456 120000));
    vm_compute; reflexivity.
Defined.

(** C5 as stated fails at the instant of expiry itself: the code is then
    neither reported expired nor deleted, and the matching code is answered
    WRONG_OTP. *)
Lemma expired_otp_counterexample :
  ~ (forall (compareSync : string -> string -> bool)
            (is_phone_number : string -> bool) fl clk token req w o,
       fst (login_method is_phone_number fl clk req w) = inr otp_login ->
       fl (HGET Hotp) = None ->
       fl (HDEL Hotp) = None ->
       otp (redis w) !! phone_key req = Some o ->
       Otp.expiresAt o <= at_otp_expired clk ->
       fst (loginCustomer compareSync is_phone_number fl clk token req w)
       = inl EXPIRED_OTP /\
       otp (redis (snd (loginCustomer compareSync is_phone_number fl clk
                          token req w)))
       = delete (phone_key req) (otp (redis w))).
Proof.
  intros H.
  destruct (H compareSync is_phone_number no_faults (frozen 120000) "t"
              (with_otp "123456") world_with_otp (Otp.mk 123456 120000))
    as [Hr _];
    try (vm_compute; reflexivity).
  - cbn. lia.
  - vm_compute in Hr. discriminate Hr.
Defined.

Lemma expired_otp_does_not_count_toward_lockout_witness :
  let a := loginCustomer compareSync is_phone_number no_faults
             (frozen 120001) "t" (with_otp "000000") world_with_otp in
  fst a = inl EXPIRED_OTP /\
  customer_login (redis (snd a)) = customer_login (redis world_with_otp).
Proof.
  apply (expired_otp_does_not_count_toward_lockout compareSync
           is_phone_number no_faults (frozen 120001) "t" (with_otp "000000")
           world_with_otp (Otp.mk 123456 120000));
    vm_compute; reflexivity.
Defined.

Lemma new_token_supersedes_old_witness :
  let a := loginCustomer compareSync is_phone_number no_faults
             (frozen 1000) "new-token" right_password world_with_session in
  tokens (redis (snd a)) !! "old-token" = None /\
  validate 2000 "old-token" (redis (snd a)) = None /\
  customers (redis (snd a)) !! "c-1" = Some "new-token" /\
  validate 1000 "new-token" (redis (snd a)) = Some ("c-1", "customer").
Proof.
  destruct (new_token_supersedes_old compareSync is_phone_number no_faults
              (frozen 1000) "new-token" right_password world_with_session
              eq_refl ltac:(discriminate))
    as [_ H].
  apply (H alice "old-token" 2000);
    try (vm_compute; reflexivity); discriminate.
Defined.

Lemma registration_compensates_witness :
  let a := registerCustomer hashSync is_phone_number alphanumeric
             tokens_down (frozen 0) "c-2" "tok" (register_bob true) world in
  fst a = inl (StoreError "ECONNRESET") /\
  customers_tbl (db (snd a)) = customers_tbl (db world).
Proof.
  destruct (registration_compensates hashSync is_phone_number alphanumeric
              tokens_down (frozen 0) "c-2" "tok" (register_bob true) world)
    as [_ H].
  edestruct H as [Hr Hd]; [vm_compute; reflexivity | reflexivity |].
  split; [exact Hr|].
  apply (Hd eq_refl). intros c' [<-|[]]. discriminate.
Defined.

(** The profile read of the small world answers with Alice's data. *)
Example profile_of_alice :
  let w := world_with_session in
  let answer := fst (getCustomerProfile getFileUrl no_faults (frozen 1000)
                       (read_profile "old-token") w) in
  match answer with
  | inr o =>
      o !! "name" = Some (JStr "Alice") /\
      o !! "hashed_password" = None /\
      o !! "image_url" = Some (JStr "https://cdn.example/alice.png")
  | inl _ => False
  end.
Proof. vm_compute. repeat split; reflexivity. Qed.

(** The bound of C1 is sharp: with the third failure exactly 60 seconds
    after the first, the third answer is the plain failure. *)
Example third_failure_after_a_minute_does_not_block :
  let login := loginCustomer compareSync is_phone_number no_faults in
  let a1 := login (frozen 1000) "t1" wrong_password world in
  let a2 := login (frozen 31000) "t2" wrong_password (snd a1) in
  let a3 := login (frozen 61000) "t3" wrong_password (snd a2) in
  fst a3 = inl WRONG_PASSWORD.
Proof. vm_compute. reflexivity. Qed.

(** A code submitted at its instant of expiry is answered WRONG_OTP, kept,
    and counted as a failed attempt. *)
Example otp_at_expiry_instant :
  let a := loginCustomer compareSync is_phone_number no_faults
             (frozen 120000) "t" (with_otp "123456") world_with_otp in
  fst a = inl WRONG_OTP /\
  otp (redis (snd a)) !! "998901234567" = Some (Otp.mk 123456 120000) /\
  customer_login (redis (snd a)) !! "998901234567"
  = Some (Status.mk (Some 120000) 0 false).
Proof. vm_compute. repeat split; reflexivity. Qed.

(** ** The lockout at work *)

Lemma first_failure_only_warns_witness :
  let a := loginCustomer compareSync is_phone_number no_faults
             (frozen 1000) "t1" wrong_password world in
  Failed (fst a) /\ snd a = warned_world.
Proof.
  apply (first_failure_only_warns compareSync is_phone_number no_faults
           (frozen 1000) "t1" wrong_password world);
    try (vm_compute; reflexivity).
  split; reflexivity.
Defined.

Lemma failure_after_block_starts_afresh_witness :
  let a := loginCustomer compareSync is_phone_number no_faults
             (frozen 130000) "t" wrong_password blocked_world in
  Failed (fst a) /\
  snd a = update_hash customer_loginH
            (insert "998901234567" (Status.mk (Some 130000) 0 false))
            blocked_world.
Proof.
  apply (failure_after_block_starts_afresh compareSync is_phone_number
           no_faults (frozen 130000) "t" wrong_password blocked_world
           (Status.mk (Some 60999) 0 true) 60999);
    try (vm_compute; reflexivity).
  - split; reflexivity.
  - cbn. lia.
Defined.

Lemma valid_login_resets_lockout_witness :
  let a := loginCustomer compareSync is_phone_number no_faults
             (frozen 70000) "t" right_password warned_world in
  fst a = inr "t" /\
  customer_login (redis (snd a))
  = delete "998901234567" (customer_login (redis warned_world)).
Proof.
  apply (valid_login_resets_lockout compareSync is_phone_number
           (frozen 70000) "t" right_password warned_world
           (Status.mk (Some 1000) 0 false));
    vm_compute; reflexivity.
Defined.

Lemma still_blocked_time_left_witness :
  exists timeLeft,
    fst (loginCustomer compareSync is_phone_number no_faults (frozen 70000)
           "t" right_password blocked_world) = inl (USER_BLOCKED timeLeft) /\
    0 <= timeLeft <= 60.
Proof.
  destruct (still_blocked_time_left compareSync is_phone_number no_faults
              (frozen 70000) "t" right_password blocked_world alice
              (Status.mk (Some 60999) 0 true) 60999)
    as (timeLeft & Hr & Hle & Hge & _);
    try (vm_compute; reflexivity);
    try (split; reflexivity);
    try (cbn; lia).
  exists timeLeft. split; [exact Hr|].
  split; [apply Hge|apply Hle]; cbn; lia.
Defined.

Lemma login_keeps_lockout_records_well_formed_witness :
  lockout_ok 1000
    (snd (loginCustomer compareSync is_phone_number no_faults (frozen 1000)
            "t" wrong_password world)).
Proof.
  apply (login_keeps_lockout_records_well_formed compareSync is_phone_number
           no_faults (frozen 1000) "t" wrong_password world 0).
  - intros phone st H. vm_compute in H. discriminate H.
  - cbn. lia.
  - cbn. lia.
Defined.

Lemma failure_a_minute_later_never_blocks_witness :
  let a := loginCustomer compareSync is_phone_number no_faults
             (frozen 61000) "t" wrong_password warned_world in
  Failed (fst a) /\
  snd a = update_hash customer_loginH
            (insert "998901234567" (Status.mk (Some 61000) 0 false))
            warned_world.
Proof.
  apply (failure_a_minute_later_never_blocks compareSync is_phone_number
           no_faults (frozen 61000) "t" wrong_password warned_world
           (Status.mk (Some 1000) 0 false) 1000);
    try (vm_compute; reflexivity);
    try (split; reflexivity);
    try (cbn; lia).
Defined.

(** ** One-time codes at work *)

Lemma wrong_otp_keeps_the_code_witness :
  let a := loginCustomer compareSync is_phone_number no_faults
             (frozen 1000) "t" (with_otp "000000") world_with_otp in
  (fst a = inl WRONG_OTP \/ fst a = inl (USER_BLOCKED 60)) /\
  otp (redis (snd a)) = otp (redis world_with_otp) /\
  is_Some (customer_login (redis (snd a)) !! "998901234567").
Proof.
  apply (wrong_otp_keeps_the_code compareSync is_phone_number no_faults
           (frozen 1000) "t" (with_otp "000000") world_with_otp
           (Otp.mk 123456 120000));
    try (vm_compute; reflexivity).
  - cbn. lia.
  - left. vm_compute. discriminate.
Defined.

Lemma issued_code_logs_in_witness :
  let w1 := snd (getCustomerLoginType is_phone_number no_faults (frozen 5)
                   123456 ask_method world) in
  let a := loginCustomer compareSync is_phone_number no_faults
             (frozen 1000) "t" (with_otp "123456") w1 in
  fst a = inr "t" /\ otp (redis (snd a)) !! "998901234567" = None.
Proof.
  apply (issued_code_logs_in compareSync is_phone_number (frozen 5)
           (frozen 1000) 123456 "t" ask_method (with_otp "123456") world);
    try (vm_compute; reflexivity);
    try (cbn; lia).
Defined.

Lemma code_read_from_the_getter_logs_in_witness :
  let w1 := snd (getCustomerLoginType is_phone_number no_faults (frozen 5)
                   123456 ask_method world) in
  fst (getOtpFromSMS no_faults read_sms w1) = "123456" /\
  snd (getOtpFromSMS no_faults read_sms w1) = w1 /\
  fst (loginCustomer compareSync is_phone_number no_faults (frozen 1000)
         "t" (with_otp "123456") w1) = inr "t".
Proof.
  apply (code_read_from_the_getter_logs_in compareSync is_phone_number
           (frozen 5) (frozen 1000) 123456 "t" ask_method read_sms
           (with_otp "123456") world);
    try (vm_compute; reflexivity);
    try (cbn; lia).
Defined.

Lemma trusting_login_switches_to_otp_witness :
  let w' := snd (loginCustomer compareSync is_phone_number no_faults
                   (frozen 1000) "t" trusting_login world) in
  trusted_device w' "laptop-Y" "998901234567" = true /\
  fst (getCustomerLoginType is_phone_number no_faults (frozen 2000) 654321
         no_credential w')
  = inr (LoginMethods.mk false true).
Proof.
  destruct (trusting_login_switches_to_otp compareSync is_phone_number
              no_faults (frozen 1000) "t" trusting_login world
              (frozen 2000) 654321 no_credential)
    as [_ H]; [vm_compute; reflexivity|].
  destruct (H eq_refl) as [Ht Hq]. split; [exact Ht|].
  apply Hq; reflexivity.
Defined.

(** ** Registration at work *)

Lemma successful_registration_witness :
  let w' := snd (registerCustomer hashSync is_phone_number alphanumeric
                   no_faults (frozen 0) "c-2" "tok" (register_bob true)
                   world) in
  customers_tbl (db w')
  = [alice; Customer.mk "c-2" "Bob" "998907654321" (hashSync "secret1" 10)
              None None None None] /\
  devices_tbl (db w')
  = [Device.mk "c-1" "phone-X"; Device.mk "c-2" "tablet-Z"] /\
  tokens (redis w') !! "tok" = Some (Token.mk "c-2" "customer" 3600000).
Proof.
  destruct (successful_registration hashSync is_phone_number alphanumeric
              no_faults (frozen 0) "c-2" "tok" (register_bob true) world
              "tok")
    as (_ & _ & Hc & _ & Hd & _ & Ht & _); [vm_compute; reflexivity|].
  split; [exact Hc|]. split; [exact Hd|exact Ht].
Defined.

Lemma phone_number_registers_once_witness :
  let w' := snd (registerCustomer hashSync is_phone_number alphanumeric
                   no_faults (frozen 0) "c-2" "tok" (register_bob true)
                   world) in
  registerCustomer hashSync is_phone_number alphanumeric no_faults
    (frozen 9) "c-3" "tok3" (register_bob false) w'
  = (inl NUMBER_TAKEN, w').
Proof.
  apply (phone_number_registers_once hashSync is_phone_number alphanumeric
           no_faults (frozen 0) "c-2" "tok" (register_bob true) world
           no_faults (frozen 9) "c-3" "tok3" (register_bob false));
    vm_compute; reflexivity.
Defined.

Lemma login_after_registration_supersedes_its_token_witness :
  let w' := snd (registerCustomer hashSync is_phone_number alphanumeric
                   no_faults (frozen 0) "c-2" "tok" (register_bob true)
                   world) in
  let a := loginCustomer compareSync is_phone_number no_faults (frozen 1000)
             "tok2" login_bob w' in
  fst a = inr "tok2" /\
  tokens (redis (snd a)) !! "tok" = None /\
  customers (redis (snd a)) !! "c-2" = Some "tok2" /\
  tokens (redis (snd a)) !! "tok2"
  = Some (Token.mk "c-2" "customer" 3601000).
Proof.
  apply (login_after_registration_supersedes_its_token compareSync hashSync
           is_phone_number alphanumeric no_faults (frozen 0) "c-2" "tok"
           (register_bob true) world (frozen 1000) "tok2" login_bob);
    try (vm_compute; reflexivity); discriminate.
Defined.

(** ** Rejections at work *)

Lemma login_rejected_before_the_gate_witness :
  loginCustomer compareSync is_phone_number no_faults (frozen 1000) "t"
    login_bob world
  = (inl USER_NOT_FOUND, world).
Proof.
  apply (proj2 (login_rejected_before_the_gate compareSync is_phone_number
                  no_faults (frozen 1000) "t" login_bob world));
    try (vm_compute; reflexivity).
  split; reflexivity.
Defined.

Lemma login_without_credential_is_not_counted_witness :
  loginCustomer compareSync is_phone_number no_faults (frozen 1000) "t"
    no_credential world
  = (inl ValidationError, world).
Proof.
  apply (login_without_credential_is_not_counted compareSync is_phone_number
           no_faults (frozen 1000) "t" no_credential world alice
           (Status.mk None 0 false));
    try (vm_compute; reflexivity).
  split; reflexivity.
Defined.

(** ** The image storage at work *)

Lemma upload_stores_under_an_allowed_extension_witness :
  let a := ImageStorage.upload join (Some "/srv/uploads") "/app"
             ImageStorage.no_fs_faults "me.photo.png" "p-1"
             (Some "profiles") disk in
  fst a = inr "p-1.png" /\
  snd a !! "/srv/uploads/profiles/p-1.png" = Some ImageStorage.File /\
  is_Some (snd a !! "/srv/uploads/profiles").
Proof.
  destruct (upload_stores_under_an_allowed_extension join
              (Some "/srv/uploads") "/app" ImageStorage.no_fs_faults
              "me.photo.png" "p-1" (Some "profiles") disk "p-1.png"
              (snd (ImageStorage.upload join (Some "/srv/uploads") "/app"
                      ImageStorage.no_fs_faults "me.photo.png" "p-1"
                      (Some "profiles") disk)))
    as (ext & _ & _ & _ & Hfile & Hdir & _); [vm_compute; reflexivity|].
  split; [vm_compute; reflexivity|]. split; [exact Hfile|exact Hdir].
Defined.

Lemma allowed_name_is_uploaded_witness :
  fst (ImageStorage.upload join (Some "/srv/uploads") "/app"
         ImageStorage.no_fs_faults "png" "p-1" (Some "profiles") disk)
  = inr "p-1.png".
Proof.
  apply (allowed_name_is_uploaded join (Some "/srv/uploads") "/app"
           ImageStorage.no_fs_faults "png" "p-1" (Some "profiles") disk
           "png");
    try reflexivity; auto;
    try (vm_compute; discriminate).
  intros p Hp ->. vm_compute in Hp. discriminate Hp.
Defined.

Lemma rejected_upload_writes_no_file_witness :
  let a := ImageStorage.upload join (Some "/srv/uploads") "/app"
             ImageStorage.no_fs_faults "me.PNG" "p-1" (Some "profiles")
             disk in
  fst a = inl ImageStorage.FILE_EXTENSION_ERROR /\
  snd a = <[ "/srv/uploads/profiles" := ImageStorage.Dir ]> disk /\
  forall p, snd a !! p = Some ImageStorage.File
            <-> disk !! p = Some ImageStorage.File.
Proof.
  destruct (rejected_upload_writes_no_file join (Some "/srv/uploads") "/app"
              ImageStorage.no_fs_faults "me.PNG" "p-1" (Some "profiles")
              disk ImageStorage.FILE_EXTENSION_ERROR
              (snd (ImageStorage.upload join (Some "/srv/uploads") "/app"
                      ImageStorage.no_fs_faults "me.PNG" "p-1"
                      (Some "profiles") disk)))
    as [Hfiles Hfs]; [vm_compute; reflexivity|].
  split; [vm_compute; reflexivity|]. split; [exact Hfs|exact Hfiles].
Defined.

Lemma uploaded_file_is_found_witness :
  let a := ImageStorage.upload join (Some "/srv/uploads") "/app"
             ImageStorage.no_fs_faults "me.jpeg" "p-1" None disk in
  ImageStorage.getPathIfExists join (Some "/srv/uploads") "/app"
    ImageStorage.no_fs_faults "p-1.jpeg" None (snd a)
  = inr "/srv/uploads/p-1.jpeg".
Proof.
  apply (uploaded_file_is_found join (Some "/srv/uploads") "/app"
           ImageStorage.no_fs_faults "me.jpeg" "p-1" None disk "p-1.jpeg");
    vm_compute; reflexivity.
Defined.

Lemma deleted_file_is_not_found_witness :
  let fs := <[ "/srv/uploads/a.jpg" := ImageStorage.File ]> disk in
  let a := ImageStorage.delete join (Some "/srv/uploads") "/app"
             ImageStorage.no_fs_faults "a.jpg" None fs in
  snd a !! "/srv/uploads/a.jpg" = None /\
  ImageStorage.getPathIfExists join (Some "/srv/uploads") "/app"
    ImageStorage.no_fs_faults "a.jpg" None (snd a)
  = inl ImageStorage.FILE_NOT_FOUND /\
  ImageStorage.delete join (Some "/srv/uploads") "/app"
    ImageStorage.no_fs_faults "a.jpg" None (snd a) = (None, snd a).
Proof.
  destruct (deleted_file_is_not_found join (Some "/srv/uploads") "/app"
              ImageStorage.no_fs_faults "a.jpg" None
              (<[ "/srv/uploads/a.jpg" := ImageStorage.File ]> disk)
              (snd (ImageStorage.delete join (Some "/srv/uploads") "/app"
                      ImageStorage.no_fs_faults "a.jpg" None
                      (<[ "/srv/uploads/a.jpg" := ImageStorage.File ]>
                         disk))))
    as (Hnone & _ & Hget & Hagain);
    [vm_compute; reflexivity | reflexivity |].
  split; [exact Hnone|]. split; [exact Hget|exact Hagain].
Defined.

Lemma delete_reports_only_delete_errors_witness :
  let fx := ImageStorage.mkFsFaults None None false (Some "EBUSY") in
  let fs := <[ "/srv/uploads/a.jpg" := ImageStorage.File ]> disk in
  ImageStorage.delete join (Some "/srv/uploads") "/app" fx "a.jpg" None fs
  = (Some (ImageStorage.FILE_DELETE_ERROR "EBUSY"), fs) /\
  is_Some (fs !! "/srv/uploads/a.jpg").
Proof.
  destruct (delete_reports_only_delete_errors join (Some "/srv/uploads")
              "/app"
              (ImageStorage.mkFsFaults None None false (Some "EBUSY"))
              "a.jpg" None
              (<[ "/srv/uploads/a.jpg" := ImageStorage.File ]> disk)
              (ImageStorage.FILE_DELETE_ERROR "EBUSY")
              (<[ "/srv/uploads/a.jpg" := ImageStorage.File ]> disk))
    as (_ & Hsome & _); [vm_compute; reflexivity|].
  split; [vm_compute; reflexivity|exact Hsome].
Defined.

Lemma uploaded_file_can_be_deleted_witness :
  let a := ImageStorage.upload join (Some "/srv/uploads") "/app"
             ImageStorage.no_fs_faults "me.jpg" "p-1" (Some "profiles")
             disk in
  exists fs2,
    ImageStorage.delete join (Some "/srv/uploads") "/app"
      ImageStorage.no_fs_faults "p-1.jpg" (Some "profiles") (snd a)
    = (None, fs2) /\
    fs2 !! "/srv/uploads/profiles/p-1.jpg" = None.
Proof.
  destruct (uploaded_file_can_be_deleted join (Some "/srv/uploads") "/app"
              ImageStorage.no_fs_faults "me.jpg" "p-1" (Some "profiles")
              disk "p-1.jpg"
              (snd (ImageStorage.upload join (Some "/srv/uploads") "/app"
                      ImageStorage.no_fs_faults "me.jpg" "p-1"
                      (Some "profiles") disk)))
    as (fs2 & Hdel & Hnone & _);
    [vm_compute; reflexivity | reflexivity | reflexivity |].
  exists fs2. split; [exact Hdel|exact Hnone].
Defined.
